(** * Shopify weekly channel report: a shallow embedding of
      [new_shpify_report.py] and the properties of its specification.

    The development follows the script top-down: date helpers and the weekly
    partitioner ([week_start_for], [iter_weeks]), the tolerant parser
    ([to_number]), the classifier ([safe_lower], [bucket_row]), the note
    builder ([build_misc_notes]), the aggregator
    ([summarize_channel_csv_to_weekly_row]), the spreadsheet upload
    ([upload_df_to_sheet]), the orchestrator ([run]), and the helpers that
    drive the browser ([auto_login_shopify], [click_export_flow]) and read
    the date range ([get_date_range_from_args_or_env]).

    Modelling conventions.
    - A Python [date] is its proleptic Gregorian ordinal ([date.toordinal()]),
      an integer between 1 (0001-01-01) and 3652059 (9999-12-31); date
      arithmetic outside that interval raises [OverflowError], as in CPython.
    - A Python [float] is a binary64 number: the primitive type [float].
    - A Python [str] is the [string] of its UTF-8 bytes.  [strip] removes
      every Unicode whitespace character and [float] reads every Unicode
      decimal digit.  [lower] changes the ASCII letters only: the script
      compares lowered text with ASCII words, and the one other character
      that lowers to an ASCII letter alone is the Kelvin sign, which gives a
      [k], a letter none of these words contains.
    - Code that can raise returns a value of [exc]; code that also acts on the
      outside world (browser, files, spreadsheet) runs in the monad [M].
    - Code that drives a page runs in [Page.t]: the page answers each call,
      given the calls made before it, by raising or not. *)

From Stdlib Require Import ZArith List Bool Lia String Ascii.
From Stdlib Require Import Floats.
From Stdlib Require Import Sorting.Sorted.
Import ListNotations.

#[local] Set Warnings "-inexact-float".

Local Open Scope string_scope.
Local Open Scope Z_scope.

(* ================================================================== *)
(** * Exceptions *)
(* ================================================================== *)

(** The exception classes the script can meet.  All of them derive from
    Python's [Exception], so a clause [except Exception] catches each one.
    [MissingColumns found] is the [ValueError] whose message is
    [f"CSV missing required columns. Found: {found}"]: it is kept with the
    list that the message prints. *)
Inductive exn : Type :=
| ValueError (msg : string)
| MissingColumns (found : list string)
| OverflowError (msg : string)
| ZeroDivisionError (msg : string)
| FileNotFoundError (msg : string)
| TimeoutError (msg : string)
| HttpError (msg : string).

Inductive exc (A : Type) : Type :=
| Ok (a : A)
| Raise (e : exn).
Arguments Ok {A} a.
Arguments Raise {A} e.

Definition exc_bind {A B} (x : exc A) (k : A -> exc B) : exc B :=
  match x with
  | Ok a => k a
  | Raise e => Raise e
  end.

(** [try: body / except Exception: handler]. *)
Definition exc_try {A} (body : exc A) (handler : exn -> exc A) : exc A :=
  match body with
  | Ok a => Ok a
  | Raise e => handler e
  end.

Declare Scope exc_scope.
Delimit Scope exc_scope with exc.
Notation "x <- c ;; k" := (exc_bind c (fun x => k))
  (at level 61, c at next level, right associativity) : exc_scope.
Notation "' p <- c ;; k" := (exc_bind c (fun x => match x with p => k end))
  (at level 61, p pattern, c at next level, right associativity) : exc_scope.

(* ================================================================== *)
(** * Date helpers *)
(* ================================================================== *)

Module PyDate.

(** [date.toordinal()] of a [datetime.date]. *)
Definition date := Z.

Definition MINORDINAL : Z := 1.        (* date.min = 0001-01-01 *)
Definition MAXORDINAL : Z := 3652059.  (* date.max = 9999-12-31 *)

Definition valid_date (d : date) : Prop := MINORDINAL <= d <= MAXORDINAL.

Definition valid_dateb (d : date) : bool :=
  (MINORDINAL <=? d) && (d <=? MAXORDINAL).

(** [d.weekday()]: Monday is 0, Sunday is 6. *)
Definition weekday (d : date) : Z := (d + 6) mod 7.

(** [d + timedelta(days=n)]; [d - timedelta(days=n)] is [add_days d (- n)]. *)
Definition add_days (d : date) (n : Z) : exc date :=
  let r := d + n in
  if valid_dateb r then Ok r else Raise (OverflowError "date value out of range").

(** ** Calendar fields, for [isoformat] and [strftime] *)

Definition is_leap (y : Z) : bool :=
  ((y mod 4 =? 0) && negb (y mod 100 =? 0)) || (y mod 400 =? 0).

Definition days_in_month (y m : Z) : Z :=
  if m =? 2 then (if is_leap y then 29 else 28)
  else if (m =? 4) || (m =? 6) || (m =? 9) || (m =? 11) then 30
  else 31.

(** Days before January 1st of year [y]. *)
Definition days_before_year (y : Z) : Z :=
  let y1 := y - 1 in
  y1 * 365 + y1 / 4 - y1 / 100 + y1 / 400.

(** Days of year [y] before the first of month [m]. *)
Definition days_before_month (y m : Z) : Z :=
  fold_right Z.add 0 (map (days_in_month y) (map Z.of_nat (seq 1 (Z.to_nat (m - 1))))).

(** [date(y, m, d).toordinal()]. *)
Definition ordinal_of_ymd (y m d : Z) : date :=
  days_before_year y + days_before_month y m + d.

(** Walks the months of year [y] from [m] on, [n] being the zero-based day
    number counted from the first of month [m]. *)
Fixpoint month_day_from (fuel : nat) (y m n : Z) : Z * Z :=
  match fuel with
  | O => (m, n + 1)
  | S fuel' =>
      let dim := days_in_month y m in
      if n <? dim then (m, n + 1) else month_day_from fuel' y (m + 1) (n - dim)
  end.

(** [(d.year, d.month, d.day)]. *)
Definition ymd_of (d : date) : Z * Z * Z :=
  let n := d - 1 in
  let y0 := n / 146097 * 400 in
  let n1 := n mod 146097 in
  let c := Z.min 3 (n1 / 36524) in
  let n2 := n1 - c * 36524 in
  let q := n2 / 1461 in
  let n3 := n2 mod 1461 in
  let a := Z.min 3 (n3 / 365) in
  let n4 := n3 - a * 365 in
  let y := y0 + c * 100 + q * 4 + a + 1 in
  let '(m, dd) := month_day_from 11 y 1 n4 in
  (y, m, dd).

(** [d.month]. *)
Definition month (d : date) : Z := snd (fst (ymd_of d)).

End PyDate.
Import PyDate.

(** [week_start_for(d, week_start)]: the last day on or before [d] whose
    weekday is [week_start].  Python's [%] with a positive modulus is
    [Z.modulo]. *)
Definition week_start_for (d : date) (week_start : Z) : exc date :=
  let delta := (weekday d - week_start) mod 7 in
  add_days d (- delta).

(** How a generator ends after its last [yield]: [StopIteration], or an
    exception raised by its body.  [Unfinished] marks a loop cut short by the
    recursion bound of the model; [iter_weeks_finishes] shows that it never
    appears. *)
Inductive gen_end : Type :=
| Stop
| Raised (e : exn)
| Unfinished.

(** The [while cur <= until] loop of [iter_weeks]: the ranges yielded from
    [cur] on, and how the generator ends. *)
Fixpoint iter_weeks_from (fuel : nat) (cur until_ week_start : Z)
  : list (date * date) * gen_end :=
  match fuel with
  | O => ([], if cur <=? until_ then Unfinished else Stop)
  | S fuel' =>
      if cur <=? until_ then
        match week_start_for cur week_start with
        | Raise e => ([], Raised e)
        | Ok anchor =>
            match add_days anchor 6 with
            | Raise e => ([], Raised e)
            | Ok week_end =>
                let end_ := Z.min week_end until_ in
                (* yield cur, end *)
                match add_days end_ 1 with
                | Raise e => ([(cur, end_)], Raised e)
                | Ok cur' =>
                    let '(rest, fin) := iter_weeks_from fuel' cur' until_ week_start in
                    ((cur, end_) :: rest, fin)
                end
            end
        end
      else ([], Stop)
  end.

(** [iter_weeks(since, until, week_start)].  Every turn of the loop moves
    [cur] forward by at least one day, so [until - since + 1] turns suffice. *)
Definition iter_weeks (since until_ week_start : Z) : list (date * date) * gen_end :=
  iter_weeks_from (Z.to_nat (until_ - since + 1)) since until_ week_start.

(* ================================================================== *)
(** * Python strings *)
(* ================================================================== *)

Module PyStr.

Definition code (c : ascii) : N := N_of_ascii c.

(** C's [isspace] in the "C" locale ([Py_ISSPACE]), which [float()] uses. *)
Definition is_c_space (c : ascii) : bool :=
  let n := code c in
  (((9 <=? n) && (n <=? 13)) || (n =? 32))%N.

Definition is_digit (c : ascii) : bool :=
  let n := code c in ((48 <=? n) && (n <=? 57))%N.

Definition digit_value (c : ascii) : Z := Z.of_N (code c) - 48.

Definition is_upper (c : ascii) : bool :=
  let n := code c in ((65 <=? n) && (n <=? 90))%N.

Definition lower_char (c : ascii) : ascii :=
  if is_upper c then ascii_of_N (code c + 32) else c.

(** [s.lower()]. *)
Fixpoint lower (s : string) : string :=
  match s with
  | EmptyString => EmptyString
  | String c s' => String (lower_char c) (lower s')
  end.

Fixpoint lstrip_by (sp : ascii -> bool) (s : string) : string :=
  match s with
  | EmptyString => EmptyString
  | String c s' => if sp c then lstrip_by sp s' else s
  end.

Fixpoint rstrip_by (sp : ascii -> bool) (s : string) : string :=
  match s with
  | EmptyString => EmptyString
  | String c s' =>
      match rstrip_by sp s' with
      | EmptyString => if sp c then EmptyString else String c EmptyString
      | r => String c r
      end
  end.

Definition strip_by (sp : ascii -> bool) (s : string) : string :=
  rstrip_by sp (lstrip_by sp s).

(** ** Characters

    A [str] is kept as the bytes of its UTF-8 encoding: a character is a
    lead byte followed by its continuation bytes. *)

Definition is_continuation (c : ascii) : bool :=
  let n := code c in ((128 <=? n) && (n <? 192))%N.

(** The characters of [s], each as a string of its own: a byte opens a new
    character unless a continuation byte follows it. *)
Fixpoint characters (s : string) : list string :=
  match s with
  | EmptyString => []
  | String c s' =>
      match characters s' with
      | String d r :: rest =>
          if is_continuation d then String c (String d r) :: rest
          else String c EmptyString :: String d r :: rest
      | rest => String c EmptyString :: rest
      end
  end.

Definition byte (n : N) : ascii := ascii_of_N n.

(** [chr(cp).encode("utf-8")]. *)
Definition utf8 (cp : N) : string :=
  (if cp <? 0x80 then String (byte cp) EmptyString
   else if cp <? 0x800 then
     String (byte (0xC0 + cp / 0x40))
       (String (byte (0x80 + cp mod 0x40)) EmptyString)
   else if cp <? 0x10000 then
     String (byte (0xE0 + cp / 0x1000))
       (String (byte (0x80 + cp / 0x40 mod 0x40))
          (String (byte (0x80 + cp mod 0x40)) EmptyString))
   else
     String (byte (0xF0 + cp / 0x40000))
       (String (byte (0x80 + cp / 0x1000 mod 0x40))
          (String (byte (0x80 + cp / 0x40 mod 0x40))
             (String (byte (0x80 + cp mod 0x40)) EmptyString))))%N.

(** The code points [cp] with [chr(cp).isspace()]: the characters that
    [str.strip()] removes. *)
Definition WHITESPACE : list N :=
  [0x09; 0x0A; 0x0B; 0x0C; 0x0D; 0x1C; 0x1D; 0x1E; 0x1F; 0x20; 0x85; 0xA0;
   0x1680; 0x2000; 0x2001; 0x2002; 0x2003; 0x2004; 0x2005; 0x2006; 0x2007;
   0x2008; 0x2009; 0x200A; 0x2028; 0x2029; 0x202F; 0x205F; 0x3000]%N.

(** [ch.isspace()] for a character [ch]. *)
Definition is_whitespace (ch : string) : bool :=
  existsb (fun cp => String.eqb ch (utf8 cp)) WHITESPACE.

Fixpoint drop_while {A} (f : A -> bool) (l : list A) : list A :=
  match l with
  | [] => []
  | x :: l' => if f x then drop_while f l' else l
  end.

(** [s.strip()]: the whitespace characters at both ends are removed. *)
Definition strip (s : string) : string :=
  let kept := drop_while is_whitespace (characters s) in
  String.concat "" (rev (drop_while is_whitespace (rev kept))).

(** [s.replace(c, "")] for a one-character [c]. *)
Fixpoint remove_char (c : ascii) (s : string) : string :=
  match s with
  | EmptyString => EmptyString
  | String a s' => if Ascii.eqb a c then remove_char c s' else String a (remove_char c s')
  end.

(** [sep.join(parts)]. *)
Definition join (sep : string) (parts : list string) : string :=
  String.concat sep parts.

(** [s in (c1, ..., cn)] for a tuple of strings. *)
Definition mem (s : string) (l : list string) : bool :=
  existsb (String.eqb s) l.

(** [s.split(sep)] for a one-character separator. *)
Fixpoint split_on (sep : ascii) (s : string) : list string :=
  match s with
  | EmptyString => [EmptyString]
  | String c s' =>
      if Ascii.eqb c sep then EmptyString :: split_on sep s'
      else match split_on sep s' with
           | [] => [String c EmptyString]
           | p :: ps => String c p :: ps
           end
  end.

Fixpoint chars (s : string) : list ascii :=
  match s with
  | EmptyString => []
  | String c s' => c :: chars s'
  end.

Fixpoint all_digits (s : string) : bool :=
  match s with
  | EmptyString => true
  | String c s' => is_digit c && all_digits s'
  end.

(** The number written by a string of decimal digits, most significant
    digit first, continuing from [acc]. *)
Fixpoint digits_value (acc : Z) (s : string) : Z :=
  match s with
  | EmptyString => acc
  | String c s' => digits_value (10 * acc + digit_value c) s'
  end.

Definition digit_char (d : Z) : ascii := ascii_of_N (Z.to_N (48 + d)).

(** The decimal digits of [n >= 0], least significant first. *)
Fixpoint rev_digits (fuel : nat) (n : Z) : list Z :=
  match fuel with
  | O => []
  | S fuel' => if n <? 10 then [n] else (n mod 10) :: rev_digits fuel' (n / 10)
  end.

Definition string_of_chars (l : list ascii) : string :=
  fold_right String EmptyString l.

(** [str(n)] for an integer [n >= 0]. *)
Definition str_nat (n : Z) : string :=
  string_of_chars (map digit_char (rev (rev_digits (S (Z.to_nat (Z.log2 n))) n))).

(** [n] rendered in at least [width] digits, padded with zeros on the left
    (the conversions [%02d] and [%04d]). *)
Definition zero_pad (width : nat) (n : Z) : string :=
  let s := str_nat n in
  string_of_chars (repeat "0"%char (width - String.length s)) ++ s.

End PyStr.
Import PyStr.

(* ================================================================== *)
(** * Python floats *)
(* ================================================================== *)

Module PyFloat.

(** [bool(x)], the truth value of a float: [x != 0.0]. *)
Definition truthy (x : float) : bool := negb (PrimFloat.eqb x 0%float).

(** [a / b]: raises [ZeroDivisionError] exactly when [b == 0.0]. *)
Definition truediv (a b : float) : exc float :=
  if PrimFloat.eqb b 0%float
  then Raise (ZeroDivisionError "float division by zero")
  else Ok (PrimFloat.div a b).

(** [x > 0] for a float [x]. *)
Definition is_positive (x : float) : bool := PrimFloat.ltb 0%float x.

(** The binary64 number nearest to [(-1)^neg * m * 10^e10] (ties to even),
    for [m >= 0]: the result of a correctly rounded decimal-to-binary
    conversion, as performed by [float(str)]. *)
Definition float_of_decimal (neg : bool) (m e10 : Z) : float :=
  SF2Prim
    match m with
    | Zpos p =>
        if 0 <=? e10
        then binary_round prec emax neg (Z.to_pos (Zpos p * 10 ^ e10)) 0
        else SFdiv prec emax (S754_finite neg p 0)
                             (S754_finite false (Z.to_pos (10 ^ (- e10))) 0)
    | _ => S754_zero neg
    end.

(** Underscores in a numeric literal: allowed only between two digits.
    [prev] is the previous character (NUL at the start). *)
Fixpoint drop_underscores (prev : ascii) (s : string) : option string :=
  match s with
  | EmptyString => if Ascii.eqb prev "_" then None else Some EmptyString
  | String c s' =>
      if Ascii.eqb c "_" then
        if is_digit prev then drop_underscores c s' else None
      else if Ascii.eqb prev "_" && negb (is_digit c) then None
      else option_map (String c) (drop_underscores c s')
  end.

(** The longest prefix of decimal digits, and what follows it. *)
Fixpoint span_digits (s : string) : string * string :=
  match s with
  | EmptyString => (EmptyString, EmptyString)
  | String c s' =>
      if is_digit c then let '(d, r) := span_digits s' in (String c d, r)
      else (EmptyString, s)
  end.

Definition split_sign (s : string) : bool * string :=
  match s with
  | String "-" r => (true, r)
  | String "+" r => (false, r)
  | _ => (false, s)
  end.

(** An unsigned decimal literal: digits with an optional point, at least one
    digit in all, and an optional exponent with at least one digit. *)
Definition parse_decimal (neg : bool) (s : string) : option float :=
  let '(ip, r1) := span_digits s in
  let '(fp, r2) :=
    match r1 with
    | String "." r => span_digits r
    | _ => (EmptyString, r1)
    end in
  let m := digits_value 0 (ip ++ fp) in
  let scale := - Z.of_nat (String.length fp) in
  if (String.length ip + String.length fp =? 0)%nat then None
  else
    match r2 with
    | EmptyString => Some (float_of_decimal neg m scale)
    | String c r3 =>
        if Ascii.eqb c "e" || Ascii.eqb c "E" then
          let '(eneg, ds) := split_sign r3 in
          if negb (String.length ds =? 0)%nat && all_digits ds then
            let e := digits_value 0 ds in
            Some (float_of_decimal neg m ((if eneg then - e else e) + scale))
          else None
        else None
    end.

(** The digit zero of every decimal number system of Unicode 14.0 (the
    character database of CPython 3.11) outside ASCII; the nine code points
    that follow a zero are the digits 1 to 9 of its system. *)
Definition DECIMAL_ZEROS : list N :=
  [0x660; 0x6F0; 0x7C0; 0x966; 0x9E6; 0xA66; 0xAE6; 0xB66; 0xBE6; 0xC66;
   0xCE6; 0xD66; 0xDE6; 0xE50; 0xED0; 0xF20; 0x1040; 0x1090; 0x17E0; 0x1810;
   0x1946; 0x19D0; 0x1A80; 0x1A90; 0x1B50; 0x1BB0; 0x1C40; 0x1C50; 0xA620;
   0xA8D0; 0xA900; 0xA9D0; 0xA9F0; 0xAA50; 0xABF0; 0xFF10; 0x104A0; 0x10D30;
   0x11066; 0x110F0; 0x11136; 0x111D0; 0x112F0; 0x11450; 0x114D0; 0x11650;
   0x116C0; 0x11730; 0x118E0; 0x11950; 0x11C50; 0x11D50; 0x11DA0; 0x16A60;
   0x16AC0; 0x16B50; 0x1D7CE; 0x1D7D8; 0x1D7E2; 0x1D7EC; 0x1D7F6; 0x1E140;
   0x1E2F0; 0x1E950; 0x1FBF0]%N.

(** [unicodedata.decimal(ch)] for a character outside ASCII. *)
Definition to_decimal (ch : string) : option Z :=
  hd_error
    (flat_map
       (fun zero =>
          filter (fun d => String.eqb ch (utf8 (zero + Z.to_N d)))
                 [0; 1; 2; 3; 4; 5; 6; 7; 8; 9])
       DECIMAL_ZEROS).

(** What [float()] first makes of a character: a character below 127 is
    kept, another whitespace character becomes a space and another decimal
    digit its ASCII digit; any other character ends the conversion. *)
Definition to_ascii_char (ch : string) : option ascii :=
  match ch with
  | String c EmptyString =>
      if (code c <? 127)%N then Some c else None
  | _ =>
      if is_whitespace ch then Some " "%char
      else option_map digit_char (to_decimal ch)
  end.

Fixpoint to_ascii (chs : list string) : option string :=
  match chs with
  | [] => Some EmptyString
  | ch :: chs' =>
      match to_ascii_char ch, to_ascii chs' with
      | Some c, Some r => Some (String c r)
      | _, _ => None
      end
  end.

(** The float literal left once the blanks around it and the underscores
    between its digits are gone. *)
Definition float_of_literal (s : string) : exc float :=
  let bad := Raise (ValueError "could not convert string to float") in
  match drop_underscores Ascii.zero s with
  | None => bad
  | Some s1 =>
      let s2 := strip_by is_c_space s1 in
      let '(neg, body) := split_sign s2 in
      let name := lower body in
      if String.eqb name "inf" || String.eqb name "infinity" then
        Ok (if neg then neg_infinity else infinity)
      else if String.eqb name "nan" then Ok nan
      else match parse_decimal neg body with
           | Some x => Ok x
           | None => bad
           end
  end.

(** [float(s)] for a string [s]: [ValueError] when [s] is not a float
    literal; a literal too large for a binary64 gives an infinity. *)
Definition py_float (s : string) : exc float :=
  match to_ascii (characters s) with
  | None => Raise (ValueError "could not convert string to float")
  | Some a => float_of_literal a
  end.

(** The integer nearest to [m * 2^e] for [m >= 0], ties to even. *)
Definition round_half_even_shift (m e : Z) : Z :=
  if 0 <=? e then m * 2 ^ e
  else
    let d := 2 ^ (- e) in
    let q := m / d in
    let r := m mod d in
    match (2 * r ?= d) with
    | Lt => q
    | Gt => q + 1
    | Eq => if Z.even q then q else q + 1
    end.

(** [round(x, ndigits)] for [ndigits >= 0]: the exact value of [x] is rounded
    to [ndigits] decimals (ties to even) and the resulting decimal is
    converted back to a float; infinities and NaN round to themselves. *)
Definition py_round (x : float) (ndigits : Z) : float :=
  match Prim2SF x with
  | S754_finite s m e =>
      float_of_decimal s (round_half_even_shift (Zpos m * 10 ^ ndigits) e) (- ndigits)
  | _ => x
  end.

(** The digits of a non-negative integer with a comma before every group of
    three (the [,] option of the format mini-language). *)
Fixpoint group_thousands (rev_ds : list ascii) : list ascii :=
  match rev_ds with
  | a :: b :: c :: ((_ :: _) as rest) => a :: b :: c :: ","%char :: group_thousands rest
  | _ => rev_ds
  end.

Definition grouped (n : Z) : string :=
  string_of_chars (rev (group_thousands (rev (chars (str_nat n))))).

(** [f"{x:,.2f}"]. *)
Definition format_money (x : float) : string :=
  match Prim2SF x with
  | S754_nan => "nan"
  | S754_infinity s => if s then "-inf" else "inf"
  | S754_zero s => if s then "-0.00" else "0.00"
  | S754_finite s m e =>
      let cents := round_half_even_shift (Zpos m * 100) e in
      (if s then "-" else "") ++ grouped (cents / 100) ++ "." ++ zero_pad 2 (cents mod 100)
  end.

End PyFloat.
Import PyFloat.

(* ================================================================== *)
(** * Summarization logic *)
(* ================================================================== *)

(** A value found in a DataFrame cell, as far as the script can tell values
    apart: [None], the float NaN that pandas uses for a missing cell, or any
    other object.  The script reads such an object only through [str(x)], so
    [PStr s] stands for an object whose [str] is [s] (a string is its own
    [str], a number is its decimal text). *)
Inductive pyval : Type :=
| PNone
| PNaN
| PStr (s : string).

(** [str(x)]. *)
Definition py_str (x : pyval) : string :=
  match x with
  | PNone => "None"
  | PNaN => "nan"
  | PStr s => s
  end.

(** [pd.isna(x)]. *)
Definition isna (x : pyval) : bool :=
  match x with
  | PNone | PNaN => true
  | PStr _ => false
  end.

(** [to_number(x)]. *)
Definition to_number (x : pyval) : exc float :=
  match x with
  | PNone => Ok 0%float
  | _ =>
      let s := strip (py_str x) in
      if mem s [""; "—"; "-"; "nan"; "None"] then Ok 0%float
      else
        let s := remove_char "," (remove_char "$" s) in
        exc_try (py_float s) (fun _ => Ok 0%float)
  end.

(** [safe_lower(x)]. *)
Definition safe_lower (x : pyval) : string :=
  match x with
  | PNone => ""
  | PNaN => ""
  | PStr s => lower (strip s)
  end.

(** [bucket_row(ref_platform, channel, typ)]. *)
Definition bucket_row (ref_platform channel typ : pyval) : string :=
  let rp := safe_lower ref_platform in
  let ch := safe_lower channel in
  let ty := safe_lower typ in
  if String.eqb ch "direct" || String.eqb rp "direct" then
    "Direct Website Sales (Organic)"
  else if String.eqb ch "google" && String.eqb ty "paid" then
    "Google ads (Sales)"
  else if String.eqb ch "google" && String.eqb ty "organic" then
    "Google Search (Organic Sales)"
  else if String.eqb ch "attentive" || String.eqb rp "attentive" then
    "Attentive SMS (Sales)"
  else if String.eqb ch "privy" || String.eqb rp "privy" then
    "Privey Email Marketing (Sales)"
  else if String.eqb ch "activecampaign" || String.eqb rp "activecampaign" then
    "ActiveCampaign (Sales)"
  else
    "Other Channel Sales MISC".

(** ** A small model of the pandas operations the script uses *)

Module Pandas.

(** A frame as [read_csv] returns it: the header and the rows of cells. *)
Record DataFrame : Type := {
  columns : list string;
  rows : list (list pyval)
}.

Fixpoint index_of (name : string) (cols : list string) : option nat :=
  match cols with
  | [] => None
  | c :: cols' =>
      if String.eqb c name then Some O else option_map S (index_of name cols')
  end.

(** [r[col]] for a row [r] of a frame with header [cols]. *)
Definition cell (cols : list string) (r : list pyval) (col : string) : pyval :=
  match index_of col cols with
  | Some i => nth i r PNaN
  | None => PNaN
  end.

(** [df.dropna(how="all")]. *)
Definition dropna_all (rs : list (list pyval)) : list (list pyval) :=
  filter (fun r => negb (forallb isna r)) rs.

(** [df[df.astype(str).apply(lambda x: x.str.strip()).ne("").any(axis=1)]]. *)
Definition drop_blank (rs : list (list pyval)) : list (list pyval) :=
  filter (fun r => existsb (fun x => negb (String.eqb (strip (py_str x)) "")) r) rs.

(** The sum of a float column with NaN skipped ([skipna=True]), taken from
    left to right. *)
Definition nansum (vals : list float) : float :=
  fold_left (fun acc v => if is_nan v then acc else PrimFloat.add acc v) vals 0%float.

Fixpoint insert_key (k : string) (ks : list string) : list string :=
  match ks with
  | [] => [k]
  | k' :: ks' =>
      if String.eqb k k' then ks
      else if String.leb k k' then k :: ks
      else k' :: insert_key k ks'
  end.

(** The distinct keys of a grouping, in increasing order ([sort=True]). *)
Definition group_keys (ks : list string) : list string :=
  fold_right insert_key [] ks.

(** [df.groupby(key, as_index=False)[val].sum()]: one line per distinct key,
    keys in increasing order, each with the sum of its rows. *)
Definition groupby_sum {A} (key : A -> string) (val : A -> float) (l : list A)
  : list (string * float) :=
  map (fun k => (k, nansum (map val (filter (fun r => String.eqb (key r) k) l))))
      (group_keys (map key l)).

(** [a] may stand before [b] when sorting in decreasing order with NaN
    last ([ascending=False], [na_position="last"]). *)
Definition desc_le (a b : float) : bool :=
  is_nan b || (negb (is_nan a) && PrimFloat.leb b a).

Fixpoint insert_desc {A} (val : A -> float) (x : A) (l : list A) : list A :=
  match l with
  | [] => [x]
  | y :: l' =>
      if desc_le (val x) (val y) then x :: l else y :: insert_desc val x l'
  end.

(** [df.sort_values(val, ascending=False)]; lines with equal values keep
    their order. *)
Definition sort_values_desc {A} (val : A -> float) (l : list A) : list A :=
  fold_right (insert_desc val) [] l.

(** [d.get(k, default)] for a dict built from a list of items. *)
Fixpoint dict_get {V} (d : list (string * V)) (k : string) (default : V) : V :=
  match d with
  | [] => default
  | (k', v) :: d' => if String.eqb k' k then v else dict_get d' k default
  end.

(** [{key(c): c for c in items}]: a later item replaces an earlier one with
    the same key, so a lookup finds the last. *)
Definition dict_of_keys (key : string -> string) (items : list string)
  : list (string * string) :=
  rev (map (fun c => (key c, c)) items).

Definition dict_find (d : list (string * string)) (k : string) : option string :=
  option_map snd (find (fun kv => String.eqb (fst kv) k) d).

End Pandas.
Import Pandas.

(** A row of the working frame: the cells read from the CSV and the three
    columns [_sales], [_cost] and [_bucket] that the script adds. *)
Record srow : Type := {
  r_cells : list pyval;
  r_sales : float;
  r_cost : float;
  r_bucket : string
}.

Definition OTHER_MISC : string := "Other Channel Sales MISC".

(** The list [parts] of [build_misc_notes] before it is rendered: the
    (name, sales) lines of the twelve best groups that have positive sales.
    [name_of] computes the column [_name] of a row. *)
Definition misc_groups (name_of : srow -> string) (df_other : list srow)
  : list (string * float) :=
  sort_values_desc snd (groupby_sum name_of r_sales df_other).

Definition misc_parts (name_of : srow -> string) (df_other : list srow)
  : list (string * float) :=
  filter (fun g => is_positive (snd g)) (firstn 12 (misc_groups name_of df_other)).

Definition misc_name (cols : list string) (ch_col ty_col : string) (r : srow) : string :=
  strip (py_str (cell cols (r_cells r) ch_col)) ++ " (" ++
  strip (py_str (cell cols (r_cells r) ty_col)) ++ ")".

Definition render_part (g : string * float) : string :=
  fst g ++ " $" ++ format_money (snd g).

(** [build_misc_notes(df_other, ch_col, ty_col)]; [cols] is the header of
    [df_other]. *)
Definition build_misc_notes (cols : list string) (df_other : list srow)
    (ch_col ty_col : string) : string :=
  match df_other with
  | [] => ""
  | _ => join " | " (map render_part (misc_parts (misc_name cols ch_col ty_col) df_other))
  end.

(** ** Dates as text *)

(** [d.isoformat()], also [d.strftime("%Y-%m-%d")]. *)
Definition isoformat (d : date) : string :=
  let '(y, m, dd) := ymd_of d in
  zero_pad 4 y ++ "-" ++ zero_pad 2 m ++ "-" ++ zero_pad 2 dd.

(** [ymd(d)]. *)
Definition ymd (d : date) : string := isoformat d.

Definition MONTH_NAMES : list string :=
  ["January"; "February"; "March"; "April"; "May"; "June"; "July";
   "August"; "September"; "October"; "November"; "December"].

(** [d.strftime("%B")] in the C locale. *)
Definition strftime_B (d : date) : string :=
  nth (Z.to_nat (month d - 1)) MONTH_NAMES "".

(** One or two digits whose value lies between 1 and [hi]: the directives
    [%m] and [%d] of [strptime]. *)
Definition field_upto (hi : Z) (s : string) : option Z :=
  let n := String.length s in
  if ((1 <=? n) && (n <=? 2))%nat && all_digits s then
    let v := digits_value 0 s in
    if (1 <=? v) && (v <=? hi) then Some v else None
  else None.

(** [%d] also accepts a space followed by one digit from 1 to 9. *)
Definition day_field (s : string) : option Z :=
  match s with
  | String " " r =>
      if (String.length r =? 1)%nat then field_upto 9 r else None
  | _ => field_upto 31 s
  end.

(** [datetime.strptime(s, "%Y-%m-%d")], as (year, month, day). *)
Definition strptime_ymd (s : string) : exc (Z * Z * Z) :=
  let bad := Raise (ValueError "time data does not match format '%Y-%m-%d'") in
  match split_on "-" s with
  | [ys; ms; ds] =>
      if (String.length ys =? 4)%nat && all_digits ys then
        match field_upto 12 ms, day_field ds with
        | Some m, Some d =>
            let y := digits_value 0 ys in
            if (1 <=? y) && (d <=? days_in_month y m) then Ok (y, m, d)
            else Raise (ValueError "date out of range")
        | _, _ => bad
        end
      else bad
  | _ => bad
  end.

(** [parse_ymd(s)]. *)
Definition parse_ymd (s : string) : exc date :=
  ('(y, m, d) <- strptime_ymd s ;;
   Ok (ordinal_of_ymd y m d))%exc.

(** [format_date_range(start_ymd, end_ymd)]. *)
Definition format_date_range (start_ymd end_ymd : string) : exc string :=
  ('(_, sm, sd) <- strptime_ymd start_ymd ;;
   '(_, em, ed) <- strptime_ymd end_ymd ;;
   Ok (str_nat sm ++ "/" ++ str_nat sd ++ "-" ++ str_nat em ++ "/" ++ str_nat ed))%exc.

(** ** The weekly summary row *)

(** The one-row frame returned by [summarize_channel_csv_to_weekly_row], a
    field per column of [ordered_cols], in that order. *)
Record SummaryRow : Type := {
  Month : string;
  Dates_Week : string;
  Direct_Website_Sales : float;
  Google_ads_Sales : float;
  Google_Search_Sales : float;
  Attentive_SMS_Sales : float;
  Privey_Email_Sales : float;
  ActiveCampaign_Sales : float;
  Other_Channel_Sales_MISC : float;
  Tot_Sales : float;
  Google_ads_Cost : float;
  Privey_Email_Cost : float;
  Attentive_SMS_Cost : float;
  Total_Cost : float;
  GPM : float;
  MISC : string;
  Upload_Date : string;
  Range_Start : string;
  Range_End : string;
  Country : string
}.

(** [df[col].apply(to_number)]. *)
Fixpoint apply_to_number (xs : list pyval) : exc (list float) :=
  match xs with
  | [] => Ok []
  | x :: xs' =>
      (v <- to_number x ;;
       vs <- apply_to_number xs' ;;
       Ok (v :: vs))%exc
  end.

(** The working frame of [summarize_channel_csv_to_weekly_row]: blank rows
    dropped, the required columns located, and [_sales], [_cost] and
    [_bucket] computed row by row.  Returns the rows with the names of the
    channel and type columns.  (What pandas does when a row-wise [apply]
    meets a frame without any row is left out of the model.) *)
Definition prepare (df : DataFrame) : exc (list srow * string * string) :=
  let cols := columns df in
  let rs := drop_blank (dropna_all (rows df)) in
  let colmap := dict_of_keys (fun c => strip (lower c)) cols in
  let col := dict_find colmap in
  match col "referring platform", col "channel", col "type", col "sales" with
  | Some rp_col, Some ch_col, Some ty_col, Some sales_col =>
      (sales <- apply_to_number (map (fun r => cell cols r sales_col) rs) ;;
       costs <- match col "cost" with
                | Some cost_col => apply_to_number (map (fun r => cell cols r cost_col) rs)
                | None => Ok (map (fun _ => 0%float) rs)
                end ;;
       Ok (map (fun '(r, (s, c)) =>
                  {| r_cells := r; r_sales := s; r_cost := c;
                     r_bucket := bucket_row (cell cols r rp_col) (cell cols r ch_col)
                                            (cell cols r ty_col) |})
               (combine rs (combine sales costs)),
           ch_col, ty_col))%exc
  | _, _, _, _ => Raise (MissingColumns cols)
  end.

(** [float(df["_sales"].sum())] and [float(df["_cost"].sum())]. *)
Definition tot_sales_of (rs : list srow) : float := nansum (map r_sales rs).
Definition tot_cost_of (rs : list srow) : float := nansum (map r_cost rs).

(** [gpm = ((tot_sales - tot_cost) / tot_sales) if tot_sales else 0.0]. *)
Definition gpm_of (tot_sales tot_cost : float) : exc float :=
  if truthy tot_sales then truediv (PrimFloat.sub tot_sales tot_cost) tot_sales
  else Ok 0%float.

(** [round(d.get(k, 0.0), 2)]. *)
Definition get_rounded (d : list (string * float)) (k : string) : float :=
  py_round (dict_get d k 0%float) 2.

(** [summarize_channel_csv_to_weekly_row(csv_path, start, end)]: [df] is the
    frame read from [csv_path], [today] the date of [datetime.now()] and
    [COUNTRY] the module-level setting. *)
Definition summarize_channel_csv_to_weekly_row
    (today : date) (COUNTRY : string) (df : DataFrame) (start end_ : date)
  : exc SummaryRow :=
  ('(rs, ch_col, ty_col) <- prepare df ;;
   let sales_by := groupby_sum r_bucket r_sales rs in
   let cost_by := groupby_sum r_bucket r_cost rs in
   let other_df := filter (fun r => String.eqb (r_bucket r) OTHER_MISC) rs in
   let misc_notes := build_misc_notes (columns df) other_df ch_col ty_col in
   let tot_sales := tot_sales_of rs in
   let tot_cost := tot_cost_of rs in
   gpm <- gpm_of tot_sales tot_cost ;;
   let start_str := isoformat start in
   let end_str := isoformat end_ in
   dates_week <- format_date_range start_str end_str ;;
   Ok {| Month := strftime_B start;
         Dates_Week := dates_week;
         Direct_Website_Sales := get_rounded sales_by "Direct Website Sales (Organic)";
         Google_ads_Sales := get_rounded sales_by "Google ads (Sales)";
         Google_Search_Sales := get_rounded sales_by "Google Search (Organic Sales)";
         Attentive_SMS_Sales := get_rounded sales_by "Attentive SMS (Sales)";
         Privey_Email_Sales := get_rounded sales_by "Privey Email Marketing (Sales)";
         ActiveCampaign_Sales := get_rounded sales_by "ActiveCampaign (Sales)";
         Other_Channel_Sales_MISC := get_rounded sales_by "Other Channel Sales MISC";
         Tot_Sales := py_round tot_sales 2;
         Google_ads_Cost := get_rounded cost_by "Google ads (Sales)";
         Privey_Email_Cost := get_rounded cost_by "Privey Email Marketing (Sales)";
         Attentive_SMS_Cost := get_rounded cost_by "Attentive SMS (Sales)";
         Total_Cost := py_round tot_cost 2;
         GPM := py_round gpm 4;
         MISC := misc_notes;
         Upload_Date := isoformat today;
         Range_Start := start_str;
         Range_End := end_str;
         Country := COUNTRY |})%exc.

(* ================================================================== *)
(** * The outside world: browser, files and spreadsheet *)
(* ================================================================== *)

(** A value sent to or stored in a spreadsheet cell. *)
Inductive cellv : Type :=
| VStr (s : string)
| VNum (x : float).

Definition grid := list (list cellv).

(** What the script does to the outside world, in the order it does it.  An
    event is logged once its step is done, so a step that raises leaves no
    event; [EvGoto] and [EvLogin] are logged when the step begins, since the
    page is asked before it answers. *)
Inductive event : Type :=
| EvLaunchBrowser                                  (* p.chromium.launch *)
| EvNewContext (with_state : bool)                 (* browser.new_context *)
| EvGoto (url : string)                            (* page.goto *)
| EvLogin (auto : bool)                            (* auto_login_shopify, or input *)
| EvSaveState                                      (* context.storage_state *)
| EvWeekFailed (start end_ : date) (e : exn)      (* the print of the [except] clause *)
| EvRawSaved (since_ymd until_ymd : string)        (* the downloaded CSV, saved *)
| EvSummarySaved (row : SummaryRow)                (* the week's _SUMMARY.csv *)
| EvAddSheet                                       (* batchUpdate: addSheet *)
| EvSheetClear                                     (* values().clear *)
| EvSheetUpdate (values : grid)                    (* values().update at A1 *)
| EvSheetAppend (values : grid)                    (* values().append *)
| EvUploaded (mode : string)                       (* upload_df_to_sheet has sent the row *)
| EvCombinedSaved (rows : list SummaryRow)         (* the combined summary CSV *)
| EvClose.                                         (* context.close(); browser.close() *)

(** The mutable part of the world: the tab [SHEET_NAME] of the spreadsheet
    ([None] while the tab does not exist) and the log of what was done,
    most recent event first. *)
Record world : Type := {
  sheet : option grid;
  log : list event
}.

(** Computations that act on the world and may raise.  The world changes made
    before an exception stay made. *)
Definition M (A : Type) : Type := world -> exc A * world.

Definition ret {A} (a : A) : M A := fun w => (Ok a, w).

Definition raise {A} (e : exn) : M A := fun w => (Raise e, w).

Definition bind {A B} (m : M A) (k : A -> M B) : M B :=
  fun w =>
    match m w with
    | (Ok a, w') => k a w'
    | (Raise e, w') => (Raise e, w')
    end.

Definition lift {A} (x : exc A) : M A := fun w => (x, w).

Definition emit (ev : event) : M unit :=
  fun w => (Ok tt, {| sheet := sheet w; log := ev :: log w |}).

Definition get_sheet : M (option grid) := fun w => (Ok (sheet w), w).

Definition set_sheet (g : option grid) : M unit :=
  fun w => (Ok tt, {| sheet := g; log := log w |}).

(** [try: body / except Exception as e: handler(e)]. *)
Definition try_except {A} (body : M A) (handler : exn -> M A) : M A :=
  fun w =>
    match body w with
    | (Ok a, w') => (Ok a, w')
    | (Raise e, w') => handler e w'
    end.

(** [try: body / finally: cleanup]. *)
Definition try_finally {A} (body : M A) (cleanup : M unit) : M A :=
  fun w =>
    match body w with
    | (r, w') =>
        match cleanup w' with
        | (Ok _, w'') => (r, w'')
        | (Raise e, w'') => (Raise e, w'')
        end
    end.

Declare Scope m_scope.
Delimit Scope m_scope with M.
Notation "x <- c ;; k" := (bind c (fun x => k))
  (at level 61, c at next level, right associativity) : m_scope.
Notation "c ;; k" := (bind c (fun _ => k))
  (at level 61, right associativity) : m_scope.

(** ** Google Sheets helpers *)

(** [ordered_cols], the header of the summary frame. *)
Definition ordered_cols : list string :=
  ["Month"; "Dates/ Week";
   "Direct Website Sales (Organic)"; "Google ads (Sales)";
   "Google Search (Organic Sales)"; "Attentive SMS (Sales)";
   "Privey Email Marketing (Sales)"; "ActiveCampaign (Sales)";
   "Other Channel Sales MISC"; "Tot Sales";
   "Google ads (Cost)"; "Privey Email Marketing (Cost)";
   "Attentive SMS (Cost)"; "Total Cost"; "GPM"; "MISC.";
   "Upload_Date"; "Range_Start"; "Range_End"; "Country"].

(** A float of the frame as uploaded: [where(pd.notnull(df), "")] turns a
    NaN into the empty string. *)
Definition num_cell (x : float) : cellv :=
  if is_nan x then VStr "" else VNum x.

(** [df.astype(object).where(pd.notnull(df), "").values.tolist()] for the
    one-row summary frame. *)
Definition row_values (r : SummaryRow) : list cellv :=
  [VStr (Month r); VStr (Dates_Week r);
   num_cell (Direct_Website_Sales r); num_cell (Google_ads_Sales r);
   num_cell (Google_Search_Sales r); num_cell (Attentive_SMS_Sales r);
   num_cell (Privey_Email_Sales r); num_cell (ActiveCampaign_Sales r);
   num_cell (Other_Channel_Sales_MISC r); num_cell (Tot_Sales r);
   num_cell (Google_ads_Cost r); num_cell (Privey_Email_Cost r);
   num_cell (Attentive_SMS_Cost r); num_cell (Total_Cost r);
   num_cell (GPM r); VStr (MISC r);
   VStr (Upload_Date r); VStr (Range_Start r); VStr (Range_End r);
   VStr (Country r)].

Definition header_row : list cellv := map VStr ordered_cols.

Definition cell_blank (c : cellv) : bool :=
  match c with
  | VStr s => String.eqb s ""
  | VNum _ => false
  end.

(** Whether reading the range A1:A1 returns no values. *)
Definition a1_empty (g : grid) : bool :=
  match g with
  | (c :: _) :: _ => cell_blank c
  | _ => true
  end.

Fixpoint overlay_row (vals old : list cellv) : list cellv :=
  match vals, old with
  | [], _ => old
  | v :: vs, [] => v :: vs
  | v :: vs, _ :: os => v :: overlay_row vs os
  end.

(** The grid after [values().update] writes [vals] from cell A1 on. *)
Fixpoint overlay (vals old : grid) : grid :=
  match vals, old with
  | [], _ => old
  | r :: rs, [] => r :: rs
  | r :: rs, o :: os => overlay_row r o :: overlay rs os
  end.

(** A missing environment variable, or an empty one, is falsy. *)
Definition falsy (x : option string) : bool :=
  match x with
  | None => true
  | Some s => String.eqb s ""
  end.

(** The calls that [upload_df_to_sheet] makes to the Sheets service; each of
    them can fail. *)
Inductive api_call : Type :=
| GetService        (* get_sheets_service() *)
| GetMeta           (* spreadsheets().get, in ensure_tab *)
| AddSheet          (* spreadsheets().batchUpdate, in ensure_tab *)
| ClearAll          (* values().clear, overwrite mode *)
| UpdateAll         (* values().update, overwrite mode *)
| GetA1             (* values().get of A1:A1, append mode *)
| UpdateNew         (* values().update, append mode on an empty tab *)
| AppendRows.       (* values().append, append mode *)

Definition raise_if (err : option exn) : M unit :=
  match err with
  | Some e => raise e
  | None => ret tt
  end.

(** [ensure_tab(service, spreadsheet_id, sheet_name)]; [fault] tells which
    calls to the service raise, and what. *)
Definition ensure_tab (fault : api_call -> option exn) : M unit :=
  (raise_if (fault GetMeta) ;;
   g <- get_sheet ;;
   match g with
   | Some _ => ret tt
   | None =>
       raise_if (fault AddSheet) ;;
       emit EvAddSheet ;;
       set_sheet (Some [])
   end)%M.

(** [upload_df_to_sheet(df, spreadsheet_id, sheet_name, mode)] for the
    one-row frame [df]. *)
Definition upload_df_to_sheet (df : SummaryRow) (spreadsheet_id : option string)
    (fault : api_call -> option exn) (mode : string) : M unit :=
  (if falsy spreadsheet_id then raise (ValueError "SHEET_ID missing in .env")
   else
     raise_if (fault GetService) ;;
     ensure_tab fault ;;
     let header_and_rows := [header_row; row_values df] in
     if String.eqb mode "overwrite" then
       raise_if (fault ClearAll) ;;
       emit EvSheetClear ;;
       set_sheet (Some []) ;;
       raise_if (fault UpdateAll) ;;
       emit (EvSheetUpdate header_and_rows) ;;
       set_sheet (Some (overlay header_and_rows []))
     else
       raise_if (fault GetA1) ;;
       g <- get_sheet ;;
       let tab := match g with Some t => t | None => [] end in
       if a1_empty tab then
         (* empty sheet => include header *)
         raise_if (fault UpdateNew) ;;
         emit (EvSheetUpdate header_and_rows) ;;
         set_sheet (Some (overlay header_and_rows tab))
       else
         (* existing header => append only values *)
         raise_if (fault AppendRows) ;;
         emit (EvSheetAppend [row_values df]) ;;
         set_sheet (Some (tab ++ [row_values df])%list))%M.

(* ================================================================== *)
(** * Main *)
(* ================================================================== *)

(** The steps of [run] that act on the console, on the files or on the
    browser process.  Each of them can raise; the steps of a week are named
    with the first day of the week. *)
Inductive local_step : Type :=
| PrintSettings                  (* the three prints before the browser starts *)
| StartPlaywright                (* entering [async with async_playwright()] *)
| Launch                         (* p.chromium.launch *)
| NewContext                     (* browser.new_context *)
| PrintStateLoaded               (* print("Loaded storage state ...") *)
| NewPage                        (* context.new_page *)
| StorageState                   (* context.storage_state(path=...) *)
| PrintStateSaved                (* print("Saved Shopify session ...") *)
| PrintWeek (start : date)       (* print("--- Exporting week ...") *)
| PrintPreview (start : date)    (* the two prints of the summary row *)
| SummaryToCsv (start : date)    (* summary_df.to_csv *)
| PrintSummarySaved (start : date)
| PrintUploaded (start : date)   (* the print that ends the upload, and the next *)
| CombinedToCsv                  (* pd.concat and combined.to_csv *)
| PrintCombinedSaved
| CloseContext                   (* context.close *)
| CloseBrowser                   (* browser.close *)
| StopPlaywright.                (* leaving the [async with] block *)

(** The settings read from the environment and the command line when the
    module is loaded, and what the outside world answers during one run. *)
Record Env : Type := {
  STORE_SLUG : option string;
  SINCE : string;
  UNTIL : string;
  COUNTRY : string;
  AUTO_LOGIN : bool;
  UPLOAD_TO_SHEET : bool;
  SHEET_ID : option string;
  SHEET_MODE : string;
  WEEK_START : Z;
  (** whether [STATE_FILE] exists when the run starts *)
  state_file_exists : bool;
  (** the exception, if any, raised while opening the store page *)
  goto_store_error : option exn;
  (** the exception, if any, raised by the automatic or manual login *)
  login_error : option exn;
  (** the week's acquisition: opening the report, the export dialog, the
      download, saving it and [read_csv]; an exception, or the frame that
      was read *)
  acquire : date -> date -> exc DataFrame;
  (** the date of [datetime.now()] while the week is summarized *)
  clock : date -> date;
  (** the calls to the Sheets service that raise, and what they raise, in
      the upload of the week *)
  sheets_error : date -> api_call -> option exn;
  (** the exception, if any, that a step on the console, the files or the
      browser process raises *)
  local_error : local_step -> option exn
}.

(** A step on the machine: it raises what the machine answers. *)
Definition local (env : Env) (step : local_step) : M unit :=
  raise_if (local_error env step).

(** [build_report_url(store_slug, since_ymd, until_ymd, country)]. *)
Definition build_report_url (store_slug since_ymd until_ymd country : string) : string :=
  "https://admin.shopify.com/store/" ++ store_slug ++ "/marketing/reports/channels" ++
  "?attributionModel=last_click_non_direct" ++
  "&since=" ++ since_ymd ++ "&until=" ++ until_ymd ++
  "&sortColumn=sessions&sortDirection=desc" ++
  "&country=" ++ country.

Definition slug_text (env : Env) : string :=
  match STORE_SLUG env with Some s => s | None => "None" end.

(** What the statement that opens the loop body leaves to do: the body goes
    on, or [continue] moves to the next week. *)
Inductive flow : Type :=
| GoOn
| Continue.

(** The variables that the loop of [run] updates: [all_summary_rows] and
    [overwrite_first]. *)
Record loop_vars : Type := {
  all_summary_rows : list SummaryRow;
  overwrite_first : bool
}.

(** One turn of [for start, end in iter_weeks(...)].  The [try] block holds
    only the expression [...]; the export, the summary and the upload follow
    the [try] statement. *)
Definition week_body (env : Env) (start end_ : date) (v : loop_vars) : M loop_vars :=
  (f <- try_except
          (ret GoOn)                                       (* ... *)
          (fun e => emit (EvWeekFailed start end_ e) ;; ret Continue) ;;
   match f with
   | Continue => ret v
   | GoOn =>
       let since_ymd := ymd start in
       let until_ymd := ymd end_ in
       let report_url := build_report_url (slug_text env) since_ymd until_ymd (COUNTRY env) in
       local env (PrintWeek start) ;;
       emit (EvGoto report_url) ;;
       df <- lift (acquire env start end_) ;;
       emit (EvRawSaved since_ymd until_ymd) ;;
       summary_df <- lift (summarize_channel_csv_to_weekly_row
                             (clock env start) (COUNTRY env) df start end_) ;;
       local env (PrintPreview start) ;;
       local env (SummaryToCsv start) ;;
       emit (EvSummarySaved summary_df) ;;
       local env (PrintSummarySaved start) ;;
       let rows' := (all_summary_rows v ++ [summary_df])%list in
       if UPLOAD_TO_SHEET env then
         let mode := if overwrite_first v then "overwrite" else "append" in
         upload_df_to_sheet summary_df (SHEET_ID env) (sheets_error env start) mode ;;
         emit (EvUploaded mode) ;;
         local env (PrintUploaded start) ;;
         ret {| all_summary_rows := rows'; overwrite_first := false |}
       else
         ret {| all_summary_rows := rows'; overwrite_first := overwrite_first v |}
   end)%M.

(** The [for] loop over the ranges that the generator yields. *)
Fixpoint for_weeks (env : Env) (weeks : list (date * date)) (v : loop_vars) : M loop_vars :=
  match weeks with
  | [] => ret v
  | (start, end_) :: weeks' =>
      (v' <- week_body env start end_ v ;; for_weeks env weeks' v')%M
  end.

(** How the [for] statement ends once the ranges are used up: normally on
    [StopIteration], or with the exception the generator raised. *)
Definition gen_finish (fin : gen_end) : M unit :=
  match fin with
  | Raised e => raise e
  | Stop | Unfinished => ret tt
  end.

(** [run()]. *)
Definition run (env : Env) : M unit :=
  (if falsy (STORE_SLUG env) then raise (ValueError "Missing SHOPIFY_STORE_SLUG in .env")
   else
     since_d <- lift (parse_ymd (SINCE env)) ;;
     until_d <- lift (parse_ymd (UNTIL env)) ;;
     if until_d <? since_d then raise (ValueError "UNTIL must be >= SINCE")
     else
       local env PrintSettings ;;
       let overwrite_first := String.eqb (SHEET_MODE env) "overwrite" in
       local env StartPlaywright ;;
       try_finally                                   (* async with *)
         (local env Launch ;;
          emit EvLaunchBrowser ;;
          local env NewContext ;;
          emit (EvNewContext (state_file_exists env)) ;;
          (if state_file_exists env then local env PrintStateLoaded else ret tt) ;;
          local env NewPage ;;
          try_finally
            (emit (EvGoto ("https://admin.shopify.com/store/" ++ slug_text env)) ;;
             raise_if (goto_store_error env) ;;
             (if negb (state_file_exists env) then
                emit (EvLogin (AUTO_LOGIN env)) ;;
                raise_if (login_error env) ;;
                local env StorageState ;;
                emit EvSaveState ;;
                local env PrintStateSaved
              else ret tt) ;;
             let '(weeks, fin) := iter_weeks since_d until_d (WEEK_START env) in
             v <- for_weeks env weeks
                    {| all_summary_rows := []; overwrite_first := overwrite_first |} ;;
             gen_finish fin ;;
             match all_summary_rows v with
             | [] => ret tt
             | rows =>
                 local env CombinedToCsv ;;
                 emit (EvCombinedSaved rows) ;;
                 local env PrintCombinedSaved
             end)
            (local env CloseContext ;;
             local env CloseBrowser ;;
             emit EvClose))
         (local env StopPlaywright))%M.

(** The world before a run: the tab as it stands, and nothing done yet. *)
Definition initial_world (tab : option grid) : world :=
  {| sheet := tab; log := [] |}.

(** The outcome of a run and the events of the run, oldest first. *)
Definition run_outcome (env : Env) (tab : option grid) : exc unit :=
  fst (run env (initial_world tab)).

Definition run_trace (env : Env) (tab : option grid) : list event :=
  rev (log (snd (run env (initial_world tab)))).

(* ================================================================== *)
(** * Shopify automation helpers *)
(* ================================================================== *)

(** ** The browser page *)

Module Page.

(** The calls that the script makes on a Playwright page, and the prompt it
    shows on the terminal. *)
Inductive call : Type :=
| Goto (url : string) (timeout : Z)
| WaitForLoadState (state : string)
| WaitForTimeout (ms : Z)
| WaitForSelector (selector : string) (timeout : Z)
| Fill (selector value : string) (timeout : option Z)
| Click (selector : string) (timeout : Z)
| Input (prompt : string).

(** How the page answers: whether a call raises, given the calls made
    before it (most recent first). *)
Definition oracle : Type := list call -> call -> option exn.

(** Computations on a page: they add their calls to the history and may
    raise. *)
Definition t (A : Type) : Type := oracle -> list call -> exc A * list call.

Definition ret {A} (a : A) : t A := fun _ h => (Ok a, h).

Definition raise {A} (e : exn) : t A := fun _ h => (Raise e, h).

Definition bind {A B} (m : t A) (k : A -> t B) : t B :=
  fun page h =>
    match m page h with
    | (Ok a, h') => k a page h'
    | (Raise e, h') => (Raise e, h')
    end.

(** One awaited call. *)
Definition perform (c : call) : t unit :=
  fun page h =>
    (match page h c with
     | Some e => Raise e
     | None => Ok tt
     end, c :: h).

(** [try: body / except Exception: pass]. *)
Definition attempt (body : t unit) : t unit :=
  fun page h =>
    match body page h with
    | (_, h') => (Ok tt, h')
    end.

(** [for sel in sels: try: await page.click(sel, timeout=...); break /
    except Exception: pass]; the result tells whether the loop was left by
    [break], so that [false] is the case of the [else] clause. *)
Fixpoint click_first (timeout : Z) (sels : list string) (page : oracle)
    (h : list call) : exc bool * list call :=
  match sels with
  | [] => (Ok false, h)
  | sel :: sels' =>
      match perform (Click sel timeout) page h with
      | (Ok _, h') => (Ok true, h')
      | (Raise _, h') => click_first timeout sels' page h'
      end
  end.

End Page.

Declare Scope page_scope.
Delimit Scope page_scope with page.
Notation "x <- c ;; k" := (Page.bind c (fun x => k))
  (at level 61, c at next level, right associativity) : page_scope.
Notation "c ;; k" := (Page.bind c (fun _ => k))
  (at level 61, right associativity) : page_scope.

Section Automation.

Import Page.

(** [auto_login_shopify(page)]; [typed] is what the user answers to the
    prompt for the 2FA code. *)
Definition auto_login_shopify
    (STORE_SLUG SHOPIFY_EMAIL SHOPIFY_PASSWORD SHOPIFY_OTP : option string)
    (typed : string) : Page.t unit :=
  (if falsy SHOPIFY_EMAIL || falsy SHOPIFY_PASSWORD then
     Page.raise (ValueError "AUTO_LOGIN=1 but SHOPIFY_EMAIL/SHOPIFY_PASSWORD missing in .env")
   else
     let text := fun x : option string => match x with Some s => s | None => "None" end in
     perform (Goto ("https://admin.shopify.com/store/" ++ text STORE_SLUG) 60000) ;;
     perform (WaitForLoadState "domcontentloaded") ;;
     (* Email *)
     attempt
       (perform (Fill "#account_email" (text SHOPIFY_EMAIL) (Some 15000)) ;;
        perform (Click "button[name='commit']" 15000)) ;;
     (* Password *)
     attempt
       (perform (Fill "#account_password" (text SHOPIFY_PASSWORD) (Some 15000)) ;;
        perform (Click "button[name='commit']" 15000)) ;;
     (* 2FA if present *)
     attempt
       (let otp_selector := "input[name='two_factor_code'], input[name='otp']" in
        perform (WaitForSelector otp_selector 8000) ;;
        otp <- (let from_env := strip (match SHOPIFY_OTP with Some s => s | None => "" end) in
                if String.eqb from_env "" then
                  perform (Input "Enter Shopify 2FA code: ") ;;
                  Page.ret (strip typed)
                else Page.ret from_env) ;;
        perform (Fill otp_selector otp None) ;;
        perform (Click "button[name='commit']" 15000)) ;;
     perform (WaitForSelector "nav[aria-label='Primary'], #AppFrameMain" 60000))%page.

(** [click_export_flow(page)]. *)
Definition click_export_flow : Page.t unit :=
  (perform (WaitForLoadState "domcontentloaded") ;;
   perform (WaitForTimeout 2000) ;;
   (* Wait for a stable "report" UI area (fallback: any button) *)
   perform (WaitForSelector "button" 60000) ;;
   (* Try direct Export *)
   direct <- click_first 8000
               ["button:has-text('Export')";
                "button[aria-label='Export']";
                "[role='button']:has-text('Export')"] ;;
   (if direct then Page.ret tt
    else
      (* Try overflow menu then Export *)
      _ <- click_first 8000
             ["button[aria-label='More actions']";
              "button[aria-haspopup='menu']"] ;;
      perform (Click "text=Export" 15000)) ;;
   perform (WaitForTimeout 800) ;;
   (* Choose CSV if present *)
   _ <- click_first 3000
          ["text=CSV";
           "button:has-text('CSV')";
           "[role='menuitem']:has-text('CSV')";
           "label:has-text('CSV')"] ;;
   (* Confirm export in dialog (second Export click) *)
   _ <- click_first 10000
          ["button:has-text('Export')";
           "button[aria-label='Export']";
           "text=Export"] ;;
   Page.ret tt)%page.

End Automation.

(** ** The date range of a run *)

(** [a or b]: [a] when it is a non-empty string, otherwise [b]. *)
Definition or_else (a : option string) (b : string) : string :=
  match a with
  | Some s => if String.eqb s "" then b else s
  | None => b
  end.

(** [get_date_range_from_args_or_env()]: [args_since] and [args_until] are
    the options [--since] and [--until] ([None] when absent), [env_since]
    and [env_until] the variables [SINCE] and [UNTIL], [today] the date of
    [datetime.now()]. *)
Definition get_date_range_from_args_or_env
    (args_since args_until env_since env_until : option string) (today : date)
  : string * string :=
  let since := or_else args_since (or_else env_since "2025-09-01") in
  let until_ := or_else args_until (or_else env_until (ymd today)) in
  (since, until_).

(* ================================================================== *)
(** * Specification predicates *)
(* ================================================================== *)

(** The ranges follow one another without gap or overlap: each range starts
    the day after the previous one ends. *)
Fixpoint contiguous (ranges : list (date * date)) : Prop :=
  match ranges with
  | [] => True
  | (_, e) :: rest =>
      match rest with
      | [] => True
      | (s', _) :: _ => s' = e + 1 /\ contiguous rest
      end
  end.

(** A range holds between one and seven days. *)
Definition week_range (r : date * date) : Prop :=
  fst r <= snd r /\ snd r - fst r <= 6.

(** The ranges cover exactly the days from [lo] to [hi]: the first starts at
    [lo], the last ends at [hi], and they are contiguous. *)
Definition covers (lo hi : date) (ranges : list (date * date)) : Prop :=
  option_map fst (hd_error ranges) = Some lo /\
  option_map snd (hd_error (rev ranges)) = Some hi /\
  contiguous ranges.

(** Every date the loop of [iter_weeks] computes lies between [date.min] and
    [date.max]: the week of [since] does not begin before [date.min], the
    week of [until] does not end after [date.max], and [until] has a next
    day. *)
Definition weeks_representable (since until_ week_start : Z) : Prop :=
  (exists anchor, week_start_for since week_start = Ok anchor) /\
  (exists anchor week_end,
      week_start_for until_ week_start = Ok anchor /\ add_days anchor 6 = Ok week_end) /\
  (exists next, add_days until_ 1 = Ok next).

(** The seven buckets of the specification and the label the script uses for
    each. *)
Inductive Bucket : Type :=
| DirectOrganic
| GoogleAdsPaid
| GoogleOrganic
| AttentiveSMS
| PriveyEmail
| ActiveCampaign
| OtherMisc.

Definition bucket_label (b : Bucket) : string :=
  match b with
  | DirectOrganic => "Direct Website Sales (Organic)"
  | GoogleAdsPaid => "Google ads (Sales)"
  | GoogleOrganic => "Google Search (Organic Sales)"
  | AttentiveSMS => "Attentive SMS (Sales)"
  | PriveyEmail => "Privey Email Marketing (Sales)"
  | ActiveCampaign => "ActiveCampaign (Sales)"
  | OtherMisc => "Other Channel Sales MISC"
  end.

(** The text of a field, an absent or null field being the empty string. *)
Definition field_text (x : pyval) : string :=
  match x with
  | PStr s => s
  | PNone | PNaN => ""
  end.

(** ** Whitespace and letters, said without [strip] and [lower] *)

(** The text made of the characters with the code points [cps]. *)
Definition text_of (cps : list N) : string :=
  fold_right append "" (map utf8 cps).

(** [s] holds whitespace characters only. *)
Definition blank (s : string) : Prop :=
  exists cps, Forall (fun cp => In cp WHITESPACE) cps /\ s = text_of cps.

(** [s] begins where a character begins, as every text does. *)
Definition starts_character (s : string) : bool :=
  match s with
  | String c _ => negb (is_continuation c)
  | EmptyString => true
  end.

(** [s] has a whitespace character at one of its ends. *)
Definition blank_edge (s : string) : Prop :=
  exists cp r, In cp WHITESPACE /\ (s = utf8 cp ++ r \/ s = r ++ utf8 cp).

(** [s] is a text without whitespace at its ends. *)
Definition trimmed (s : string) : Prop :=
  starts_character s = true /\ ~ blank_edge s.

(** [a] is the letter [b], in either case. *)
Definition same_letter (a b : ascii) : Prop :=
  a = b \/ (is_upper a = true /\ code b = (code a + 32)%N).

(** [text] reads [word] once the whitespace around it and the case of its
    letters are set aside. *)
Definition reads (text word : string) : Prop :=
  exists pre core post,
    text = pre ++ core ++ post /\ blank pre /\ blank post /\
    Forall2 same_letter (chars core) (chars word).

Definition is_lower_letter (c : ascii) : bool :=
  let n := code c in ((97 <=? n) && (n <=? 122))%N.

Definition is_letter (c : ascii) : bool := is_upper c || is_lower_letter c.

(** A word of lower-case letters, as the ones the classifier looks for. *)
Definition is_word (w : string) : bool :=
  negb (String.eqb w "") && forallb is_lower_letter (chars w).

(** Three whitespace characters by their bytes: the no-break space U+00A0,
    the ideographic space U+3000 and the tab. *)
Definition NBSP : string := String "194" (String "160" "").
Definition IDEOGRAPHIC_SPACE : string := String "227" (String "128" (String "128" "")).
Definition TAB : string := String "009" "".

(** ** The reference classifier *)

(** The rules of the classifier in their order: the condition of each and
    the bucket it selects. *)
Definition classify_rules (referring_platform channel type : pyval)
  : list (Prop * Bucket) :=
  let says x word := reads (field_text x) word in
  [ (says channel "direct" \/ says referring_platform "direct", DirectOrganic);
    (says channel "google" /\ says type "paid", GoogleAdsPaid);
    (says channel "google" /\ says type "organic", GoogleOrganic);
    (says channel "attentive" \/ says referring_platform "attentive", AttentiveSMS);
    (says channel "privy" \/ says referring_platform "privy", PriveyEmail);
    (says channel "activecampaign" \/ says referring_platform "activecampaign",
     ActiveCampaign) ].

(** [b] is the bucket of the first rule whose condition holds, and
    [OtherMisc] when none does. *)
Fixpoint first_match (rules : list (Prop * Bucket)) (b : Bucket) : Prop :=
  match rules with
  | [] => b = OtherMisc
  | (condition, bucket) :: rest =>
      (condition /\ b = bucket) \/ (~ condition /\ first_match rest b)
  end.

Definition classify_spec (referring_platform channel type : pyval) (b : Bucket) : Prop :=
  first_match (classify_rules referring_platform channel type) b.

(** ** Rounding to decimals *)

(** [k] is the integer nearest to [a * 2^e], and the even one when two
    integers are equally near. *)
Definition nearest_even (a e k : Z) : Prop :=
  let num := a * 2 ^ Z.max e 0 in
  let den := 2 ^ Z.max (- e) 0 in
  2 * Z.abs (num - k * den) <= den /\
  (2 * Z.abs (num - k * den) = den -> Z.even k = true).

(** [y] is [x] rounded to [n] decimals: the float nearest to the decimal
    [k / 10^n] nearest to [x], ties going to the even [k]; an infinity, a
    NaN and a zero are left as they are. *)
Definition rounded_to_decimals (n : Z) (x y : float) : Prop :=
  match Prim2SF x with
  | S754_finite s m e =>
      exists k, nearest_even (Zpos m * 10 ^ n) e k /\ y = float_of_decimal s k (- n)
  | _ => y = x
  end.

(** [l] without the elements at its two ends that satisfy [f]. *)
Definition trim {A} (f : A -> bool) (l : list A) : list A :=
  rev (drop_while f (rev (drop_while f l))).

(** [exc_map f x]: the result of [x] with [f] applied to it. *)
Definition exc_map {A B} (f : A -> B) (x : exc A) : exc B :=
  match x with
  | Ok a => Ok (f a)
  | Raise e => Raise e
  end.

(** The row [r] with its [Upload_Date] replaced by [d]. *)
Definition with_upload_date (d : string) (r : SummaryRow) : SummaryRow :=
  {| Month := Month r;
     Dates_Week := Dates_Week r;
     Direct_Website_Sales := Direct_Website_Sales r;
     Google_ads_Sales := Google_ads_Sales r;
     Google_Search_Sales := Google_Search_Sales r;
     Attentive_SMS_Sales := Attentive_SMS_Sales r;
     Privey_Email_Sales := Privey_Email_Sales r;
     ActiveCampaign_Sales := ActiveCampaign_Sales r;
     Other_Channel_Sales_MISC := Other_Channel_Sales_MISC r;
     Tot_Sales := Tot_Sales r;
     Google_ads_Cost := Google_ads_Cost r;
     Privey_Email_Cost := Privey_Email_Cost r;
     Attentive_SMS_Cost := Attentive_SMS_Cost r;
     Total_Cost := Total_Cost r;
     GPM := GPM r;
     MISC := MISC r;
     Upload_Date := d;
     Range_Start := Range_Start r;
     Range_End := Range_End r;
     Country := Country r |}.

(** The margin of the specification: [(sales - cost) / sales], and 0 when
    the sales are 0. *)
Definition gpm_spec (total_sales total_cost : float) : float :=
  if PrimFloat.eqb total_sales 0%float then 0%float
  else PrimFloat.div (PrimFloat.sub total_sales total_cost) total_sales.

(** ** Observations on the events of a run *)

(** An overwrite of the tab: the [clear] that only the overwrite mode
    performs. *)
Definition is_overwrite_write (ev : event) : bool :=
  match ev with
  | EvSheetClear => true
  | _ => false
  end.

Definition cell_is (label : string) (c : cellv) : bool :=
  match c with
  | VStr s => String.eqb s label
  | VNum _ => false
  end.

Fixpoint row_is (labels : list string) (r : list cellv) : bool :=
  match labels, r with
  | [], [] => true
  | l :: ls, c :: cs => cell_is l c && row_is ls cs
  | _, _ => false
  end.

(** The row is the header row [ordered_cols]. *)
Definition is_header_row (r : list cellv) : bool := row_is ordered_cols r.

(** The event writes the header row to the tab. *)
Definition writes_header (ev : event) : bool :=
  match ev with
  | EvSheetUpdate vals | EvSheetAppend vals => existsb is_header_row vals
  | _ => false
  end.

(** How many times the tab was overwritten, and how many times the header
    row was written to it. *)
Definition overwrites (evs : list event) : nat :=
  List.length (filter is_overwrite_write evs).

Definition headers (evs : list event) : nat :=
  List.length (filter writes_header evs).

(** The modes of the uploads that were carried out, in the order of the
    events. *)
Definition upload_modes (evs : list event) : list string :=
  flat_map (fun ev => match ev with EvUploaded m => [m] | _ => [] end) evs.

(** The report pages opened, one per week whose acquisition was attempted. *)
Definition report_pages (evs : list event) : list string :=
  flat_map (fun ev => match ev with EvGoto url => [url] | _ => [] end) evs.

(** ** Auxiliary notions of the proofs *)

(** The week anchor as a plain integer: [d] moved back to its week start. *)
Definition anchor_of (d ws : Z) : Z := d - (weekday d - ws) mod 7.

Module FloatKey.

(** A key that orders the binary64 values as [<=] does: class of the value,
    then exponent, then mantissa, the last two negated below zero. *)
Definition rank (f : spec_float) : Z * Z * Z :=
  match f with
  | S754_infinity true => (-2, 0, 0)
  | S754_finite true m e => (-1, - e, Zneg m)
  | S754_zero _ => (0, 0, 0)
  | S754_finite false m e => (1, e, Zpos m)
  | S754_infinity false => (2, 0, 0)
  | S754_nan => (3, 0, 0)
  end.

Definition lex_le (a b : Z * Z * Z) : Prop :=
  let '(a1, a2, a3) := a in
  let '(b1, b2, b3) := b in
  a1 < b1 \/ (a1 = b1 /\ (a2 < b2 \/ (a2 = b2 /\ a3 <= b3))).

Definition sf_is_nan (f : spec_float) : bool :=
  match f with
  | S754_nan => true
  | _ => false
  end.

End FloatKey.

(** [x] may stand before [y] in a frame sorted by decreasing [val]. *)
Definition before {A} (val : A -> float) (x y : A) : Prop :=
  desc_le (val x) (val y) = true.

(** The summed sales of the rows of [df_other] whose [_name] is [name]. *)
Definition group_sales (name_of : srow -> string) (df_other : list srow)
    (name : string) : float :=
  nansum (map r_sales (filter (fun r => String.eqb (name_of r) name) df_other)).

(** The tab as an upload in append mode reads it. *)
Definition tab_of (w : world) : grid :=
  match sheet w with
  | Some t => t
  | None => []
  end.

(** Cell A1 of the tab holds a value. *)
Definition a1_filled (w : world) : Prop := a1_empty (tab_of w) = false.

(** ** Sample data *)

(** The frame of the example in the specification: three rows, no
    referring platform, no cost column. *)
Definition example_frame : DataFrame :=
  {| columns := ["Referring Platform"; "Channel"; "Type"; "Sales"];
     rows := [[PNaN; PStr "google"; PStr "paid"; PStr "$100.00"];
              [PNaN; PStr "google"; PStr "organic"; PStr "50"];
              [PNaN; PStr "direct"; PStr ""; PStr "25"]] |}.

(** A row of the OtherMisc frame with the columns [Channel] and [Type]. *)
Definition other_row (channel type : pyval) (sales : float) : srow :=
  {| r_cells := [channel; type]; r_sales := sales; r_cost := 0%float;
     r_bucket := OTHER_MISC |}.

(** Equality of two cells. *)
Definition pyval_eqb (x y : pyval) : bool :=
  match x, y with
  | PNone, PNone | PNaN, PNaN => true
  | PStr a, PStr b => String.eqb a b
  | _, _ => false
  end.

(** The summed sales of the rows whose channel and type are the cells
    [channel] and [type] themselves: the sub-group of the pair
    (channel, type). *)
Definition pair_sales (cols : list string) (ch_col ty_col : string)
    (df_other : list srow) (channel type : pyval) : float :=
  nansum (map r_sales
            (filter (fun r => pyval_eqb (cell cols (r_cells r) ch_col) channel &&
                              pyval_eqb (cell cols (r_cells r) ty_col) type)
                    df_other)).

(** Thirteen sub-groups "c1 (t)" .. "c13 (t)" with sales of 1 to 13. *)
Definition thirteen_groups : list srow :=
  map (fun i => other_row (PStr ("c" ++ str_nat i)) (PStr "t") (float_of_decimal false i 0))
      [1; 2; 3; 4; 5; 6; 7; 8; 9; 10; 11; 12; 13].

(** Twelve sub-groups, one of them with a bar in its name. *)
Definition twelve_groups : list srow :=
  other_row (PStr "a | b") (PStr "t") 20%float :: firstn 11 thirteen_groups.

(** A run over 2025-09-01 .. 2025-09-14, two Monday weeks, with a saved
    session, on a machine where no step fails; [acq] and [sheets] say how
    each week's acquisition and upload turn out. *)
Definition two_week_env (since until_ mode : string) (upload : bool)
    (acq : date -> date -> exc DataFrame)
    (sheets : date -> api_call -> option exn) : Env :=
  {| STORE_SLUG := Some "demo-store";
     SINCE := since;
     UNTIL := until_;
     COUNTRY := "US";
     AUTO_LOGIN := false;
     UPLOAD_TO_SHEET := upload;
     SHEET_ID := Some "sheet-1";
     SHEET_MODE := mode;
     WEEK_START := 0;
     state_file_exists := true;
     goto_store_error := None;
     login_error := None;
     acquire := acq;
     clock := fun _ => 739516;
     sheets_error := sheets;
     local_error := fun _ => None |}.

(** The acquisition of the week of 2025-09-01 times out; the other weeks
    download the example frame. *)
Definition first_week_times_out (start end_ : date) : exc DataFrame :=
  if start =? 739495 then Raise (TimeoutError "Timeout 180000ms exceeded")
  else Ok example_frame.

(** ** Further notions of the proofs *)

(** [d.day]. *)
Definition day_of (d : date) : Z := snd (ymd_of d).

(** [f] holds on the [2^k] integers from [lo] on. *)
Fixpoint range_all (k : nat) (f : Z -> bool) (lo : Z) : bool :=
  match k with
  | O => f lo
  | S k' => range_all k' f lo && range_all k' f (lo + 2 ^ Z.of_nat k')
  end.

(** The calendar fields of the [d]-th day of the first 400 years give back
    [d], and are those of a date. *)
Definition cycle_ok (d : Z) : bool :=
  (146097 <? d) ||
  let '(y, m, dd) := ymd_of d in
  (ordinal_of_ymd y m dd =? d) && (1 <=? y) && (y <=? 400) &&
  ((145731 <? d) || (y <=? 399)) &&
  (1 <=? m) && (m <=? 12) && (1 <=? dd) && (dd <=? days_in_month y m).

(** [strptime] reads back a year written with [%04d]. *)
Definition year_text_ok (y : Z) : bool :=
  (9999 <? y) ||
  let s := zero_pad 4 y in
  (String.length s =? 4)%nat && all_digits s && (digits_value 0 s =? y).

(** [strptime] reads back a month or a day written with [%02d]. *)
Definition field_text_ok (read : string -> option Z) (hi v : Z) : bool :=
  (hi <? v) ||
  let s := zero_pad 2 v in
  all_digits s && match read s with Some x => x =? v | None => false end.

(** What holds of a range that [iter_weeks] yields between [since] and
    [until]: it lies in the interval, holds one to seven days, and each of
    its ends is an end of the interval or a week boundary. *)
Definition clipped_week (since until_ week_start : Z) (r : date * date) : Prop :=
  since <= fst r /\ snd r <= until_ /\ week_range r /\
  (since < fst r -> weekday (fst r) = week_start mod 7) /\
  (snd r < until_ -> weekday (snd r + 1) = week_start mod 7).

(** The frame has a column whose name, trimmed and in lower case, is [key]. *)
Definition has_column (df : DataFrame) (key : string) : bool :=
  existsb (fun c => String.eqb (strip (lower c)) key) (columns df).

(** The columns that [summarize_channel_csv_to_weekly_row] cannot do without. *)
Definition required_columns : list string :=
  ["referring platform"; "channel"; "type"; "sales"].

(** A row that the two filters at the head of the aggregator remove: every
    cell is null, or every cell is a blank string. *)
Definition blank_row (r : list pyval) : bool :=
  forallb isna r || forallb (fun x => String.eqb (strip (py_str x)) "") r.

(** [a] comes strictly before [b] in the order of [sort=True]. *)
Definition key_lt (a b : string) : Prop := String.compare a b = Lt.

(** A summary row as the aggregator returns it for the example frame and
    the week of 2025-09-01. *)
Definition sample_row : SummaryRow :=
  {| Month := "September"; Dates_Week := "9/1-9/7";
     Direct_Website_Sales := 25; Google_ads_Sales := 100;
     Google_Search_Sales := 50; Attentive_SMS_Sales := 0;
     Privey_Email_Sales := 0; ActiveCampaign_Sales := 0;
     Other_Channel_Sales_MISC := 0; Tot_Sales := 175;
     Google_ads_Cost := 0; Privey_Email_Cost := 0; Attentive_SMS_Cost := 0;
     Total_Cost := 0; GPM := 1; MISC := ""; Upload_Date := "2025-09-22";
     Range_Start := "2025-09-01"; Range_End := "2025-09-07";
     Country := "US" |}.

(** The weekly summary files saved, and the combined summaries saved. *)
Definition saved_summaries (evs : list event) : list SummaryRow :=
  flat_map (fun ev => match ev with EvSummarySaved r => [r] | _ => [] end) evs.

Definition combined_summaries (evs : list event) : list (list SummaryRow) :=
  flat_map (fun ev => match ev with EvCombinedSaved rows => [rows] | _ => [] end) evs.

(** The events that the body of the loop can produce. *)
Definition is_week_event (ev : event) : bool :=
  match ev with
  | EvGoto _ | EvRawSaved _ _ | EvSummarySaved _
  | EvAddSheet | EvSheetClear | EvSheetUpdate _ | EvSheetAppend _ | EvUploaded _ => true
  | _ => false
  end.

(** The summary row of a week: the acquisition, then the aggregation. *)
Definition week_row (env : Env) (wk : date * date) : exc SummaryRow :=
  (df <- acquire env (fst wk) (snd wk) ;;
   summarize_channel_csv_to_weekly_row (clock env (fst wk)) (COUNTRY env) df
     (fst wk) (snd wk))%exc.

(** The report page of a week, and the page of the store. *)
Definition report_url (env : Env) (wk : date * date) : string :=
  build_report_url (slug_text env) (ymd (fst wk)) (ymd (snd wk)) (COUNTRY env).

Definition store_url (env : Env) : string :=
  "https://admin.shopify.com/store/" ++ slug_text env.

(** The steps that come before the [try] block of [run]. *)
Definition setup_steps (env : Env) : list local_step :=
  [PrintSettings; StartPlaywright; Launch; NewContext] ++
  (if state_file_exists env then [PrintStateLoaded] else []) ++ [NewPage].

(** The browser, its context and its page are there: the [try] block of
    [run] is entered. *)
Definition setup_succeeds (env : Env) : Prop :=
  forall step, In step (setup_steps env) -> local_error env step = None.

(** The range parses, and the browser, its context and its page open: the
    [try] block of [run] is entered, for the range from [since_d] to
    [until_d]. *)
Definition enters_try_block (env : Env) (since_d until_d : date) : Prop :=
  falsy (STORE_SLUG env) = false /\
  parse_ymd (SINCE env) = Ok since_d /\ parse_ymd (UNTIL env) = Ok until_d /\
  since_d <= until_d /\
  setup_succeeds env.

(** What stops a run before its loop: the store page, the login or the
    saving of the session fails. *)
Definition session_error (env : Env) : option exn :=
  match goto_store_error env with
  | Some e => Some e
  | None =>
      if state_file_exists env then None
      else match login_error env with
           | Some e => Some e
           | None =>
               match local_error env StorageState with
               | Some e => Some e
               | None => local_error env PrintStateSaved
               end
           end
  end.

(** The events of the login, when the [try] block gets that far. *)
Definition login_events (env : Env) : list event :=
  match goto_store_error env with
  | Some _ => []
  | None =>
      if state_file_exists env then []
      else EvLogin (AUTO_LOGIN env) ::
           match login_error env, local_error env StorageState with
           | None, None => [EvSaveState]
           | _, _ => []
           end
  end.

(** The events of a run before its loop, oldest first, once the [try]
    block is entered. *)
Definition session_events (env : Env) : list event :=
  [EvLaunchBrowser; EvNewContext (state_file_exists env); EvGoto (store_url env)] ++
  login_events env.

(** The combined summary written at the end of a run, and what can fail
    while it is written. *)
Definition combined_event (env : Env) (rows : list SummaryRow) : list event :=
  match rows, local_error env CombinedToCsv with
  | _ :: _, None => [EvCombinedSaved rows]
  | _, _ => []
  end.

Definition combined_error (env : Env) (rows : list SummaryRow) : option exn :=
  match rows with
  | [] => None
  | _ =>
      match local_error env CombinedToCsv with
      | Some e => Some e
      | None => local_error env PrintCombinedSaved
      end
  end.

(** The [finally] clause: what it raises, and the event it leaves. *)
Definition close_error (env : Env) : option exn :=
  match local_error env CloseContext with
  | Some e => Some e
  | None => local_error env CloseBrowser
  end.

Definition close_events (env : Env) : list event :=
  match close_error env with
  | None => [EvClose]
  | Some _ => []
  end.

(** How [run] ends once its [try] block has ended with [r]: an exception of
    the [finally] clause replaces [r], and one raised on leaving the
    [async with] block replaces both. *)
Definition finished (env : Env) (r : exc unit) : exc unit :=
  match local_error env StopPlaywright with
  | Some e => Raise e
  | None =>
      match close_error env with
      | Some e => Raise e
      | None => r
      end
  end.

(** No step on the console, the files or the browser process fails. *)
Definition machine_never_fails (env : Env) : Prop :=
  forall step, local_error env step = None.

(** No upload of the run can fail: uploads are switched off, or the
    spreadsheet is configured and the service answers every call. *)
Definition uploads_cannot_fail (env : Env) : Prop :=
  UPLOAD_TO_SHEET env = false \/
  (falsy (SHEET_ID env) = false /\ forall d c, sheets_error env d c = None).

(** The [try] block of [run], for the range from [since_d] to [until_d]. *)
Definition try_block (env : Env) (since_d until_d : date) : M unit :=
  (emit (EvGoto ("https://admin.shopify.com/store/" ++ slug_text env)) ;;
   raise_if (goto_store_error env) ;;
   (if negb (state_file_exists env) then
      emit (EvLogin (AUTO_LOGIN env)) ;;
      raise_if (login_error env) ;;
      local env StorageState ;;
      emit EvSaveState ;;
      local env PrintStateSaved
    else ret tt) ;;
   let '(weeks, fin) := iter_weeks since_d until_d (WEEK_START env) in
   v <- for_weeks env weeks
          {| all_summary_rows := [];
             overwrite_first := String.eqb (SHEET_MODE env) "overwrite" |} ;;
   gen_finish fin ;;
   match all_summary_rows v with
   | [] => ret tt
   | rows =>
       local env CombinedToCsv ;;
       emit (EvCombinedSaved rows) ;;
       local env PrintCombinedSaved
   end)%M.

(** The environment [env] on a machine that answers [errors]. *)
Definition on_machine (env : Env) (errors : local_step -> option exn) : Env :=
  {| STORE_SLUG := STORE_SLUG env;
     SINCE := SINCE env;
     UNTIL := UNTIL env;
     COUNTRY := COUNTRY env;
     AUTO_LOGIN := AUTO_LOGIN env;
     UPLOAD_TO_SHEET := UPLOAD_TO_SHEET env;
     SHEET_ID := SHEET_ID env;
     SHEET_MODE := SHEET_MODE env;
     WEEK_START := WEEK_START env;
     state_file_exists := state_file_exists env;
     goto_store_error := goto_store_error env;
     login_error := login_error env;
     acquire := acquire env;
     clock := clock env;
     sheets_error := sheets_error env;
     local_error := errors |}.

Section PageNotions.

Import Page.

(** The calls of [click_export_flow] that no [try] protects. *)
Definition export_required_calls : list call :=
  [WaitForLoadState "domcontentloaded"; WaitForTimeout 2000;
   WaitForSelector "button" 60000; Click "text=Export" 15000; WaitForTimeout 800].

(** The calls of [auto_login_shopify] that no [try] protects. *)
Definition login_required_calls (STORE_SLUG : option string) : list call :=
  [Goto ("https://admin.shopify.com/store/" ++
         match STORE_SLUG with Some s => s | None => "None" end) 60000;
   WaitForLoadState "domcontentloaded";
   WaitForSelector "nav[aria-label='Primary'], #AppFrameMain" 60000].

(** A page whose answers do not depend on what was done before. *)
Definition static (p : call -> option exn) : oracle := fun _ c => p c.

Definition succeeds (p : call -> option exn) (c : call) : bool :=
  match p c with
  | None => true
  | Some _ => false
  end.

End PageNotions.

(** ** Proof automation *)

Ltac split_compare :=
  repeat match goal with
    | |- context [Z.compare ?a ?b] => destruct (Z.compare_spec a b)
    | |- context [Pos.compare_cont Eq ?a ?b] =>
        change (Pos.compare_cont Eq a b) with (Pos.compare a b);
        destruct (Pos.compare_spec a b)
    end.

#[local] Arguments is_header_row : simpl never.

(** Closes the case of [week_body_step] in which the week fails before the
    tab is touched. *)
Ltac failed_week H :=
  cbn in H; inversion H; subst; left;
  split; [eexists; reflexivity|]; cbn; auto.

(** Evaluates the test [is_header_row] on the header row. *)
Ltac header_written :=
  first
    [ progress change (is_header_row header_row) with true
    | match goal with
      | |- context [is_header_row (VStr ?a :: ?r)] =>
          change (is_header_row (VStr a :: r)) with true
      end ].

(** Names the events added to a log. *)
Ltac log_delta :=
  first [ exists (@nil event); split; [reflexivity|]
        | eexists [_]; split; [reflexivity|]
        | eexists [_; _]; split; [reflexivity|]
        | eexists [_; _; _]; split; [reflexivity|]
        | eexists [_; _; _; _]; split; [reflexivity|] ].

(** Closes a branch of an upload: the events added are on the log. *)
Ltac trace_leaf :=
  let H := fresh in
  intros H; inversion H; subst; cbn [log]; log_delta; repeat constructor.

(* ================================================================== *)
(** * The weekly partitioner *)
(* ================================================================== *)

Lemma anchor_of_div (d ws : Z) :
  anchor_of d ws = 7 * ((d + 6 - ws) / 7) + ws - 6.
Proof.
  unfold anchor_of, weekday.
  rewrite Zminus_mod_idemp_l.
  pose proof (Z.div_mod (d + 6 - ws) 7 ltac:(lia)). lia.
Qed.

Lemma anchor_of_bounds (d ws : Z) :
  anchor_of d ws <= d < anchor_of d ws + 7.
Proof.
  unfold anchor_of.
  pose proof (Z.mod_pos_bound (weekday d - ws) 7 ltac:(lia)). lia.
Qed.

Lemma anchor_of_mono (d d' ws : Z) :
  d <= d' -> anchor_of d ws <= anchor_of d' ws.
Proof.
  intros H. rewrite !anchor_of_div.
  pose proof (Z.div_le_mono (d + 6 - ws) (d' + 6 - ws) 7 ltac:(lia) ltac:(lia)). lia.
Qed.

(** A day that follows a full week end is its own anchor. *)
Lemma anchor_of_next_week (d ws : Z) :
  anchor_of (anchor_of d ws + 7) ws = anchor_of d ws + 7.
Proof.
  rewrite (anchor_of_div (anchor_of d ws + 7)), (anchor_of_div d).
  replace (7 * ((d + 6 - ws) / 7) + ws - 6 + 7 + 6 - ws)
    with (((d + 6 - ws) / 7 + 1) * 7) by lia.
  rewrite Z.div_mul by lia. lia.
Qed.

Lemma add_days_ok (d n : Z) :
  MINORDINAL <= d + n <= MAXORDINAL -> add_days d n = Ok (d + n).
Proof.
  intros H. unfold add_days, valid_dateb.
  destruct (MINORDINAL <=? d + n) eqn:E1; destruct (d + n <=? MAXORDINAL) eqn:E2;
    simpl; try reflexivity; lia.
Qed.

Lemma add_days_inv (d n r : Z) :
  add_days d n = Ok r -> r = d + n /\ MINORDINAL <= r <= MAXORDINAL.
Proof.
  unfold add_days, valid_dateb. intros H.
  destruct (MINORDINAL <=? d + n) eqn:E1; destruct (d + n <=? MAXORDINAL) eqn:E2;
    simpl in H; inversion H; subst; lia.
Qed.

Lemma week_start_for_anchor (d ws a : Z) :
  week_start_for d ws = Ok a -> a = anchor_of d ws /\ MINORDINAL <= a.
Proof.
  unfold week_start_for. intros H. apply add_days_inv in H.
  unfold anchor_of. lia.
Qed.

Lemma week_start_for_ok (d ws : Z) :
  MINORDINAL <= anchor_of d ws -> d <= MAXORDINAL ->
  week_start_for d ws = Ok (anchor_of d ws).
Proof.
  intros H1 H2. unfold week_start_for.
  rewrite add_days_ok; [reflexivity|].
  pose proof (anchor_of_bounds d ws). unfold anchor_of in *. lia.
Qed.

(** The loop never runs out of turns: each turn either ends the generator
    or moves [cur] forward. *)
Lemma iter_weeks_from_finishes (fuel : nat) :
  forall cur until_ ws,
    until_ - cur + 1 <= Z.of_nat fuel ->
    snd (iter_weeks_from fuel cur until_ ws) <> Unfinished.
Proof.
  induction fuel as [|fuel IH]; intros cur until_ ws Hf; simpl.
  - destruct (cur <=? until_) eqn:E; simpl; [lia | discriminate].
  - destruct (cur <=? until_) eqn:E; simpl; [|discriminate].
    destruct (week_start_for cur ws) as [a|e] eqn:Ea; simpl; [|discriminate].
    destruct (add_days a 6) as [we|e] eqn:Ew; simpl; [|discriminate].
    destruct (add_days (Z.min we until_) 1) as [cur'|e] eqn:En; simpl; [|discriminate].
    apply week_start_for_anchor in Ea. apply add_days_inv in Ew, En.
    pose proof (anchor_of_bounds cur ws).
    specialize (IH cur' until_ ws).
    destruct (iter_weeks_from fuel cur' until_ ws) as [rest fin]; simpl in *.
    apply IH. lia.
Qed.

Lemma iter_weeks_finishes (since until_ ws : Z) :
  snd (iter_weeks since until_ ws) <> Unfinished.
Proof.
  unfold iter_weeks. apply iter_weeks_from_finishes. lia.
Qed.

(** The loop from [cur] on, when every date it computes is representable. *)
Lemma iter_weeks_from_covers (fuel : nat) :
  forall cur until_ ws,
    until_ - cur + 1 <= Z.of_nat fuel ->
    cur <= until_ ->
    MINORDINAL <= anchor_of cur ws ->
    anchor_of until_ ws + 6 <= MAXORDINAL ->
    until_ < MAXORDINAL ->
    exists ranges,
      iter_weeks_from fuel cur until_ ws = (ranges, Stop) /\
      covers cur until_ ranges /\
      Forall week_range ranges.
Proof.
  induction fuel as [|fuel IH]; intros cur until_ ws Hf Hle Hlo Hhi Hmax.
  - lia.
  - simpl.
    pose proof (anchor_of_bounds cur ws) as Hb.
    pose proof (anchor_of_mono cur until_ ws Hle) as Hm.
    destruct (cur <=? until_) eqn:E; [|lia].
    rewrite week_start_for_ok by lia.
    rewrite add_days_ok by lia.
    rewrite add_days_ok by lia.
    set (end_ := Z.min (anchor_of cur ws + 6) until_).
    destruct (Z.le_gt_cases until_ (anchor_of cur ws + 6)) as [Hlast|Hmore].
    + (* the last range: the loop ends at the next test *)
      assert (end_ = until_) as -> by (unfold end_; lia).
      destruct fuel as [|fuel']; simpl.
      * destruct (until_ + 1 <=? until_) eqn:E'; [lia|].
        exists [(cur, until_)]. repeat split; simpl; try lia.
        constructor; [unfold week_range; simpl; lia | constructor].
      * destruct (until_ + 1 <=? until_) eqn:E'; [lia|].
        exists [(cur, until_)]. repeat split; simpl; try lia.
        constructor; [unfold week_range; simpl; lia | constructor].
    + (* a full week, then the rest *)
      assert (end_ = anchor_of cur ws + 6) as Hend by (unfold end_; lia).
      rewrite Hend.
      replace (anchor_of cur ws + 6 + 1) with (anchor_of cur ws + 7) by lia.
      destruct (IH (anchor_of cur ws + 7) until_ ws) as (rest & Hrest & Hcov & Hall);
        try lia.
      { rewrite anchor_of_next_week. lia. }
      rewrite Hrest.
      exists ((cur, anchor_of cur ws + 6) :: rest).
      destruct Hcov as (Hhd & Hlst & Hcont).
      split; [reflexivity|]. split.
      * unfold covers. split; [reflexivity|]. split.
        -- simpl. destruct rest as [|r0 rest']; [discriminate|].
           destruct (rev (r0 :: rest')) as [|x l] eqn:Er.
           ++ apply (f_equal (@List.length _)) in Er.
              rewrite length_rev in Er. discriminate.
           ++ simpl in *. exact Hlst.
        -- simpl. destruct rest as [|[s' e'] rest']; [exact I|].
           simpl in Hhd. inversion Hhd. split; [lia | exact Hcont].
      * constructor; [unfold week_range; simpl; lia | exact Hall].
Qed.

(** Two days of the same week have the same anchor. *)
Lemma anchor_of_same_week (d d' ws : Z) :
  anchor_of d ws <= d' < anchor_of d ws + 7 -> anchor_of d' ws = anchor_of d ws.
Proof.
  rewrite !anchor_of_div. intros H.
  pose proof (Z.div_mod (d' + 6 - ws) 7 ltac:(lia)).
  pose proof (Z.mod_pos_bound (d' + 6 - ws) 7 ltac:(lia)).
  lia.
Qed.

(** The condition of representability is also necessary: a generator that
    ends on [StopIteration] has computed the week of [since], the week of
    [until] and the day after [until]. *)
Lemma iter_weeks_from_stop_representable (fuel : nat) :
  forall cur until_ ws,
    until_ - cur + 1 <= Z.of_nat fuel ->
    cur <= until_ ->
    snd (iter_weeks_from fuel cur until_ ws) = Stop ->
    weeks_representable cur until_ ws.
Proof.
  induction fuel as [|fuel IH]; intros cur until_ ws Hf Hle H; [lia|].
  simpl in H.
  destruct (cur <=? until_) eqn:E; [|lia].
  destruct (week_start_for cur ws) as [a|e] eqn:Ea; [|discriminate H].
  destruct (add_days a 6) as [we|e] eqn:Ew; [|discriminate H].
  destruct (add_days (Z.min we until_) 1) as [cur'|e] eqn:En; [|discriminate H].
  pose proof (week_start_for_anchor _ _ _ Ea) as (Ha & Hmin).
  pose proof (add_days_inv _ _ _ Ew) as (Hwe & Hwe').
  pose proof (add_days_inv _ _ _ En) as (Hn & Hn').
  pose proof (anchor_of_bounds cur ws) as Hb.
  split; [exists a; exact Ea|].
  destruct (Z.le_gt_cases until_ we) as [Hlast|Hmore].
  - replace (Z.min we until_) with until_ in * by lia.
    split; [|exists cur'; exact En].
    exists a, we. split; [|exact Ew].
    rewrite week_start_for_ok.
    + f_equal. rewrite Ha. apply anchor_of_same_week. lia.
    + rewrite (anchor_of_same_week cur until_ ws); lia.
    + lia.
  - replace (Z.min we until_) with we in * by lia.
    destruct (iter_weeks_from fuel cur' until_ ws) as [rest fin] eqn:Er.
    simpl in H. subst fin.
    destruct (IH cur' until_ ws) as (_ & Hu & Hnx); try lia.
    { rewrite Er. reflexivity. }
    split; assumption.
Qed.

(** For [since <= until] the generator ends on [StopIteration] exactly when
    every date it computes is representable. *)
Lemma iter_weeks_stops_iff_representable (since until_ week_start : Z) :
  since <= until_ ->
  snd (iter_weeks since until_ week_start) = Stop <->
  weeks_representable since until_ week_start.
Proof.
  intros Hle. unfold iter_weeks. split.
  - apply iter_weeks_from_stop_representable; lia.
  - intros ((a & Ha) & (a' & we & Ha' & Hwe) & (nx & Hnx)).
    apply week_start_for_anchor in Ha, Ha'.
    apply add_days_inv in Hwe, Hnx.
    destruct (iter_weeks_from_covers (Z.to_nat (until_ - since + 1))
                since until_ week_start) as (ranges & -> & _); try lia.
    reflexivity.
Qed.

(** C2, as amended.  For all dates [since <= until] and every week start
    day, provided every date the loop computes is representable (the week
    of [since] begins on or after 0001-01-01, the week of [until] ends on or
    before 9999-12-31, and [until] is not 9999-12-31), [iter_weeks] yields a
    finite sequence of ranges and then stops; the first range starts at
    [since], the last ends at [until], each range starts the day after the
    previous one ends, and every range satisfies [start <= end] and
    [end - start <= 6]. *)
Theorem iter_weeks_partition (since until_ week_start : Z) :
  valid_date since -> valid_date until_ -> since <= until_ ->
  weeks_representable since until_ week_start ->
  exists ranges,
    iter_weeks since until_ week_start = (ranges, Stop) /\
    covers since until_ ranges /\
    Forall week_range ranges.
Proof.
  intros _ _ Hle ((a & Ha) & (a' & we & Ha' & Hwe) & (nx & Hnx)).
  apply week_start_for_anchor in Ha, Ha'.
  apply add_days_inv in Hwe, Hnx.
  unfold iter_weeks.
  apply iter_weeks_from_covers; lia.
Qed.

(** The partition of 2025-09-01 .. 2025-09-21 with weeks starting on
    Monday. *)
Lemma iter_weeks_partition_witness :
  exists ranges,
    iter_weeks 739495 739515 0 = (ranges, Stop) /\
    covers 739495 739515 ranges /\
    Forall week_range ranges.
Proof.
  apply (iter_weeks_partition 739495 739515 0).
  - unfold valid_date, MINORDINAL, MAXORDINAL. lia.
  - unfold valid_date, MINORDINAL, MAXORDINAL. lia.
  - lia.
  - repeat split.
    + exists 739495. reflexivity.
    + exists 739509, 739515. split; reflexivity.
    + exists 739516. reflexivity.
Defined.

(** C2 does not hold for every pair of dates: with [since = until =
    9999-12-31] (a Friday) and weeks starting on Monday, the end of the week
    would be 10000-01-02, so the generator raises [OverflowError] before it
    yields anything. *)
Lemma iter_weeks_overflow_at_date_max :
  valid_date 3652059 /\ 3652059 <= 3652059 /\ 0 <= 0 <= 6 /\
  iter_weeks 3652059 3652059 0 =
    ([], Raised (OverflowError "date value out of range")).
Proof.
  unfold valid_date, MINORDINAL, MAXORDINAL.
  repeat split; try lia.
Qed.

(** The same happens at the other end of the calendar: 0001-01-01 is a
    Monday, and the Tuesday before it does not exist. *)
Example iter_weeks_overflow_at_date_min :
  iter_weeks 1 10 1 = ([], Raised (OverflowError "date value out of range")).
Proof. reflexivity. Qed.

(** When [until] is 9999-12-31 the last range is yielded, and the step to
    the next day raises. *)
Example iter_weeks_overflow_after_last_range :
  iter_weeks 3652053 3652059 5 =
    ([(3652053, 3652059)], Raised (OverflowError "date value out of range")).
Proof. reflexivity. Qed.

(** [partition(d, d, w) == [(d, d)]]. *)
Example iter_weeks_single_day :
  iter_weeks 739497 739497 0 = ([(739497, 739497)], Stop).
Proof. reflexivity. Qed.

(** C10.  On an inverted range, [until < since], [iter_weeks] yields nothing
    and raises nothing, whatever the week start day: the loop test fails at
    once. *)
Theorem iter_weeks_inverted_range (since until_ week_start : Z) :
  until_ < since -> iter_weeks since until_ week_start = ([], Stop).
Proof.
  intros H. unfold iter_weeks.
  replace (Z.to_nat (until_ - since + 1)) with O by lia.
  simpl. destruct (since <=? until_) eqn:E; [lia | reflexivity].
Qed.

Lemma iter_weeks_inverted_range_witness :
  iter_weeks 739504 739495 3 = ([], Stop).
Proof.
  apply (iter_weeks_inverted_range 739504 739495 3). lia.
Defined.

(* ================================================================== *)
(** * The classifier *)
(* ================================================================== *)

(** ** Text, characters and whitespace *)

Lemma append_nil_r (s : string) : s ++ "" = s.
Proof. induction s; simpl; congruence. Qed.

Lemma append_assoc (a b c : string) : (a ++ b) ++ c = a ++ b ++ c.
Proof. induction a; simpl; congruence. Qed.

Lemma concat_fold (l : list string) : String.concat "" l = fold_right append "" l.
Proof.
  induction l as [|x l IH]; [reflexivity|].
  destruct l as [|y l]; simpl in *.
  - symmetry. apply append_nil_r.
  - rewrite IH. reflexivity.
Qed.

Lemma fold_append_app (l l' : list string) :
  fold_right append "" (l ++ l') = fold_right append "" l ++ fold_right append "" l'.
Proof. induction l; simpl; [reflexivity|]. rewrite IHl, append_assoc. reflexivity. Qed.

Lemma characters_cons (c : ascii) (s : string) :
  exists r rest, characters (String c s) = String c r :: rest.
Proof.
  simpl. destruct (characters s) as [|[|d r] rest].
  - eexists _, _; reflexivity.
  - eexists _, _; reflexivity.
  - destruct (is_continuation d); eexists _, _; reflexivity.
Qed.

Lemma characters_text (s : string) : fold_right append "" (characters s) = s.
Proof.
  induction s as [|c s IH]; [reflexivity|].
  simpl. destruct (characters s) as [|[|d r] rest]; simpl in *.
  - congruence.
  - congruence.
  - destruct (is_continuation d); simpl; congruence.
Qed.

Lemma characters_app (a b : string) :
  starts_character b = true -> characters (a ++ b) = (characters a ++ characters b)%list.
Proof.
  intros Hb. induction a as [|c a IH]; [reflexivity|].
  cbn [append characters]. rewrite IH.
  destruct a as [|d a].
  - cbn [characters app]. destruct b as [|d b]; [reflexivity|].
    destruct (characters_cons d b) as (r & rest & ->).
    simpl in Hb. apply negb_true_iff in Hb. rewrite Hb. reflexivity.
  - destruct (characters_cons d a) as (r & rest & ->). cbn [app].
    destruct (is_continuation d); reflexivity.
Qed.


Lemma whitespace_character (cp : N) :
  In cp WHITESPACE ->
  characters (utf8 cp) = [utf8 cp] /\ starts_character (utf8 cp) = true /\
  is_whitespace (utf8 cp) = true /\ utf8 cp <> "" /\
  forallb (fun c => negb (is_letter c)) (chars (utf8 cp)) = true.
Proof.
  intros H. unfold WHITESPACE in H.
  repeat (destruct H as [<-|H]; [vm_compute; repeat split; discriminate|]). destruct H.
Qed.

Lemma is_whitespace_inv (ch : string) :
  is_whitespace ch = true -> exists cp, In cp WHITESPACE /\ ch = utf8 cp.
Proof.
  unfold is_whitespace. intros H. apply existsb_exists in H as (cp & Hin & E).
  apply String.eqb_eq in E. eauto.
Qed.

Lemma blank_nil : blank "".
Proof. exists []. split; [constructor | reflexivity]. Qed.

Lemma blank_app (a b : string) : blank a -> blank b -> blank (a ++ b).
Proof.
  intros (l & Hl & ->) (l' & Hl' & ->). exists (l ++ l')%list. split.
  - apply Forall_app. split; assumption.
  - unfold text_of. rewrite map_app, fold_append_app. reflexivity.
Qed.

Lemma starts_character_app (a b : string) :
  starts_character a = true -> starts_character b = true ->
  starts_character (a ++ b) = true.
Proof. destruct a; simpl; auto. Qed.

Lemma blank_starts (s : string) : blank s -> starts_character s = true.
Proof.
  intros ([|cp l] & Hl & ->); [reflexivity|].
  inversion Hl; subst. destruct (whitespace_character cp H1) as (_ & Hs & _ & Hn & _).
  unfold text_of. cbn [map fold_right].
  destruct (utf8 cp); [contradiction | exact Hs].
Qed.

Lemma blank_characters (s : string) :
  blank s -> forallb is_whitespace (characters s) = true.
Proof.
  intros (l & Hl & ->). induction Hl as [|cp l Hcp Hl IH]; [reflexivity|].
  unfold text_of in *. cbn [map fold_right].
  rewrite characters_app.
  - destruct (whitespace_character cp Hcp) as (-> & _ & Hw & _).
    cbn [app forallb]. rewrite Hw, IH. reflexivity.
  - apply blank_starts. exists l. split; [exact Hl | reflexivity].
Qed.

Lemma characters_blank (l : list string) :
  forallb is_whitespace l = true -> blank (fold_right append "" l).
Proof.
  induction l as [|ch l IH]; intros H; [exact blank_nil|].
  cbn [forallb] in H. apply andb_true_iff in H as (Hc & Hl).
  cbn [fold_right]. apply blank_app; [|exact (IH Hl)].
  apply is_whitespace_inv in Hc as (cp & Hin & ->).
  exists [cp]. split; [constructor; [exact Hin | constructor]|].
  unfold text_of. simpl. symmetry. apply append_nil_r.
Qed.

(** ** Trimming a list at both ends *)

Section Trim.

Context {A : Type} (f : A -> bool).

Lemma drop_while_all (l : list A) : forallb f l = true -> drop_while f l = [].
Proof.
  induction l as [|x l IH]; [reflexivity|]. simpl.
  intros H. apply andb_true_iff in H as (-> & Hl). exact (IH Hl).
Qed.

Lemma drop_while_app_all (a l : list A) :
  forallb f a = true -> drop_while f (a ++ l) = drop_while f l.
Proof.
  induction a as [|x a IH]; [reflexivity|]. simpl.
  intros H. apply andb_true_iff in H as (-> & Ha). exact (IH Ha).
Qed.

Lemma drop_while_nil (l : list A) : drop_while f l = [] -> forallb f l = true.
Proof.
  induction l as [|x l IH]; [reflexivity|]. simpl.
  destruct (f x); [exact IH | discriminate].
Qed.

Lemma drop_while_app_some (l b : list A) :
  drop_while f l <> [] -> drop_while f (l ++ b) = (drop_while f l ++ b)%list.
Proof.
  induction l as [|x l IH]; simpl; [congruence|].
  destruct (f x); [exact IH | reflexivity].
Qed.

Lemma drop_while_split (l : list A) :
  exists a, forallb f a = true /\ l = (a ++ drop_while f l)%list.
Proof.
  induction l as [|x l (a & Ha & IH)]; [exists []; split; reflexivity|].
  simpl. destruct (f x) eqn:E.
  - exists (x :: a). simpl. rewrite E, Ha. split; [reflexivity | congruence].
  - exists []. split; reflexivity.
Qed.

Lemma forallb_rev (l : list A) : forallb f (rev l) = forallb f l.
Proof.
  induction l as [|x l IH]; [reflexivity|]. simpl.
  rewrite forallb_app, IH. simpl. rewrite andb_true_r. apply andb_comm.
Qed.

Lemma trim_surrounded (a l b : list A) :
  forallb f a = true -> forallb f b = true -> trim f (a ++ l ++ b) = trim f l.
Proof.
  intros Ha Hb. unfold trim. rewrite (drop_while_app_all _ _ Ha).
  destruct (drop_while f l) as [|x m] eqn:E.
  - rewrite drop_while_app_all by (apply drop_while_nil; exact E).
    rewrite (drop_while_all _ Hb). reflexivity.
  - rewrite drop_while_app_some by congruence. rewrite E, rev_app_distr.
    rewrite drop_while_app_all by (rewrite forallb_rev; exact Hb). reflexivity.
Qed.

Lemma trim_split (l : list A) :
  exists a b, forallb f a = true /\ forallb f b = true /\ l = (a ++ trim f l ++ b)%list.
Proof.
  destruct (drop_while_split l) as (a & Ha & El).
  destruct (drop_while_split (rev (drop_while f l))) as (b & Hb & Em).
  exists a, (rev b). repeat split; [exact Ha | rewrite forallb_rev; exact Hb |].
  unfold trim. rewrite <- rev_app_distr, <- Em, rev_involutive. exact El.
Qed.

Lemma trim_fixed (l : list A) :
  drop_while f l = l -> drop_while f (rev l) = rev l -> trim f l = l.
Proof. intros H1 H2. unfold trim. rewrite H1, H2. apply rev_involutive. Qed.

End Trim.

Lemma strip_trim (s : string) :
  strip s = fold_right append "" (trim is_whitespace (characters s)).
Proof. unfold strip, trim. apply concat_fold. Qed.

(** The whitespace around a text does not count. *)
Lemma strip_surrounded (pre core post : string) :
  blank pre -> blank post -> starts_character core = true ->
  strip (pre ++ core ++ post) = strip core.
Proof.
  intros Hpre Hpost Hc. rewrite !strip_trim.
  rewrite !characters_app.
  - rewrite trim_surrounded; [reflexivity | |]; apply blank_characters; assumption.
  - apply blank_starts, Hpost.
  - apply starts_character_app; [exact Hc | apply blank_starts, Hpost].
Qed.

(** What [strip] removes is whitespace. *)
Lemma strip_split (s : string) :
  exists pre post, blank pre /\ blank post /\ s = pre ++ strip s ++ post.
Proof.
  destruct (trim_split is_whitespace (characters s)) as (a & b & Ha & Hb & E).
  exists (fold_right append "" a), (fold_right append "" b).
  repeat split; [apply characters_blank, Ha | apply characters_blank, Hb |].
  rewrite strip_trim, <- !fold_append_app, <- E. symmetry. apply characters_text.
Qed.

(** A text without whitespace at its ends is left as it is. *)
Lemma strip_trimmed (s : string) : trimmed s -> strip s = s.
Proof.
  intros (_ & Hedge). rewrite strip_trim, trim_fixed; [apply characters_text | |].
  - destruct (characters s) as [|h l] eqn:E; [reflexivity|]. simpl.
    destruct (is_whitespace h) eqn:Eh; [|reflexivity].
    exfalso. apply Hedge. apply is_whitespace_inv in Eh as (cp & Hin & ->).
    exists cp, (fold_right append "" l). split; [exact Hin|]. left.
    rewrite <- (characters_text s), E. reflexivity.
  - destruct (rev (characters s)) as [|h l] eqn:E; [reflexivity|]. simpl.
    destruct (is_whitespace h) eqn:Eh; [|reflexivity].
    exfalso. apply Hedge. apply is_whitespace_inv in Eh as (cp & Hin & ->).
    exists cp, (fold_right append "" (rev l)). split; [exact Hin|]. right.
    rewrite <- (characters_text s), <- (rev_involutive (characters s)), E.
    cbn [rev]. rewrite fold_append_app. simpl. rewrite append_nil_r. reflexivity.
Qed.

Lemma strip_blank_trimmed (pre core post : string) :
  blank pre -> blank post -> trimmed core -> strip (pre ++ core ++ post) = core.
Proof.
  intros Hpre Hpost Hc. rewrite strip_surrounded by (try assumption; apply Hc).
  apply strip_trimmed, Hc.
Qed.

(** ** Reading a word *)

Lemma chars_app (a b : string) : chars (a ++ b) = (chars a ++ chars b)%list.
Proof. induction a; simpl; congruence. Qed.

Lemma chars_nil (s : string) : chars s = [] -> s = "".
Proof. destruct s; [reflexivity | discriminate]. Qed.

Lemma letter_byte (c : ascii) :
  is_letter c = true -> is_continuation c = false.
Proof. destruct c as [[] [] [] [] [] [] [] []]; vm_compute; congruence. Qed.

Lemma lower_char_same_letter (a : ascii) : same_letter a (lower_char a).
Proof.
  unfold same_letter, lower_char. destruct (is_upper a) eqn:E; [right | left; reflexivity].
  split; [reflexivity|]. unfold code. apply N_ascii_embedding.
  unfold is_upper, code in E. apply andb_true_iff in E as (_ & E).
  apply N.leb_le in E. lia.
Qed.

Lemma same_letter_lower_char (a b : ascii) :
  same_letter a b -> is_lower_letter b = true -> lower_char a = b /\ is_letter a = true.
Proof.
  intros [->|(Hu & Hc)] Hb.
  - unfold lower_char, is_letter. rewrite Hb, orb_true_r. split; [|reflexivity].
    destruct (is_upper b) eqn:E; [|reflexivity].
    unfold is_upper, is_lower_letter in *.
    apply andb_true_iff in E as (_ & E). apply andb_true_iff in Hb as (Hb & _).
    apply N.leb_le in E, Hb. lia.
  - unfold lower_char, is_letter. rewrite Hu. split; [|reflexivity].
    rewrite <- Hc. apply ascii_N_embedding.
Qed.

Lemma lower_same_letter (core : string) :
  Forall2 same_letter (chars core) (chars (lower core)).
Proof.
  induction core as [|a core IH]; simpl; constructor;
    [apply lower_char_same_letter | exact IH].
Qed.

Lemma same_letter_lower (core : string) :
  forall w, Forall2 same_letter (chars core) (chars w) ->
            forallb is_lower_letter (chars w) = true ->
            lower core = w /\ forallb is_letter (chars core) = true.
Proof.
  induction core as [|a core IH]; intros [|b w] H Hw; inversion H; subst.
  - split; reflexivity.
  - simpl in Hw. apply andb_true_iff in Hw as (Hb & Hw).
    destruct (same_letter_lower_char a b H3 Hb) as (E1 & E2).
    destruct (IH w H5 Hw) as (E3 & E4). simpl. rewrite E1, E2, E3, E4.
    split; reflexivity.
Qed.

Lemma letters_trimmed (core : string) :
  forallb is_letter (chars core) = true -> trimmed core.
Proof.
  intros H. split.
  - destruct core as [|c core]; [reflexivity|]. simpl in *.
    apply andb_true_iff in H as (H & _). now rewrite (letter_byte c H).
  - intros (cp & r & Hin & E).
    destruct (whitespace_character cp Hin) as (_ & _ & _ & Hne & Hnl).
    assert (forallb is_letter (chars (utf8 cp)) = true) as Hl.
    { destruct E as [-> | ->]; rewrite chars_app, forallb_app in H;
        apply andb_true_iff in H; tauto. }
    destruct (utf8 cp) as [|c u]; [contradiction|]. simpl in Hl, Hnl.
    apply andb_true_iff in Hl as (Hl & _). apply andb_true_iff in Hnl as (Hnl & _).
    rewrite Hl in Hnl. discriminate Hnl.
Qed.

Lemma is_word_inv (w : string) :
  is_word w = true -> w <> "" /\ forallb is_lower_letter (chars w) = true.
Proof.
  unfold is_word. intros H. apply andb_true_iff in H as (H1 & H2). split; [|exact H2].
  intros ->. discriminate H1.
Qed.

Lemma append_nil_inv (a b : string) : a ++ b = "" -> a = "" /\ b = "".
Proof. destruct a; simpl; [auto | discriminate]. Qed.

(** The comparison that the classifier makes: the lowered, trimmed field
    equals a word exactly when the field reads that word. *)
Lemma safe_lower_reads (x : pyval) (w : string) :
  is_word w = true -> (safe_lower x = w <-> reads (field_text x) w).
Proof.
  intros Hw. apply is_word_inv in Hw as (Hne & Hw). split.
  - intros E. destruct x as [| |s]; simpl in E; try congruence.
    destruct (strip_split s) as (pre & post & Hpre & Hpost & Es).
    exists pre, (strip s), post. repeat split; try assumption.
    rewrite <- E. apply lower_same_letter.
  - intros (pre & core & post & E & Hpre & Hpost & Hl).
    destruct (same_letter_lower core w Hl Hw) as (El & Hc).
    assert (field_text x <> "") as Hx.
    { intros E0. rewrite E0 in E. symmetry in E.
      apply append_nil_inv in E as (_ & E). apply append_nil_inv in E as (-> & _).
      simpl in El. congruence. }
    destruct x as [| |s]; simpl in Hx; try congruence.
    simpl in E. simpl. rewrite E, strip_blank_trimmed; try assumption.
    apply letters_trimmed, Hc.
Qed.

Lemma eqb_reads (x : pyval) (w : string) :
  is_word w = true ->
  if String.eqb (safe_lower x) w then reads (field_text x) w
  else ~ reads (field_text x) w.
Proof.
  intros Hw. destruct (String.eqb _ _) eqn:E.
  - apply String.eqb_eq in E. now apply safe_lower_reads.
  - apply String.eqb_neq in E. intros H. apply E. now apply safe_lower_reads.
Qed.

(** Distinct buckets carry distinct labels, so the label returned by
    [bucket_row] names one bucket. *)
Lemma bucket_label_inj (b b' : Bucket) :
  bucket_label b = bucket_label b' -> b = b'.
Proof. destruct b, b'; simpl; intros H; try reflexivity; discriminate H. Qed.

Ltac decide_rule x w :=
  let H := fresh "H" in
  pose proof (eqb_reads x w eq_refl) as H;
  destruct (String.eqb (safe_lower x) w).

Ltac settle_bucket b :=
  cbn [orb andb]; cbv beta iota;
  split;
  [ intros E; destruct b; try discriminate E; cbn; tauto
  | intros E; cbn in E; intuition (subst; try reflexivity; try congruence) ].

(** C3.  [bucket_row] is defined on every triple of fields and returns the
    label of one bucket: the bucket of the first of the six rules, taken in
    the order Direct, Google with paid, Google with organic, Attentive,
    Privy, ActiveCampaign, whose condition holds, and OtherMisc when none
    holds.  A field meets a word when it reads that word once the
    whitespace around it and the case of its letters are set aside; [None]
    and NaN count as the empty string.  In particular
    ("Direct", "email", "organic") falls in DirectOrganic. *)
Theorem bucket_row_refines_classify_spec :
  (forall rp ch ty b,
      bucket_row rp ch ty = bucket_label b <-> classify_spec rp ch ty b) /\
  (forall rp ch ty,
      exists b, classify_spec rp ch ty b /\
                forall b', classify_spec rp ch ty b' -> b' = b) /\
  (forall x ch ty, isna x = true -> bucket_row x ch ty = bucket_row (PStr "") ch ty) /\
  (forall rp x ty, isna x = true -> bucket_row rp x ty = bucket_row rp (PStr "") ty) /\
  (forall rp ch x, isna x = true -> bucket_row rp ch x = bucket_row rp ch (PStr "")) /\
  bucket_row (PStr "Direct") (PStr "email") (PStr "organic") = bucket_label DirectOrganic /\
  bucket_row PNone (PStr (NBSP ++ "GooGle" ++ TAB)) (PStr (" PAID" ++ IDEOGRAPHIC_SPACE))
    = bucket_label GoogleAdsPaid.
Proof.
  assert (forall rp ch ty b,
      bucket_row rp ch ty = bucket_label b <-> classify_spec rp ch ty b) as Main.
  { intros rp ch ty b. unfold bucket_row, classify_spec, classify_rules, first_match.
    decide_rule ch "direct"; [settle_bucket b|].
    decide_rule rp "direct"; [settle_bucket b|].
    decide_rule ch "google".
    - decide_rule ty "paid"; [settle_bucket b|].
      decide_rule ty "organic"; [settle_bucket b|].
      decide_rule ch "attentive"; [settle_bucket b|].
      decide_rule rp "attentive"; [settle_bucket b|].
      decide_rule ch "privy"; [settle_bucket b|].
      decide_rule rp "privy"; [settle_bucket b|].
      decide_rule ch "activecampaign"; [settle_bucket b|].
      decide_rule rp "activecampaign"; settle_bucket b.
    - decide_rule ch "attentive"; [settle_bucket b|].
      decide_rule rp "attentive"; [settle_bucket b|].
      decide_rule ch "privy"; [settle_bucket b|].
      decide_rule rp "privy"; [settle_bucket b|].
      decide_rule ch "activecampaign"; [settle_bucket b|].
      decide_rule rp "activecampaign"; settle_bucket b. }
  split; [exact Main|]. split; [|split; [|split; [|split; [|split]]]].
  - intros rp ch ty.
    assert (exists b, bucket_row rp ch ty = bucket_label b) as (b & E).
    { unfold bucket_row.
      repeat match goal with
             | |- context [if ?c then _ else _] => destruct c
             end;
        [exists DirectOrganic | exists GoogleAdsPaid | exists GoogleOrganic
        | exists AttentiveSMS | exists PriveyEmail | exists ActiveCampaign
        | exists OtherMisc]; reflexivity. }
    exists b. split; [apply Main, E|].
    intros b' H. apply Main in H. apply bucket_label_inj. congruence.
  - intros [| |s] ch ty H; [reflexivity | reflexivity | discriminate H].
  - intros rp [| |s] ty H; [reflexivity | reflexivity | discriminate H].
  - intros rp ch [| |s] H; [reflexivity | reflexivity | discriminate H].
  - reflexivity.
  - vm_compute. reflexivity.
Qed.

(** Case and surrounding blanks do not matter, and the rule for Direct comes
    before the rule for Google. *)
Example bucket_row_examples :
  bucket_row PNaN (PStr "  GOOGLE ") (PStr "Paid") = bucket_label GoogleAdsPaid /\
  bucket_row (PStr "direct") (PStr "google") (PStr "paid") = bucket_label DirectOrganic /\
  bucket_row PNone PNaN (PStr "") = bucket_label OtherMisc /\
  bucket_row (PStr (NBSP ++ "direct")) PNone PNone = bucket_label DirectOrganic.
Proof. repeat split. Qed.

(* ================================================================== *)
(** * The tolerant parser *)
(* ================================================================== *)

Lemma mem_In (s : string) (l : list string) : mem s l = true <-> In s l.
Proof.
  unfold mem. rewrite existsb_exists. split.
  - intros (x & Hx & E). apply String.eqb_eq in E. subst. exact Hx.
  - intros H. exists s. split; [exact H | apply String.eqb_refl].
Qed.

Lemma to_number_never_raises (x : pyval) : exists v, to_number x = Ok v.
Proof.
  unfold to_number. destruct x as [| |s].
  - eexists; reflexivity.
  - eexists; reflexivity.
  - destruct (mem _ _); [eexists; reflexivity|].
    destruct (py_float _) as [v|e]; simpl; eexists; reflexivity.
Qed.

(** C5.  [to_number] returns a float on every input and never raises.
    [None] gives 0.0; so does every text that is empty, an em dash, a
    hyphen, "nan" or "None" once the whitespace around it is set aside.  Any
    other text loses the whitespace around it and its "$" and ","
    characters and is read by [float()]; when [float()] rejects it the
    result is 0.0.  "$1,234.50" gives 1234.5, with or without whitespace
    around it. *)
Theorem to_number_tolerant :
  (forall x, exists v, to_number x = Ok v) /\
  to_number PNone = Ok 0%float /\
  to_number PNaN = Ok 0%float /\
  (forall pre word post,
      blank pre -> blank post -> In word [""; "—"; "-"; "nan"; "None"] ->
      to_number (PStr (pre ++ word ++ post)) = Ok 0%float) /\
  (forall pre core post,
      blank pre -> blank post -> trimmed core ->
      ~ In core [""; "—"; "-"; "nan"; "None"] ->
      to_number (PStr (pre ++ core ++ post)) =
      match py_float (remove_char "," (remove_char "$" core)) with
      | Ok v => Ok v
      | Raise _ => Ok 0%float
      end) /\
  (forall pre post,
      blank pre -> blank post ->
      to_number (PStr (pre ++ "$1,234.50" ++ post)) = Ok 1234.5%float) /\
  to_number (PStr "$1,234.50") = Ok 1234.5%float /\
  to_number (PStr (NBSP ++ "12.50" ++ TAB)) = Ok 12.5%float /\
  to_number (PStr (IDEOGRAPHIC_SPACE ++ "—" ++ NBSP)) = Ok 0%float /\
  to_number (PStr "12 apples") = Ok 0%float.
Proof.
  split; [exact to_number_never_raises|].
  split; [reflexivity|]. split; [reflexivity|].
  split; [|split; [|split; [|repeat split; vm_compute; reflexivity]]].
  - intros pre word post Hpre Hpost Hw. unfold to_number. cbn [py_str].
    assert (strip (pre ++ word ++ post) = word) as ->.
    { cbn [In] in Hw.
      repeat (destruct Hw as [<-|Hw];
              [rewrite strip_surrounded by (assumption || reflexivity);
               vm_compute; reflexivity|]).
      destruct Hw. }
    apply mem_In in Hw. rewrite Hw. reflexivity.
  - intros pre core post Hpre Hpost Hc Hn. unfold to_number. cbn [py_str].
    rewrite (strip_blank_trimmed pre core post Hpre Hpost Hc).
    destruct (mem core _) eqn:E; [apply mem_In in E; contradiction|].
    unfold exc_try. destruct (py_float _); reflexivity.
  - intros pre post Hpre Hpost. unfold to_number. cbn [py_str].
    rewrite strip_surrounded by (assumption || reflexivity).
    vm_compute. reflexivity.
Qed.

(** The values listed in the specification, and a few that [float()]
    accepts or rejects. *)
Example to_number_examples :
  map to_number [PStr "—"; PStr ""; PStr "nan"; PNone; PStr "$1,234.50"]
    = [Ok 0; Ok 0; Ok 0; Ok 0; Ok 1234.5]%float /\
  map to_number [PStr "  -  "; PStr "None"; PStr "abc"; PStr "12.5.1"; PStr "$"]
    = [Ok 0; Ok 0; Ok 0; Ok 0; Ok 0]%float /\
  map to_number [PStr " 1e3 "; PStr "1_000"; PStr "-7"; PStr "$ 12"; PStr ".5"]
    = [Ok 1000; Ok 1000; Ok (-7); Ok 12; Ok 0.5]%float.
Proof. vm_compute. repeat split. Qed.

(** Texts that [float()] reads as an infinity or as NaN are numbers for
    [to_number] too, unless the text is exactly "nan". *)
Example to_number_special_values :
  map to_number [PStr "inf"; PStr "-Infinity"; PStr "NaN"; PStr "1e999"]
    = [Ok infinity; Ok neg_infinity; Ok nan; Ok infinity].
Proof. vm_compute. reflexivity. Qed.

(* ================================================================== *)
(** * The order of floats *)
(* ================================================================== *)

Module FloatOrder.
Import FloatKey.

Lemma lex_le_total (a b : Z * Z * Z) : lex_le a b \/ lex_le b a.
Proof. destruct a as [[a1 a2] a3], b as [[b1 b2] b3]. unfold lex_le. lia. Qed.

Lemma lex_le_trans (a b c : Z * Z * Z) : lex_le a b -> lex_le b c -> lex_le a c.
Proof.
  destruct a as [[a1 a2] a3], b as [[b1 b2] b3], c as [[c1 c2] c3].
  unfold lex_le. lia.
Qed.

Lemma SFleb_rank (x y : spec_float) :
  SFleb x y = true <->
  sf_is_nan x = false /\ sf_is_nan y = false /\ lex_le (rank x) (rank y).
Proof.
  destruct x as [sx|sx| |sx mx ex], y as [sy|sy| |sy my ey];
    unfold SFleb, SFcompare, rank, lex_le, sf_is_nan;
    try destruct sx; try destruct sy; split_compare; simpl;
    (split; [intros Hle; try discriminate Hle; repeat split; lia
            |intros (Hx & Hy & Hle); try discriminate; try reflexivity; lia]).
Qed.

Lemma SFltb_not_nan (x y : spec_float) :
  SFltb x y = true -> sf_is_nan x = false /\ sf_is_nan y = false.
Proof.
  destruct x, y; unfold SFltb, SFcompare; simpl; intros H;
    try discriminate H; split; reflexivity.
Qed.

Lemma SFeqb_refl (x : spec_float) : SFeqb x x = negb (sf_is_nan x).
Proof.
  destruct x as [s|s| |s m e]; unfold SFeqb, SFcompare; simpl; try reflexivity.
  - destruct s; reflexivity.
  - rewrite Z.compare_refl.
    change (Pos.compare_cont Eq m m) with (Pos.compare m m).
    rewrite Pos.compare_refl. destruct s; reflexivity.
Qed.

Lemma is_nan_spec (a : float) : is_nan a = sf_is_nan (Prim2SF a).
Proof.
  unfold is_nan. rewrite eqb_spec, SFeqb_refl. apply negb_involutive.
Qed.

(** [a <= b] on floats, as a proposition about their keys. *)
Lemma leb_rank (a b : float) :
  PrimFloat.leb a b = true <->
  is_nan a = false /\ is_nan b = false /\
  lex_le (rank (Prim2SF a)) (rank (Prim2SF b)).
Proof. rewrite leb_spec, !is_nan_spec. apply SFleb_rank. Qed.

Lemma is_positive_not_nan (x : float) : is_positive x = true -> is_nan x = false.
Proof.
  unfold is_positive. rewrite ltb_spec, is_nan_spec.
  intros H. apply SFltb_not_nan in H. tauto.
Qed.

Lemma desc_le_total (a b : float) : desc_le a b = false -> desc_le b a = true.
Proof.
  unfold desc_le. intros H.
  apply orb_false_iff in H. destruct H as [Hb H].
  destruct (is_nan a) eqn:Ha; simpl; [reflexivity|].
  rewrite Hb. simpl in *.
  destruct (lex_le_total (rank (Prim2SF a)) (rank (Prim2SF b))) as [L|L].
  - apply leb_rank. auto.
  - assert (PrimFloat.leb b a = true) as E by (apply leb_rank; auto).
    congruence.
Qed.

Lemma desc_le_trans (a b c : float) :
  desc_le a b = true -> desc_le b c = true -> desc_le a c = true.
Proof.
  unfold desc_le. intros Hab Hbc.
  destruct (is_nan c) eqn:Hc; simpl in *; [reflexivity|].
  apply andb_true_iff in Hbc. destruct Hbc as [Hb Hcb].
  apply negb_true_iff in Hb. rewrite Hb in Hab. simpl in Hab.
  apply andb_true_iff in Hab. destruct Hab as [Ha Hba].
  rewrite Ha. simpl.
  apply leb_rank in Hcb, Hba. apply leb_rank.
  destruct Hcb as (_ & _ & L1), Hba as (_ & Ha' & L2).
  repeat split; auto. eapply lex_le_trans; eauto.
Qed.

(** Between two floats that are not NaN, standing before means being
    greater or equal. *)
Lemma desc_le_leb (a b : float) :
  is_nan a = false -> is_nan b = false ->
  desc_le a b = true -> PrimFloat.leb b a = true.
Proof. unfold desc_le. intros -> ->. simpl. auto. Qed.

End FloatOrder.

(* ================================================================== *)
(** * Sorting by decreasing value *)
(* ================================================================== *)

Section SortValues.

Context {A : Type} (val : A -> float).

Lemma insert_desc_In (x y : A) (l : list A) :
  In y (insert_desc val x l) <-> y = x \/ In y l.
Proof.
  induction l as [|z l IH]; simpl.
  - intuition.
  - destruct (desc_le (val x) (val z)); simpl; rewrite ?IH; intuition.
Qed.

Lemma insert_desc_sorted (x : A) (l : list A) :
  StronglySorted (before val) l -> StronglySorted (before val) (insert_desc val x l).
Proof.
  induction 1 as [|z l Hs IH Hz]; simpl.
  - constructor; constructor.
  - destruct (desc_le (val x) (val z)) eqn:E.
    + constructor; [constructor; assumption|].
      constructor; [exact E|].
      rewrite Forall_forall in *. intros u Hu.
      unfold before. eapply FloatOrder.desc_le_trans; [exact E | apply Hz, Hu].
    + constructor; [exact IH|].
      rewrite Forall_forall in *. intros u Hu.
      apply insert_desc_In in Hu. destruct Hu as [->|Hu].
      * apply FloatOrder.desc_le_total, E.
      * apply Hz, Hu.
Qed.

Lemma sort_values_desc_sorted (l : list A) :
  StronglySorted (before val) (sort_values_desc val l).
Proof.
  induction l as [|x l IH]; simpl.
  - constructor.
  - apply insert_desc_sorted, IH.
Qed.

Lemma sort_values_desc_In (y : A) (l : list A) :
  In y (sort_values_desc val l) <-> In y l.
Proof.
  induction l as [|x l IH]; simpl.
  - tauto.
  - rewrite insert_desc_In, IH. intuition.
Qed.

Lemma insert_desc_length (x : A) (l : list A) :
  List.length (insert_desc val x l) = S (List.length l).
Proof.
  induction l as [|z l IH]; simpl; [reflexivity|].
  destruct (desc_le (val x) (val z)); simpl; [reflexivity | rewrite IH; reflexivity].
Qed.

(** Sorting loses no line and adds none. *)
Lemma sort_values_desc_length (l : list A) :
  List.length (sort_values_desc val l) = List.length l.
Proof.
  induction l as [|x l IH]; simpl; [reflexivity|].
  rewrite insert_desc_length, IH. reflexivity.
Qed.

End SortValues.

Section ListFacts.

Context {A : Type}.

Lemma Forall_firstn (P : A -> Prop) (n : nat) (l : list A) :
  Forall P l -> Forall P (firstn n l).
Proof.
  intros H. revert n. induction H as [|x l Hx Hl IH]; intros [|n]; simpl;
    constructor; auto.
Qed.

Lemma Forall_filter (P : A -> Prop) (f : A -> bool) (l : list A) :
  Forall P l -> Forall P (filter f l).
Proof.
  induction 1 as [|x l Hx Hl IH]; simpl; [constructor|].
  destruct (f x); [constructor|]; assumption.
Qed.

Lemma In_firstn (n : nat) (x : A) (l : list A) : In x (firstn n l) -> In x l.
Proof.
  revert l. induction n as [|n IH]; intros [|y l]; simpl; try tauto.
  intros [->|H]; auto.
Qed.

Lemma repeat_app_cons (x : A) (n : nat) (l : list A) :
  (repeat x n ++ x :: l = x :: repeat x n ++ l)%list.
Proof.
  induction n as [|n IH]; simpl; [reflexivity|]. rewrite IH. reflexivity.
Qed.

End ListFacts.

Section SortedSublists.

Context {A : Type} (R : A -> A -> Prop).

Lemma StronglySorted_firstn (n : nat) (l : list A) :
  StronglySorted R l -> StronglySorted R (firstn n l).
Proof.
  intros H. revert n. induction H as [|x l Hs IH Hx]; intros [|n]; simpl;
    try constructor; auto using Forall_firstn.
Qed.

Lemma StronglySorted_filter (f : A -> bool) (l : list A) :
  StronglySorted R l -> StronglySorted R (filter f l).
Proof.
  induction 1 as [|x l Hs IH Hx]; simpl; [constructor|].
  destruct (f x); [constructor|]; auto using Forall_filter.
Qed.

Lemma StronglySorted_weaken (R' : A -> A -> Prop) (P : A -> Prop) (l : list A) :
  (forall a b, P a -> P b -> R a b -> R' a b) ->
  Forall P l -> StronglySorted R l -> StronglySorted R' l.
Proof.
  intros HR HP HS. induction HS as [|x l Hs IH Hx]; [constructor|].
  inversion HP as [|? ? Px Pl]; subst.
  constructor; [auto|].
  rewrite Forall_forall in *. intros u Hu. apply HR; auto.
Qed.

End SortedSublists.

(* ================================================================== *)
(** * The note builder *)
(* ================================================================== *)

Lemma insert_key_In (k n : string) (ks : list string) :
  In k (insert_key n ks) -> k = n \/ In k ks.
Proof.
  induction ks as [|k' ks IH]; simpl.
  - intros [H|[]]; auto.
  - destruct (String.eqb n k'); simpl; [tauto|].
    destruct (String.leb n k'); simpl; [intuition auto|].
    intros [H|H]; [auto | apply IH in H; tauto].
Qed.

(** Every group comes from a row. *)
Lemma group_keys_In (k : string) (ks : list string) :
  In k (group_keys ks) -> In k ks.
Proof.
  unfold group_keys. induction ks as [|n ns IH]; simpl; [tauto|].
  intros H. apply insert_key_In in H. destruct H as [->|H]; auto.
Qed.

Lemma groupby_sum_In {A} (key : A -> string) (val : A -> float) (l : list A)
    (g : string * float) :
  In g (groupby_sum key val l) ->
  snd g = nansum (map val (filter (fun r => String.eqb (key r) (fst g)) l)).
Proof.
  unfold groupby_sum. intros H. apply in_map_iff in H.
  destruct H as (k & <- & _). reflexivity.
Qed.

Lemma misc_parts_In (name_of : srow -> string) (df_other : list srow)
    (g : string * float) :
  In g (misc_parts name_of df_other) ->
  In g (groupby_sum name_of r_sales df_other) /\ is_positive (snd g) = true.
Proof.
  unfold misc_parts, misc_groups. intros H.
  apply filter_In in H. destruct H as [H Hp]. split; [|exact Hp].
  apply In_firstn in H. apply sort_values_desc_In in H. exact H.
Qed.

Lemma misc_parts_sorted (name_of : srow -> string) (df_other : list srow) :
  StronglySorted (fun g h => PrimFloat.leb (snd h) (snd g) = true)
                 (misc_parts name_of df_other).
Proof.
  apply StronglySorted_weaken
    with (R := before snd) (P := fun g => is_positive (snd g) = true).
  - intros a b Pa Pb Hab.
    apply FloatOrder.desc_le_leb; auto using FloatOrder.is_positive_not_nan.
  - apply Forall_forall. intros g Hg. apply misc_parts_In in Hg. tauto.
  - unfold misc_parts, misc_groups.
    apply StronglySorted_filter, StronglySorted_firstn, sort_values_desc_sorted.
Qed.

Lemma build_misc_notes_join (cols : list string) (df_other : list srow)
    (ch_col ty_col : string) :
  build_misc_notes cols df_other ch_col ty_col =
  join " | " (map render_part (misc_parts (misc_name cols ch_col ty_col) df_other)).
Proof. destruct df_other; reflexivity. Qed.

(** C6, as amended.  [MISC.] is the list of its entries joined by " | ".
    There are at most 12 entries; each entry is a sub-group of the OtherMisc
    rows, a sub-group being the rows that share a name "channel (type)"
    made of the trimmed channel and the trimmed type; the summed sales of
    the sub-group of an entry are strictly positive; the entries stand in
    decreasing order of summed sales; and the field is empty when no
    sub-group has positive sales. *)
Theorem build_misc_notes_properties
    (cols : list string) (df_other : list srow) (ch_col ty_col : string) :
  let name_of := misc_name cols ch_col ty_col in
  let parts := misc_parts name_of df_other in
  build_misc_notes cols df_other ch_col ty_col = join " | " (map render_part parts) /\
  (List.length parts <= 12)%nat /\
  Forall (fun g => In (fst g) (map name_of df_other) /\
                   snd g = group_sales name_of df_other (fst g) /\
                   is_positive (snd g) = true) parts /\
  StronglySorted (fun g h => PrimFloat.leb (snd h) (snd g) = true) parts /\
  ((forall name, In name (map name_of df_other) ->
                 is_positive (group_sales name_of df_other name) = false) ->
   build_misc_notes cols df_other ch_col ty_col = "").
Proof.
  intros name_of parts.
  split; [apply build_misc_notes_join|].
  split.
  { unfold parts, misc_parts.
    etransitivity; [apply filter_length_le | apply firstn_le_length]. }
  assert (Forall (fun g => In (fst g) (map name_of df_other) /\
                   snd g = group_sales name_of df_other (fst g) /\
                   is_positive (snd g) = true) parts) as Hparts.
  { apply Forall_forall. intros g Hg. apply misc_parts_In in Hg.
    destruct Hg as [Hg Hp]. split; [|split; [apply groupby_sum_In, Hg | exact Hp]].
    unfold groupby_sum in Hg. apply in_map_iff in Hg.
    destruct Hg as (k & <- & Hk). simpl.
    apply group_keys_In, Hk. }
  split; [exact Hparts|].
  split; [apply misc_parts_sorted|].
  intros Hnone. rewrite build_misc_notes_join. fold name_of. fold parts.
  destruct parts as [|g parts']; [reflexivity|].
  inversion Hparts as [|? ? (Hin & Hsum & Hpos) _]; subst.
  rewrite Hsum, (Hnone _ Hin) in Hpos. discriminate Hpos.
Qed.

(** Rows whose trimmed channel and type agree fall in one sub-group; a
    sub-group without positive sales is left out; equal sales keep the
    order of the names. *)
Example build_misc_notes_example :
  build_misc_notes ["Channel"; "Type"]
    [other_row (PStr "social ") (PStr "paid") 10.5%float;
     other_row (PStr "social") (PStr " paid") 1000%float;
     other_row (PStr "email") (PStr "organic") 1010.5%float;
     other_row (PStr "refunds") PNaN (-5)%float;
     other_row (PStr "none") (PStr "") 0%float;
     other_row (PStr "affiliate") (PStr "paid") 20%float]
    "Channel" "Type"
  = "email (organic) $1,010.50 | social (paid) $1,010.50 | affiliate (paid) $20.00".
Proof. vm_compute. reflexivity. Qed.

(** The sub-groups are not the (channel, type) pairs: two pairs that differ
    in whitespace alone make one entry, listed with the sum of both, here
    5.00 for sales of -5 and of 10.  Nor are the entries the pieces that the
    bars of the field delimit: a name can hold a bar of its own, and twelve
    entries then make thirteen pieces. *)
Lemma build_misc_notes_merges_pairs :
  build_misc_notes ["Channel"; "Type"]
    [other_row (PStr "social ") (PStr "paid") (-5)%float;
     other_row (PStr "social") (PStr "paid") 10%float]
    "Channel" "Type"
  = "social (paid) $5.00" /\
  pair_sales ["Channel"; "Type"] "Channel" "Type"
    [other_row (PStr "social ") (PStr "paid") (-5)%float;
     other_row (PStr "social") (PStr "paid") 10%float]
    (PStr "social ") (PStr "paid") = (-5)%float /\
  pair_sales ["Channel"; "Type"] "Channel" "Type"
    [other_row (PStr "social ") (PStr "paid") (-5)%float;
     other_row (PStr "social") (PStr "paid") 10%float]
    (PStr "social") (PStr "paid") = 10%float /\
  List.length (misc_parts (misc_name ["Channel"; "Type"] "Channel" "Type") twelve_groups)
    = 12%nat /\
  List.length (split_on "|" (build_misc_notes ["Channel"; "Type"] twelve_groups
                               "Channel" "Type"))
    = 13%nat.
Proof. vm_compute. repeat split. Qed.

(** Of thirteen sub-groups with positive sales the twelve best are kept. *)
Example build_misc_notes_keeps_twelve :
  List.length (misc_parts (misc_name ["Channel"; "Type"] "Channel" "Type") thirteen_groups)
    = 12%nat /\
  map fst (misc_parts (misc_name ["Channel"; "Type"] "Channel" "Type") thirteen_groups)
    = ["c13 (t)"; "c12 (t)"; "c11 (t)"; "c10 (t)"; "c9 (t)"; "c8 (t)"; "c7 (t)";
       "c6 (t)"; "c5 (t)"; "c4 (t)"; "c3 (t)"; "c2 (t)"].
Proof. vm_compute. split; reflexivity. Qed.

(** No row, or no row with positive sales, gives an empty note. *)
Example build_misc_notes_empty :
  build_misc_notes ["Channel"; "Type"] [] "Channel" "Type" = "" /\
  build_misc_notes ["Channel"; "Type"]
    [other_row (PStr "refunds") (PStr "x") (-5)%float;
     other_row (PStr "none") (PStr "x") 0%float]
    "Channel" "Type" = "".
Proof. vm_compute. split; reflexivity. Qed.

(* ================================================================== *)
(** * The aggregator *)
(* ================================================================== *)

Lemma apply_to_number_never_raises (xs : list pyval) :
  exists vs, apply_to_number xs = Ok vs.
Proof.
  induction xs as [|x xs (vs & IH)]; simpl.
  - eexists; reflexivity.
  - destruct (to_number_never_raises x) as (v & ->). simpl.
    rewrite IH. simpl. eexists; reflexivity.
Qed.

(** The only failure of [prepare] is a missing required column. *)
Lemma prepare_raises (df : DataFrame) (e : exn) :
  prepare df = Raise e -> e = MissingColumns (columns df).
Proof.
  unfold prepare. intros H.
  destruct (dict_find _ "referring platform"); [|inversion H; reflexivity].
  destruct (dict_find _ "channel"); [|inversion H; reflexivity].
  destruct (dict_find _ "type"); [|inversion H; reflexivity].
  destruct (dict_find _ "sales"); [|inversion H; reflexivity].
  destruct (apply_to_number_never_raises
              (map (fun r => cell (columns df) r s2)
                   (drop_blank (dropna_all (rows df))))) as (vs & E).
  rewrite E in H. simpl in H.
  destruct (dict_find _ "cost").
  - destruct (apply_to_number_never_raises
                (map (fun r => cell (columns df) r s3)
                     (drop_blank (dropna_all (rows df))))) as (cs & E').
    rewrite E' in H. simpl in H. discriminate H.
  - simpl in H. discriminate H.
Qed.

Lemma strptime_ymd_raises (s : string) (e : exn) :
  strptime_ymd s = Raise e -> exists msg, e = ValueError msg.
Proof.
  unfold strptime_ymd. intros H.
  repeat match type of H with
    | context [match ?x with _ => _ end] => destruct x
    end; inversion H; eexists; reflexivity.
Qed.

Lemma format_date_range_raises (a b : string) (e : exn) :
  format_date_range a b = Raise e -> exists msg, e = ValueError msg.
Proof.
  unfold format_date_range. intros H.
  destruct (strptime_ymd a) as [[[y m] d]|e1] eqn:Ea; simpl in H.
  - destruct (strptime_ymd b) as [[[y' m'] d']|e2] eqn:Eb; simpl in H.
    + discriminate H.
    + inversion H; subst. eapply strptime_ymd_raises, Eb.
  - inversion H; subst. eapply strptime_ymd_raises, Ea.
Qed.

(** The guard of the division: [gpm_of] returns the margin of the
    specification and raises nothing. *)
Lemma gpm_of_guarded (tot_sales tot_cost : float) :
  gpm_of tot_sales tot_cost = Ok (gpm_spec tot_sales tot_cost).
Proof.
  unfold gpm_of, gpm_spec, truthy, truediv.
  destruct (PrimFloat.eqb tot_sales 0); reflexivity.
Qed.

Lemma round_half_even_shift_nearest (a e : Z) :
  0 <= a -> nearest_even a e (round_half_even_shift a e).
Proof.
  intros Ha. unfold nearest_even, round_half_even_shift.
  destruct (0 <=? e) eqn:E.
  - apply Z.leb_le in E. rewrite Z.max_l, Z.max_r by lia.
    change (2 ^ 0) with 1. split; [lia|]. intros H. lia.
  - apply Z.leb_gt in E. rewrite Z.max_r, Z.max_l by lia.
    change (2 ^ 0) with 1.
    set (d := 2 ^ (- e)). assert (0 < d) as Hd by (apply Z.pow_pos_nonneg; lia).
    pose proof (Z.div_mod a d ltac:(lia)) as Hdm.
    pose proof (Z.mod_pos_bound a d Hd) as Hr.
    set (q := a / d) in *. set (r := a mod d) in *. clearbody q r d.
    assert (a * 1 - q * d = r) as E0 by lia.
    assert (a * 1 - (q + 1) * d = r - d) as E1 by lia.
    destruct (Z.compare_spec (2 * r) d) as [C|C|C].
    + destruct (Z.even q) eqn:Ev.
      * rewrite E0. split; [lia | intros _; exact Ev].
      * rewrite E1. split; [lia|]. intros _. rewrite Z.even_add, Ev. reflexivity.
    + rewrite E0. split; [lia | intros H; exfalso; lia].
    + rewrite E1. split; [lia | intros H; exfalso; lia].
Qed.

Lemma nearest_even_unique (a e k k' : Z) :
  nearest_even a e k -> nearest_even a e k' -> k = k'.
Proof.
  unfold nearest_even.
  set (num := a * 2 ^ Z.max e 0). set (den := 2 ^ Z.max (- e) 0).
  assert (0 < den) as Hd by (apply Z.pow_pos_nonneg; lia).
  intros (H1 & E1) (H2 & E2).
  assert (k = k' \/ k' = k + 1 \/ k = k' + 1) as [H|[H|H]] by nia; [exact H | |].
  - subst k'. assert (2 * Z.abs (num - k * den) = den) as T1 by nia.
    assert (2 * Z.abs (num - (k + 1) * den) = den) as T2 by nia.
    specialize (E1 T1). specialize (E2 T2). rewrite Z.even_add, E1 in E2. discriminate E2.
  - subst k. assert (2 * Z.abs (num - k' * den) = den) as T1 by nia.
    assert (2 * Z.abs (num - (k' + 1) * den) = den) as T2 by nia.
    specialize (E1 T2). specialize (E2 T1). rewrite Z.even_add, E2 in E1. discriminate E1.
Qed.

(** [round(x, n)] is [x] rounded to [n] decimals. *)
Lemma py_round_rounded (x : float) (n : Z) : rounded_to_decimals n x (py_round x n).
Proof.
  unfold rounded_to_decimals, py_round.
  destruct (Prim2SF x) as [| | |s m e]; try reflexivity.
  eexists. split; [|reflexivity].
  apply round_half_even_shift_nearest. 
  pose proof (Z.pow_nonneg 10 n ltac:(lia)). lia.
Qed.


(** The example of the specification: sales of 100, 50 and 25 in three
    buckets, a total of 175 and, without cost, a margin of 1. *)
Example summarize_example :
  exists row,
    summarize_channel_csv_to_weekly_row 739502 "US" example_frame 739495 739501 = Ok row /\
    Google_ads_Sales row = 100%float /\
    Google_Search_Sales row = 50%float /\
    Direct_Website_Sales row = 25%float /\
    Tot_Sales row = 175%float /\
    Total_Cost row = 0%float /\
    GPM row = 1%float /\
    MISC row = "" /\
    Month row = "September" /\
    Dates_Week row = "9/1-9/7".
Proof. eexists. vm_compute. repeat split. Qed.

(** With no sales at all the margin is 0: the division is not attempted. *)
Example summarize_zero_sales :
  exc_map GPM
    (summarize_channel_csv_to_weekly_row 739502 "US"
       {| columns := ["Referring Platform"; "Channel"; "Type"; "Sales"; "Cost"];
          rows := [[PStr "x"; PStr "google"; PStr "paid"; PStr "0"; PStr "12.50"]] |}
       739495 739501)
  = Ok 0%float.
Proof. vm_compute. reflexivity. Qed.

(** A frame without a [Sales] column is refused. *)
Example summarize_missing_columns :
  summarize_channel_csv_to_weekly_row 739502 "US"
    {| columns := ["Referring Platform"; "Channel"; "Type"];
       rows := [[PStr "x"; PStr "google"; PStr "paid"]] |}
    739495 739501
  = Raise (MissingColumns ["Referring Platform"; "Channel"; "Type"]).
Proof. vm_compute. reflexivity. Qed.

(** C9, as amended.  Two runs of the aggregator on the same frame, week and
    country return rows that agree on every field other than [Upload_Date],
    which holds the day of the run; when both runs happen on the same day
    the two results are identical. *)
Theorem summarize_repeatable_up_to_upload_date
    (today1 today2 : date) (COUNTRY : string) (df : DataFrame) (start end_ : date) :
  summarize_channel_csv_to_weekly_row today1 COUNTRY df start end_ =
    exc_map (with_upload_date (isoformat today1))
            (summarize_channel_csv_to_weekly_row today2 COUNTRY df start end_) /\
  (isoformat today1 = isoformat today2 ->
   summarize_channel_csv_to_weekly_row today1 COUNTRY df start end_ =
   summarize_channel_csv_to_weekly_row today2 COUNTRY df start end_).
Proof.
  unfold summarize_channel_csv_to_weekly_row.
  destruct (prepare df) as [[[rs ch] ty]|e]; simpl; [|split; reflexivity].
  destruct (gpm_of _ _) as [g|e]; simpl; [|split; reflexivity].
  destruct (format_date_range _ _) as [dw|e]; simpl; [|split; reflexivity].
  split; [reflexivity|]. intros ->. reflexivity.
Qed.

(** C9 does not hold as stated: the same frame and week summarized on
    2025-09-08 and on 2025-09-09 give two rows that differ in
    [Upload_Date]. *)
Lemma summarize_differs_across_days :
  exists row1 row2,
    summarize_channel_csv_to_weekly_row 739502 "US" example_frame 739495 739501 = Ok row1 /\
    summarize_channel_csv_to_weekly_row 739503 "US" example_frame 739495 739501 = Ok row2 /\
    Upload_Date row1 = "2025-09-08" /\
    Upload_Date row2 = "2025-09-09" /\
    row1 <> row2.
Proof.
  do 2 eexists. vm_compute.
  split; [reflexivity|]. split; [reflexivity|].
  split; [reflexivity|]. split; [reflexivity|].
  intros H. apply (f_equal Upload_Date) in H. discriminate H.
Qed.

(* ================================================================== *)
(** * The orchestrator *)
(* ================================================================== *)

(** C7, as amended.  When [until < since] it is [run], not the partitioner,
    that fails: with a store configured, [run] raises [ValueError] ("UNTIL
    must be >= SINCE") and leaves the world as it found it: no browser is
    launched, no page is opened, no week is acquired. *)
Theorem run_rejects_inverted_range
    (env : Env) (w : world) (since_d until_d : date) :
  falsy (STORE_SLUG env) = false ->
  parse_ymd (SINCE env) = Ok since_d ->
  parse_ymd (UNTIL env) = Ok until_d ->
  until_d < since_d ->
  run env w = (Raise (ValueError "UNTIL must be >= SINCE"), w).
Proof.
  intros Hslug Hs Hu Hlt. unfold run. rewrite Hslug.
  unfold bind, lift. rewrite Hs, Hu.
  destruct (until_d <? since_d) eqn:E; [reflexivity | lia].
Qed.

Lemma run_rejects_inverted_range_witness :
  run (two_week_env "2025-09-14" "2025-09-01" "append" true
         first_week_times_out (fun _ _ => None))
      (initial_world None)
  = (Raise (ValueError "UNTIL must be >= SINCE"), initial_world None).
Proof.
  apply (run_rejects_inverted_range _ _ 739508 739495).
  - reflexivity.
  - reflexivity.
  - reflexivity.
  - lia.
Defined.

(** C7 does not hold of the partitioner: on the inverted range 2025-09-14 ..
    2025-09-01 [iter_weeks] raises nothing and yields no range. *)
Lemma iter_weeks_accepts_inverted_range :
  739495 < 739508 /\ iter_weeks 739508 739495 0 = ([], Stop).
Proof. split; [lia | reflexivity]. Qed.

(** A missing store is reported first, also before any acquisition. *)
Lemma run_rejects_missing_store (env : Env) (w : world) :
  falsy (STORE_SLUG env) = true ->
  run env w = (Raise (ValueError "Missing SHOPIFY_STORE_SLUG in .env"), w).
Proof. intros H. unfold run. rewrite H. reflexivity. Qed.

(** ** A failing week *)

(** The [try] statement at the head of the loop body protects nothing: an
    exception raised by the acquisition leaves [week_body]. *)
Lemma week_body_propagates (env : Env) (start end_ : date) (v : loop_vars)
    (w : world) (e : exn) :
  local_error env (PrintWeek start) = None ->
  acquire env start end_ = Raise e ->
  fst (week_body env start end_ v w) = Raise e.
Proof.
  intros Hp H.
  unfold week_body, try_except, bind, ret, emit, lift, local, raise_if. simpl.
  rewrite Hp, H. reflexivity.
Qed.

(** The loop stops at the first week that fails: the weeks after it are
    not processed. *)
Lemma for_weeks_stops_at_failure (env : Env) (start end_ : date)
    (rest : list (date * date)) (v : loop_vars) (w : world) (e : exn) :
  local_error env (PrintWeek start) = None ->
  acquire env start end_ = Raise e ->
  for_weeks env ((start, end_) :: rest) v w = 
  (Raise e,
   {| sheet := sheet w;
      log := EvGoto (build_report_url (slug_text env) (ymd start) (ymd end_) (COUNTRY env))
             :: log w |}).
Proof.
  intros Hp H. simpl.
  unfold week_body, try_except, bind, ret, emit, lift, local, raise_if. simpl.
  rewrite Hp, H. reflexivity.
Qed.

(** C1 fails on the code.  In a run over two weeks whose first acquisition
    times out, [run] ends with the timeout: the failure is not recorded by
    the [except] clause, the second week is never opened, and no combined
    summary is written. *)
Theorem run_aborts_on_failed_week :
  let env := two_week_env "2025-09-01" "2025-09-14" "append" false
               first_week_times_out (fun _ _ => None) in
  iter_weeks 739495 739508 0 = ([(739495, 739501); (739502, 739508)], Stop) /\
  acquire env 739502 739508 = Ok example_frame /\
  run_outcome env None = Raise (TimeoutError "Timeout 180000ms exceeded") /\
  run_trace env None =
    [EvLaunchBrowser;
     EvNewContext true;
     EvGoto "https://admin.shopify.com/store/demo-store";
     EvGoto (build_report_url "demo-store" "2025-09-01" "2025-09-07" "US");
     EvClose].
Proof. vm_compute. repeat split. Qed.

(** The same run when both acquisitions succeed: two weeks, two rows, one
    combined summary. *)
Example run_two_good_weeks :
  let env := two_week_env "2025-09-01" "2025-09-14" "append" false
               (fun _ _ => Ok example_frame) (fun _ _ => None) in
  run_outcome env None = Ok tt /\
  exists row1 row2,
    run_trace env None =
      [EvLaunchBrowser;
       EvNewContext true;
       EvGoto "https://admin.shopify.com/store/demo-store";
       EvGoto (build_report_url "demo-store" "2025-09-01" "2025-09-07" "US");
       EvRawSaved "2025-09-01" "2025-09-07";
       EvSummarySaved row1;
       EvGoto (build_report_url "demo-store" "2025-09-08" "2025-09-14" "US");
       EvRawSaved "2025-09-08" "2025-09-14";
       EvSummarySaved row2;
       EvCombinedSaved [row1; row2];
       EvClose] /\
    Dates_Week row1 = "9/1-9/7" /\ Dates_Week row2 = "9/8-9/14".
Proof. vm_compute. split; [reflexivity|]. do 2 eexists. repeat split. Qed.

(** ** Uploads to the spreadsheet *)

Lemma strftime_B_not_header (d : date) : String.eqb (strftime_B d) "Month" = false.
Proof.
  unfold strftime_B, MONTH_NAMES.
  generalize (Z.to_nat (month d - 1)). intros n.
  do 12 (destruct n as [|n]; [reflexivity|]).
  destruct n; reflexivity.
Qed.

Lemma summarize_Month (today : date) (country : string) (df : DataFrame)
    (start end_ : date) (row : SummaryRow) :
  summarize_channel_csv_to_weekly_row today country df start end_ = Ok row ->
  Month row = strftime_B start.
Proof.
  unfold summarize_channel_csv_to_weekly_row. intros H.
  destruct (prepare df) as [[[rs ch] ty]|e]; simpl in H; [|discriminate H].
  destruct (gpm_of _ _) as [g|e]; simpl in H; [|discriminate H].
  destruct (format_date_range _ _) as [dw|e]; simpl in H; [|discriminate H].
  inversion H. reflexivity.
Qed.

(** A data row is never taken for the header: its first cell is the name of
    a month. *)
Lemma summary_row_not_header (today : date) (country : string) (df : DataFrame)
    (start end_ : date) (row : SummaryRow) :
  summarize_channel_csv_to_weekly_row today country df start end_ = Ok row ->
  is_header_row (row_values row) = false.
Proof.
  intros H. apply summarize_Month in H.
  unfold is_header_row, row_values, ordered_cols. simpl.
  rewrite H, strftime_B_not_header. reflexivity.
Qed.

(** Closes the case of [week_body_step] in which the row was uploaded:
    what remains is the print [step]. *)
Ltac uploaded H step :=
  destruct (local_error _ step); cbn in H; inversion H; subst;
  right; right; (split; [exact I || reflexivity|]); cbn.

(** What one turn of the loop does to the tab and to the counts: the week
    fails before its upload is complete, or it succeeds without an upload,
    or its row is uploaded; in that last case the week can still fail, at
    its last print. *)
Lemma week_body_step (env : Env) (start end_ : date) (v : loop_vars)
    (w w' : world) (r : exc loop_vars) :
  week_body env start end_ v w = (r, w') ->
  (* the week failed: at most the overwrite was begun *)
  ((exists e, r = Raise e) /\
   headers (log w') = headers (log w) /\
   upload_modes (log w') = upload_modes (log w) /\
   (overwrites (log w') = overwrites (log w) \/
    (overwrite_first v = true /\ overwrites (log w') = S (overwrites (log w)))))
  \/
  (* the week succeeded and nothing was uploaded *)
  (exists v', r = Ok v' /\ overwrite_first v' = overwrite_first v /\
     sheet w' = sheet w /\
     overwrites (log w') = overwrites (log w) /\
     headers (log w') = headers (log w) /\
     upload_modes (log w') = upload_modes (log w))
  \/
  (* the row of the week was uploaded *)
  (match r with
   | Ok v' => overwrite_first v' = false
   | Raise _ => True
   end /\
   a1_filled w' /\
   if overwrite_first v then
     overwrites (log w') = S (overwrites (log w)) /\
     headers (log w') = S (headers (log w)) /\
     upload_modes (log w') = "overwrite" :: upload_modes (log w)
   else
     overwrites (log w') = overwrites (log w) /\
     headers (log w') =
       (if a1_empty (tab_of w) then S (headers (log w)) else headers (log w)) /\
     upload_modes (log w') = "append" :: upload_modes (log w)).
Proof.
  unfold week_body, try_except, bind, ret, emit, lift, upload_df_to_sheet,
    ensure_tab, local, raise_if, get_sheet, set_sheet, raise, a1_filled, tab_of,
    overwrites, headers.
  cbn [sheet log fst snd].
  intros H.
  destruct (local_error env (PrintWeek start)); [failed_week H|].
  cbn [sheet log fst snd] in H.
  destruct (acquire env start end_) as [df|e1]; [|failed_week H].
  destruct (summarize_channel_csv_to_weekly_row _ _ df start end_) as [row|e2] eqn:Es;
    [|failed_week H].
  pose proof (summary_row_not_header _ _ _ _ _ _ Es) as Hrow.
  cbn [sheet log fst snd] in H.
  destruct (local_error env (PrintPreview start)); [failed_week H|].
  destruct (local_error env (SummaryToCsv start)); [failed_week H|].
  cbn [sheet log fst snd] in H.
  destruct (local_error env (PrintSummarySaved start)); [failed_week H|].
  destruct (UPLOAD_TO_SHEET env).
  2: { inversion H; subst. right. left. eexists. cbn. repeat split. }
  destruct (falsy (SHEET_ID env)); [destruct (overwrite_first v); failed_week H|].
  destruct (sheets_error env start GetService);
    [destruct (overwrite_first v); failed_week H|].
  destruct (sheets_error env start GetMeta);
    [destruct (overwrite_first v); failed_week H|].
  cbn [sheet log fst snd] in H.
  destruct (overwrite_first v) eqn:Eo; cbn in H.
  - (* overwrite *)
    destruct (sheet w) as [t|] eqn:Et; cbn in H.
    + destruct (sheets_error env start ClearAll); [failed_week H|].
      cbn in H.
      destruct (sheets_error env start UpdateAll); cbn in H.
      * inversion H; subst. left. split; [eexists; reflexivity|]. cbn. auto.
      * uploaded H (PrintUploaded start); header_written; cbn; repeat split.
    + destruct (sheets_error env start AddSheet); [failed_week H|].
      cbn in H.
      destruct (sheets_error env start ClearAll); [failed_week H|].
      cbn in H.
      destruct (sheets_error env start UpdateAll); cbn in H.
      * inversion H; subst. left. split; [eexists; reflexivity|]. cbn. auto.
      * uploaded H (PrintUploaded start); header_written; cbn; repeat split.
  - (* append *)
    destruct (sheet w) as [t|] eqn:Et; cbn in H.
    + destruct (sheets_error env start GetA1); [failed_week H|].
      cbn in H. rewrite ?Et in H. cbn in H.
      destruct (a1_empty t) eqn:Ea; cbn in H.
      * destruct (sheets_error env start UpdateNew); [failed_week H|].
        cbn in H. uploaded H (PrintUploaded start);
          header_written; cbn; repeat split;
          destruct t as [|[|c o] t']; reflexivity.
      * destruct (sheets_error env start AppendRows); [failed_week H|].
        cbn in H. uploaded H (PrintUploaded start);
          rewrite Hrow; cbn; repeat split;
          destruct t as [|[|c o] t']; cbn in *; try discriminate Ea; exact Ea.
    + destruct (sheets_error env start AddSheet); [failed_week H|].
      cbn in H.
      destruct (sheets_error env start GetA1); [failed_week H|].
      cbn in H.
      destruct (sheets_error env start UpdateNew); [failed_week H|].
      cbn in H. uploaded H (PrintUploaded start);
        header_written; cbn; repeat split.
Qed.

(** Once a week has been uploaded, every later upload of the run appends
    without the header, and nothing is overwritten. *)
Lemma for_weeks_after_first_upload (env : Env) (weeks : list (date * date)) :
  forall (v : loop_vars) (w w' : world) (r : exc loop_vars),
    overwrite_first v = false ->
    a1_filled w ->
    for_weeks env weeks v w = (r, w') ->
    overwrites (log w') = overwrites (log w) /\
    headers (log w') = headers (log w) /\
    exists n, upload_modes (log w') = (repeat "append" n ++ upload_modes (log w))%list.
Proof.
  induction weeks as [|[start end_] weeks IH]; intros v w w' r Hv Hw H.
  - inversion H; subst. repeat split. exists O. reflexivity.
  - simpl in H. unfold bind in H.
    destruct (week_body env start end_ v w) as [r1 w1] eqn:E.
    apply week_body_step in E. rewrite Hv in E. unfold a1_filled in Hw.
    rewrite Hw in E.
    destruct E as [((e & ->) & Hh & Hm & [Ho | (Habs & _)])
                  | [(v1 & -> & Hv1 & Hs & Ho & Hh & Hm)
                    | (Hv1 & Hw1 & Ho & Hh & Hm)]].
    + inversion H; subst. repeat split; auto. exists O. exact Hm.
    + discriminate Habs.
    + destruct (IH v1 w1 w' r) as (Ho' & Hh' & n & Hm'); auto.
      { unfold a1_filled, tab_of. rewrite Hs. exact Hw. }
      repeat split; try congruence. exists n. congruence.
    + destruct r1 as [v1|e].
      * destruct (IH v1 w1 w' r) as (Ho' & Hh' & n & Hm'); auto.
        repeat split; try congruence. exists (S n).
        rewrite Hm', Hm. apply repeat_app_cons.
      * inversion H; subst. repeat split; auto. exists 1%nat. exact Hm.
Qed.

(** The uploads of a whole loop.  Either nothing is overwritten and every
    upload appends; or the first upload overwrites and the later ones
    append; or the loop ends inside its first upload, after the tab was
    cleared.  The header is written at most once. *)
Lemma for_weeks_uploads (env : Env) (weeks : list (date * date)) :
  forall (v : loop_vars) (w w' : world) (r : exc loop_vars),
    for_weeks env weeks v w = (r, w') ->
    (headers (log w') <= S (headers (log w)))%nat /\
    exists n,
      (overwrites (log w') = overwrites (log w) /\
       upload_modes (log w') = (repeat "append" n ++ upload_modes (log w))%list) \/
      (overwrite_first v = true /\
       overwrites (log w') = S (overwrites (log w)) /\
       upload_modes (log w') =
         (repeat "append" n ++ "overwrite" :: upload_modes (log w))%list) \/
      (overwrite_first v = true /\
       overwrites (log w') = S (overwrites (log w)) /\
       upload_modes (log w') = upload_modes (log w)).
Proof.
  induction weeks as [|[start end_] weeks IH]; intros v w w' r H.
  - inversion H; subst. split; [lia|]. exists O. left. split; reflexivity.
  - simpl in H. unfold bind in H.
    destruct (week_body env start end_ v w) as [r1 w1] eqn:E.
    apply week_body_step in E.
    destruct E as [((e & ->) & Hh & Hm & Ho)
                  | [(v1 & -> & Hv1 & Hs & Ho & Hh & Hm)
                    | (Hv1 & Hw1 & E)]].
    + inversion H; subst. rewrite Hh, Hm. split; [lia|]. exists O.
      destruct Ho as [Ho | (Hv & Ho)].
      * left. split; [exact Ho | reflexivity].
      * right. right. auto.
    + destruct (IH v1 w1 w' r H) as (Hh' & n & Hm').
      rewrite Ho, Hh, Hm, Hv1 in *. split; [exact Hh'|]. exists n. exact Hm'.
    + destruct r1 as [v1|e].
      * destruct (for_weeks_after_first_upload env weeks v1 w1 w' r Hv1 Hw1 H)
          as (Ho' & Hh' & n & Hm').
        destruct (overwrite_first v).
        -- destruct E as (Ho & Hh & Hm).
           split; [lia|]. exists n. right. left.
           split; [reflexivity|]. split; [congruence|].
           rewrite Hm', Hm. reflexivity.
        -- destruct E as (Ho & Hh & Hm).
           split.
           { rewrite Hh', Hh. destruct (a1_empty (tab_of w)); lia. }
           exists (S n). left. split; [congruence|].
           rewrite Hm', Hm. apply repeat_app_cons.
      * inversion H; subst.
        destruct (overwrite_first v).
        -- destruct E as (Ho & Hh & Hm).
           split; [lia|]. exists O. right. left.
           split; [reflexivity|]. split; [exact Ho | exact Hm].
        -- destruct E as (Ho & Hh & Hm).
           split; [rewrite Hh; destruct (a1_empty (tab_of w)); lia|].
           exists 1%nat. left. split; [exact Ho | exact Hm].
Qed.

Lemma overwrites_rev (l : list event) : overwrites (rev l) = overwrites l.
Proof. unfold overwrites. rewrite filter_rev, length_rev. reflexivity. Qed.

Lemma headers_rev (l : list event) : headers (rev l) = headers l.
Proof. unfold headers. rewrite filter_rev, length_rev. reflexivity. Qed.

Lemma upload_modes_rev (l : list event) :
  upload_modes (rev l) = rev (upload_modes l).
Proof.
  unfold upload_modes. induction l as [|ev l IH]; simpl; [reflexivity|].
  rewrite flat_map_app, IH. simpl. rewrite app_nil_r.
  destruct ev; simpl; rewrite ?app_nil_r; reflexivity.
Qed.

Lemma rev_repeat {A} (x : A) (n : nat) : rev (repeat x n) = repeat x n.
Proof.
  induction n as [|n IH]; simpl; [reflexivity|].
  rewrite IH. symmetry. apply repeat_cons.
Qed.

(** ** The parts of a run *)

(** [run] around its [try] block. *)
Lemma run_unfold (env : Env) :
  run env =
  (if falsy (STORE_SLUG env) then raise (ValueError "Missing SHOPIFY_STORE_SLUG in .env")
   else
     since_d <- lift (parse_ymd (SINCE env)) ;;
     until_d <- lift (parse_ymd (UNTIL env)) ;;
     if until_d <? since_d then raise (ValueError "UNTIL must be >= SINCE")
     else
       local env PrintSettings ;;
       local env StartPlaywright ;;
       try_finally
         (local env Launch ;;
          emit EvLaunchBrowser ;;
          local env NewContext ;;
          emit (EvNewContext (state_file_exists env)) ;;
          (if state_file_exists env then local env PrintStateLoaded else ret tt) ;;
          local env NewPage ;;
          try_finally
            (try_block env since_d until_d)
            (local env CloseContext ;;
             local env CloseBrowser ;;
             emit EvClose))
         (local env StopPlaywright))%M.
Proof. reflexivity. Qed.

(** A run ends before its browser is launched, or between the launch and
    the [try] block, or it enters the [try] block and then goes through
    the [finally] clause. *)
Lemma run_parts (env : Env) (tab : option grid) (res : exc unit) (w1 : world) :
  run env (initial_world tab) = (res, w1) ->
  (log w1 = [] /\ (exists e, res = Raise e) /\
   forall s u, ~ enters_try_block env s u)
  \/
  ((log w1 = [EvLaunchBrowser] \/
    log w1 = [EvNewContext (state_file_exists env); EvLaunchBrowser]) /\
   (exists e, res = Raise e) /\
   forall s u, ~ enters_try_block env s u)
  \/
  (exists since_d until_d r wb,
     enters_try_block env since_d until_d /\
     try_block env since_d until_d
       {| sheet := tab;
          log := [EvNewContext (state_file_exists env); EvLaunchBrowser] |} = (r, wb) /\
     res = finished env r /\
     log w1 = (rev (close_events env) ++ log wb)%list).
Proof.
  rewrite run_unfold. unfold initial_world, enters_try_block. intros H.
  destruct (falsy (STORE_SLUG env)) eqn:Eslug.
  { inversion H; subst. left. split; [reflexivity|].
    split; [eexists; reflexivity|]. intros s u (A & _). discriminate A. }
  unfold bind at 1, lift at 1 in H.
  destruct (parse_ymd (SINCE env)) as [since_d|e] eqn:Es.
  2: { inversion H; subst. left. split; [reflexivity|].
       split; [eexists; reflexivity|]. intros s u (_ & A & _). discriminate A. }
  unfold bind at 1, lift at 1 in H.
  destruct (parse_ymd (UNTIL env)) as [until_d|e] eqn:Eu.
  2: { inversion H; subst. left. split; [reflexivity|].
       split; [eexists; reflexivity|]. intros s u (_ & _ & A & _). discriminate A. }
  destruct (until_d <? since_d) eqn:Elt.
  { inversion H; subst. left. split; [reflexivity|].
    split; [eexists; reflexivity|]. intros s u (_ & A & B & C & _).
    inversion A; inversion B; subst. apply Z.ltb_lt in Elt. lia. }
  apply Z.ltb_ge in Elt.
  assert (forall step e, local_error env step = Some e -> In step (setup_steps env) ->
                         forall s u : date,
                           ~ (false = false /\ Ok since_d = Ok s /\ Ok until_d = Ok u /\
                              s <= u /\ setup_succeeds env)) as Hnot.
  { intros step e Hstep Hin s u (_ & _ & _ & _ & Hok).
    rewrite (Hok step Hin) in Hstep. discriminate Hstep. }
  remember (try_block env since_d until_d) as block eqn:Eblock.
  unfold finished, close_events, close_error.
  unfold try_finally, bind, local, raise_if, raise, ret, emit in H.
  cbn [sheet log fst snd] in H.
  destruct (local_error env PrintSettings) eqn:E1.
  { inversion H; subst. left. split; [reflexivity|]. split; [eexists; reflexivity|].
    apply (Hnot _ _ E1). unfold setup_steps. simpl. tauto. }
  destruct (local_error env StartPlaywright) eqn:E2.
  { inversion H; subst. left. split; [reflexivity|]. split; [eexists; reflexivity|].
    apply (Hnot _ _ E2). unfold setup_steps. simpl. tauto. }
  destruct (local_error env Launch) eqn:E3.
  { left. split; [|split].
    - destruct (local_error env StopPlaywright); inversion H; subst; reflexivity.
    - destruct (local_error env StopPlaywright); inversion H; subst; eexists; reflexivity.
    - apply (Hnot _ _ E3). unfold setup_steps. simpl. tauto. }
  cbn [sheet log fst snd] in H.
  destruct (local_error env NewContext) eqn:E4.
  { right. left. split; [|split].
    - destruct (local_error env StopPlaywright); inversion H; subst; left; reflexivity.
    - destruct (local_error env StopPlaywright); inversion H; subst; eexists; reflexivity.
    - apply (Hnot _ _ E4). unfold setup_steps. simpl. tauto. }
  cbn [sheet log fst snd] in H.
  destruct (state_file_exists env) eqn:Est;
    [destruct (local_error env PrintStateLoaded) as [e5|] eqn:E5|].
  { right. left. split; [|split].
    - destruct (local_error env StopPlaywright); inversion H; subst; right; reflexivity.
    - destruct (local_error env StopPlaywright); inversion H; subst; eexists; reflexivity.
    - apply (Hnot _ _ E5). unfold setup_steps. rewrite Est. simpl. tauto. }
  all: destruct (local_error env NewPage) as [e6|] eqn:E6;
    [ right; left; split; [|split];
      [ destruct (local_error env StopPlaywright); inversion H; subst; right; reflexivity
      | destruct (local_error env StopPlaywright); inversion H; subst;
        eexists; reflexivity
      | apply (Hnot _ _ E6); unfold setup_steps; rewrite Est; simpl; tauto ]
    | ].
  all: right; right;
    match goal with
    | Eb0 : ?b = try_block _ _ _, H0 : context [?b ?w] |- _ =>
        destruct (b w) as [r wb] eqn:Eb; rewrite Eb0 in Eb
    end;
    exists since_d, until_d, r, wb;
    (split;
     [ repeat (split; [assumption || reflexivity|]);
       intros step Hin; unfold setup_steps in Hin; rewrite Est in Hin; simpl in Hin;
       repeat (destruct Hin as [<-|Hin]; [assumption|]); contradiction |]);
    (split; [exact Eb|]);
    cbn [sheet log fst snd] in H;
    destruct (local_error env CloseContext) as [e7|];
    [ destruct (local_error env StopPlaywright); inversion H; subst; split; reflexivity |];
    cbn [sheet log fst snd] in H;
    destruct (local_error env CloseBrowser) as [e8|];
    [ destruct (local_error env StopPlaywright); inversion H; subst; split; reflexivity |];
    cbn [sheet log fst snd] in H;
    destruct (local_error env StopPlaywright); inversion H; subst; split; reflexivity.
Qed.

(** A run whose browser, context and page open enters its [try] block. *)
Lemma run_enters_try_block (env : Env) (tab : option grid) (since_d until_d : date) :
  enters_try_block env since_d until_d ->
  exists r wb,
    try_block env since_d until_d
      {| sheet := tab;
         log := [EvNewContext (state_file_exists env); EvLaunchBrowser] |} = (r, wb) /\
    run_outcome env tab = finished env r /\
    run_trace env tab = (rev (log wb) ++ close_events env)%list.
Proof.
  intros Hin. unfold run_outcome, run_trace.
  destruct (run env (initial_world tab)) as [res w1] eqn:H. cbn [fst snd].
  apply run_parts in H
    as [(_ & _ & Hn) | [(_ & _ & Hn) | (s & u & r & wb & Hin' & Hb & -> & ->)]];
    [elim (Hn _ _ Hin) .. |].
  destruct Hin as (_ & Es & Eu & _). destruct Hin' as (_ & Es' & Eu' & _).
  rewrite Es in Es'. rewrite Eu in Eu'. inversion Es'; inversion Eu'; subst s u.
  exists r, wb. split; [exact Hb|]. split; [reflexivity|].
  rewrite rev_app_distr, rev_involutive. reflexivity.
Qed.

(** The [try] block of [run]: it stops before the loop when the session
    cannot be opened, and otherwise ends as its loop does, the combined
    summary being written after a loop that ended normally. *)
Lemma try_block_parts (env : Env) (since_d until_d : date) (w wb : world) (r : exc unit) :
  try_block env since_d until_d w = (r, wb) ->
  let w0 := {| sheet := sheet w;
               log := (rev (EvGoto (store_url env) :: login_events env) ++ log w)%list |} in
  match session_error env with
  | Some e => r = Raise e /\ sheet wb = sheet w0 /\ log wb = log w0
  | None =>
      exists rl wl,
        for_weeks env (fst (iter_weeks since_d until_d (WEEK_START env)))
          {| all_summary_rows := [];
             overwrite_first := String.eqb (SHEET_MODE env) "overwrite" |} w0 = (rl, wl) /\
        sheet wb = sheet wl /\
        match rl with
        | Raise e => r = Raise e /\ log wb = log wl
        | Ok v' =>
            match snd (iter_weeks since_d until_d (WEEK_START env)) with
            | Raised e => r = Raise e /\ log wb = log wl
            | _ =>
                r = match combined_error env (all_summary_rows v') with
                    | Some e => Raise e
                    | None => Ok tt
                    end /\
                log wb = (rev (combined_event env (all_summary_rows v')) ++ log wl)%list
            end
        end
  end.
Proof.
  unfold try_block, session_error, login_events, store_url, combined_error, combined_event.
  unfold bind at 1 2, emit at 1, raise_if at 1, raise at 1, ret at 1.
  cbn [sheet log]. intros H.
  destruct (goto_store_error env) as [e|].
  { inversion H; subst. repeat split. }
  assert (forall rl wl,
            (let '(weeks, fin) := iter_weeks since_d until_d (WEEK_START env) in
             (v <- for_weeks env weeks
                     {| all_summary_rows := [];
                        overwrite_first := String.eqb (SHEET_MODE env) "overwrite" |} ;;
              gen_finish fin ;;
              match all_summary_rows v with
              | [] => ret tt
              | rows =>
                  local env CombinedToCsv ;;
                  emit (EvCombinedSaved rows) ;;
                  local env PrintCombinedSaved
              end)%M) wl = (r, wb) ->
            for_weeks env (fst (iter_weeks since_d until_d (WEEK_START env)))
              {| all_summary_rows := [];
                 overwrite_first := String.eqb (SHEET_MODE env) "overwrite" |} wl = rl ->
            sheet wb = sheet (snd rl) /\
            match fst rl with
            | Raise e => r = Raise e /\ log wb = log (snd rl)
            | Ok v' =>
                match snd (iter_weeks since_d until_d (WEEK_START env)) with
                | Raised e => r = Raise e /\ log wb = log (snd rl)
                | _ =>
                    r = match
                          match all_summary_rows v' with
                          | [] => None
                          | _ :: _ =>
                              match local_error env CombinedToCsv with
                              | Some e => Some e
                              | None => local_error env PrintCombinedSaved
                              end
                          end
                        with
                        | Some e => Raise e
                        | None => Ok tt
                        end /\
                    log wb =
                      (rev match all_summary_rows v', local_error env CombinedToCsv with
                           | _ :: _, None => [EvCombinedSaved (all_summary_rows v')]
                           | _, _ => []
                           end ++ log (snd rl))%list
                end
            end) as Hloop.
  { intros rl wl Hb <-.
    destruct (iter_weeks since_d until_d (WEEK_START env)) as [weeks fin].
    cbn [fst snd]. unfold bind at 1 in Hb.
    destruct (for_weeks env weeks _ wl) as [[v'|e] wl'].
    2: { inversion Hb; subst. repeat split. }
    cbn [fst snd].
    unfold bind, gen_finish, local, raise_if, raise, ret, emit in Hb.
    destruct fin as [|e|]; [|inversion Hb; subst; repeat split|].
    - destruct (all_summary_rows v') as [|row rows].
      { inversion Hb; subst. repeat split. }
      destruct (local_error env CombinedToCsv).
      { inversion Hb; subst. repeat split. }
      cbn [sheet log] in Hb.
      destruct (local_error env PrintCombinedSaved); inversion Hb; subst; repeat split.
    - destruct (all_summary_rows v') as [|row rows].
      { inversion Hb; subst. repeat split. }
      destruct (local_error env CombinedToCsv).
      { inversion Hb; subst. repeat split. }
      cbn [sheet log] in Hb.
      destruct (local_error env PrintCombinedSaved); inversion Hb; subst; repeat split. }
  destruct (state_file_exists env); cbn [negb] in H.
  - unfold bind at 1, ret at 1 in H.
    match type of H with
    | ?body ?wl = _ =>
        destruct (for_weeks env (fst (iter_weeks since_d until_d (WEEK_START env)))
                    {| all_summary_rows := [];
                       overwrite_first := String.eqb (SHEET_MODE env) "overwrite" |} wl)
          as [rl wl'] eqn:Ef;
        exists rl, wl'; split; [exact Ef|];
        exact (Hloop _ _ H Ef)
    end.
  - unfold bind at 1 2 3 4 5, emit at 1 2, local at 1 2, raise_if at 1 2 3, raise at 1 2 3,
      ret at 1 2 3 in H.
    cbn [sheet log] in H.
    destruct (login_error env) as [e|].
    { inversion H; subst. repeat split. }
    destruct (local_error env StorageState) as [e|].
    { inversion H; subst. repeat split. }
    cbn [sheet log] in H.
    destruct (local_error env PrintStateSaved) as [e|].
    { inversion H; subst. repeat split. }
    match type of H with
    | ?body ?wl = _ =>
        destruct (for_weeks env (fst (iter_weeks since_d until_d (WEEK_START env)))
                    {| all_summary_rows := [];
                       overwrite_first := String.eqb (SHEET_MODE env) "overwrite" |} wl)
          as [rl wl'] eqn:Ef;
        exists rl, wl'; split; [exact Ef|];
        exact (Hloop _ _ H Ef)
    end.
Qed.

(** ** The uploads of a run *)

Lemma counts_app (l l' : list event) :
  overwrites (l ++ l') = (overwrites l + overwrites l')%nat /\
  headers (l ++ l') = (headers l + headers l')%nat /\
  upload_modes (l ++ l') = (upload_modes l ++ upload_modes l')%list.
Proof.
  unfold overwrites, headers, upload_modes.
  rewrite !filter_app, !length_app, flat_map_app. repeat split.
Qed.

(** The events of [run] around the loop touch neither the tab nor the
    counts: the log of a run is the log of its loop, between a few events
    of the browser and of the files. *)
Lemma run_log (env : Env) (tab : option grid) (w1 : world) (res : exc unit) :
  run env (initial_world tab) = (res, w1) ->
  (overwrites (log w1) = 0%nat /\ headers (log w1) = 0%nat /\
   upload_modes (log w1) = [])
  \/
  exists since_d until_d v w w' r,
    for_weeks env (fst (iter_weeks since_d until_d (WEEK_START env))) v w = (r, w') /\
    overwrite_first v = String.eqb (SHEET_MODE env) "overwrite" /\
    overwrites (log w) = 0%nat /\ headers (log w) = 0%nat /\ upload_modes (log w) = [] /\
    overwrites (log w1) = overwrites (log w') /\
    headers (log w1) = headers (log w') /\
    upload_modes (log w1) = upload_modes (log w').
Proof.
  intros H.
  assert (overwrites (rev (close_events env)) = 0%nat /\
          headers (rev (close_events env)) = 0%nat /\
          upload_modes (rev (close_events env)) = []) as (Hc1 & Hc2 & Hc3).
  { unfold close_events. destruct (close_error env); repeat split. }
  assert (forall l,
            overwrites (rev (EvGoto (store_url env) :: login_events env) ++ l)
              = overwrites l /\
            headers (rev (EvGoto (store_url env) :: login_events env) ++ l)
              = headers l /\
            upload_modes (rev (EvGoto (store_url env) :: login_events env) ++ l)
              = upload_modes l) as Hs.
  { intros l. unfold login_events.
    destruct (goto_store_error env), (state_file_exists env), (login_error env),
      (local_error env StorageState); repeat split. }
  apply run_parts in H
    as [(-> & _) | [([-> | ->] & _) | (s & u & r & wb & _ & Hb & _ & Hlog)]];
    [left; repeat split .. |].
  destruct (counts_app (rev (close_events env)) (log wb)) as (A1 & A2 & A3).
  rewrite Hlog, A1, A2, A3, Hc1, Hc2, Hc3. cbn [Nat.add app].
  apply try_block_parts in Hb. cbv zeta in Hb. cbn [sheet log] in Hb.
  destruct (session_error env) as [e|].
  - destruct Hb as (_ & _ & ->). left.
    destruct (Hs [EvNewContext (state_file_exists env); EvLaunchBrowser]) as (-> & -> & ->).
    repeat split.
  - destruct Hb as (rl & wl & Hfor & _ & Hr).
    right.
    match type of Hfor with
    | for_weeks _ _ ?v ?w = _ => exists s, u, v, w, wl, rl
    end.
    split; [exact Hfor|]. split; [reflexivity|]. cbn [log].
    destruct (Hs [EvNewContext (state_file_exists env); EvLaunchBrowser]) as (-> & -> & ->).
    split; [reflexivity|]. split; [reflexivity|]. split; [reflexivity|].
    assert (forall rows,
              overwrites (rev (combined_event env rows) ++ log wl) = overwrites (log wl) /\
              headers (rev (combined_event env rows) ++ log wl) = headers (log wl) /\
              upload_modes (rev (combined_event env rows) ++ log wl)
                = upload_modes (log wl)) as Hcomb.
    { intros rows. unfold combined_event.
      destruct rows, (local_error env CombinedToCsv); repeat split. }
    destruct rl as [v'|e]; [|destruct Hr as (_ & ->); repeat split].
    destruct (snd (iter_weeks s u (WEEK_START env)));
      destruct Hr as (_ & ->); try (repeat split; fail); apply Hcomb.
Qed.

(** C8.  In any run, with the upload to the spreadsheet enabled or not, the
    tab is overwritten at most once and the header row is written to it at
    most once.  The uploads carried out are either all in append mode, and
    then nothing is overwritten; or, when the configured mode is
    "overwrite", one upload in overwrite mode followed by uploads in append
    mode, the overwrite being the first upload of the run; or none at all,
    when the run ends inside that first overwrite. *)
Theorem run_overwrites_at_most_once (env : Env) (tab : option grid) :
  let trace := run_trace env tab in
  (overwrites trace <= 1)%nat /\
  (headers trace <= 1)%nat /\
  exists n,
    (overwrites trace = 0%nat /\ upload_modes trace = repeat "append" n) \/
    (SHEET_MODE env = "overwrite" /\ overwrites trace = 1%nat /\
     upload_modes trace = "overwrite" :: repeat "append" n) \/
    (SHEET_MODE env = "overwrite" /\ overwrites trace = 1%nat /\
     upload_modes trace = []).
Proof.
  unfold run_trace. cbv zeta.
  rewrite overwrites_rev, headers_rev, upload_modes_rev.
  destruct (run env (initial_world tab)) as [res w1] eqn:Er. cbn [snd].
  destruct (run_log env _ _ _ Er)
    as [(Ho & Hh & Hm) | (s & u & v & w & w' & r & E & Hv & Ho & Hh & Hm & Ho' & Hh' & Hm')].
  - rewrite Ho, Hh, Hm. repeat split; try lia. exists O. left. split; reflexivity.
  - rewrite Ho', Hh', Hm'.
    apply for_weeks_uploads in E.
    destruct E as (Eh & n & E). rewrite Hh in Eh. rewrite Ho, Hm, Hv in E.
    assert (forall m : string, String.eqb m "overwrite" = true -> m = "overwrite")
      as Heq by (intros m; apply String.eqb_eq).
    destruct E as [(E1 & E2) | [(E0 & E1 & E2) | (E0 & E1 & E2)]].
    + rewrite E1. repeat split; try lia. exists n. left. split; [reflexivity|].
      rewrite E2, app_nil_r. apply rev_repeat.
    + rewrite E1. repeat split; try lia. exists n. right. left.
      split; [auto|]. split; [reflexivity|].
      rewrite E2, rev_app_distr. simpl. rewrite rev_repeat. reflexivity.
    + rewrite E1. repeat split; try lia. exists n. right. right.
      split; [auto|]. split; [reflexivity|]. rewrite E2. reflexivity.
Qed.

(** An upload in append mode writes the header exactly when cell A1 of the
    tab is empty. *)
Lemma upload_append_header_iff_a1_empty
    (df : SummaryRow) (spreadsheet_id : option string) (mode : string) (w : world) :
  String.eqb mode "overwrite" = false ->
  falsy spreadsheet_id = false ->
  is_header_row (row_values df) = false ->
  let w' := snd (upload_df_to_sheet df spreadsheet_id (fun _ => None) mode w) in
  headers (log w') =
    (if a1_empty (tab_of w) then S (headers (log w)) else headers (log w)) /\
  overwrites (log w') = overwrites (log w) /\
  a1_filled w'.
Proof.
  intros Hm Hid Hrow.
  unfold upload_df_to_sheet, ensure_tab, raise_if, get_sheet, set_sheet, bind,
    ret, emit, raise, a1_filled, tab_of, headers, overwrites.
  rewrite Hid, Hm.
  destruct (sheet w) as [t|] eqn:Et; cbn; rewrite ?Et; cbn.
  - destruct (a1_empty t) eqn:Ea; cbn.
    + header_written. cbn. repeat split.
      destruct t as [|[|c o] t']; reflexivity.
    + rewrite Hrow. cbn. repeat split.
      destruct t as [|[|c o] t']; cbn in *; try discriminate Ea. exact Ea.
  - header_written. cbn. repeat split.
Qed.

(** A run in overwrite mode over two good weeks, on a tab that held old
    data: one overwrite with the header, then one append. *)
Example run_overwrite_then_append :
  let env := two_week_env "2025-09-01" "2025-09-14" "overwrite" true
               (fun _ _ => Ok example_frame) (fun _ _ => None) in
  let old_tab := Some [[VStr "Month"; VStr "stale"]; [VStr "August"; VStr "x"]] in
  run_outcome env old_tab = Ok tt /\
  upload_modes (run_trace env old_tab) = ["overwrite"; "append"] /\
  overwrites (run_trace env old_tab) = 1%nat /\
  headers (run_trace env old_tab) = 1%nat /\
  option_map (map (fun r => (hd (VStr "") r, nth 17 r (VStr ""))))
             (sheet (snd (run env (initial_world old_tab))))
    = Some [(VStr "Month", VStr "Range_Start");
            (VStr "September", VStr "2025-09-01");
            (VStr "September", VStr "2025-09-08")].
Proof. vm_compute. repeat split. Qed.

(** The same run in append mode on an empty tab writes the header with the
    first week; on a tab that already has one it writes none. *)
Example run_append_on_empty_and_filled_tab :
  let env := two_week_env "2025-09-01" "2025-09-14" "append" true
               (fun _ _ => Ok example_frame) (fun _ _ => None) in
  upload_modes (run_trace env None) = ["append"; "append"] /\
  headers (run_trace env None) = 1%nat /\
  headers (run_trace env (Some [header_row])) = 0%nat /\
  overwrites (run_trace env None) = 0%nat.
Proof. vm_compute. repeat split. Qed.

(** An upload that fails ends the run, like any other failure of a week:
    here the credentials are missing. *)
Example run_aborts_on_failed_upload :
  let env := two_week_env "2025-09-01" "2025-09-14" "overwrite" true
               (fun _ _ => Ok example_frame)
               (fun _ c => match c with
                           | GetService => Some (FileNotFoundError "Missing credentials.json")
                           | _ => None
                           end) in
  run_outcome env None = Raise (FileNotFoundError "Missing credentials.json") /\
  upload_modes (run_trace env None) = [] /\
  report_pages (run_trace env None) =
    ["https://admin.shopify.com/store/demo-store";
     build_report_url "demo-store" "2025-09-01" "2025-09-07" "US"].
Proof. vm_compute. repeat split. Qed.

(** When the service fails between the [clear] and the [update] of the
    overwrite, the run ends with the tab cleared: one overwrite, no header,
    no upload completed. *)
Example run_aborts_inside_overwrite :
  let env := two_week_env "2025-09-01" "2025-09-14" "overwrite" true
               (fun _ _ => Ok example_frame)
               (fun _ c => match c with
                           | UpdateAll => Some (HttpError "503")
                           | _ => None
                           end) in
  run_outcome env (Some [header_row]) = Raise (HttpError "503") /\
  overwrites (run_trace env (Some [header_row])) = 1%nat /\
  headers (run_trace env (Some [header_row])) = 0%nat /\
  upload_modes (run_trace env (Some [header_row])) = [] /\
  sheet (snd (run env (initial_world (Some [header_row])))) = Some [].
Proof. vm_compute. repeat split. Qed.

(* ================================================================== *)
(** * Dates as text, there and back *)
(* ================================================================== *)

Lemma range_all_spec (k : nat) (f : Z -> bool) :
  forall lo, range_all k f lo = true ->
  forall d, lo <= d < lo + 2 ^ Z.of_nat k -> f d = true.
Proof.
  induction k as [|k IH]; intros lo H d Hd.
  - simpl in *. replace d with lo by lia. exact H.
  - cbn [range_all] in H. apply andb_true_iff in H as (H1 & H2).
    rewrite Nat2Z.inj_succ, Z.pow_succ_r in Hd by lia.
    destruct (Z.lt_ge_cases d (lo + 2 ^ Z.of_nat k)).
    + apply (IH lo H1). lia.
    + apply (IH _ H2). lia.
Qed.

Lemma cycle_checked : range_all 18 cycle_ok 1 = true.
Proof. vm_cast_no_check (eq_refl true). Qed.

Lemma year_text_checked : range_all 14 year_text_ok 1 = true.
Proof. vm_compute. reflexivity. Qed.

Lemma month_text_checked : range_all 4 (field_text_ok (field_upto 12) 12) 1 = true.
Proof. vm_compute. reflexivity. Qed.

Lemma day_text_checked : range_all 5 (field_text_ok day_field 31) 1 = true.
Proof. vm_compute. reflexivity. Qed.

Lemma is_leap_period (y q : Z) : is_leap (y + q * 400) = is_leap y.
Proof.
  unfold is_leap.
  replace ((y + q * 400) mod 4) with (y mod 4)
    by (replace (q * 400) with (q * 100 * 4) by lia; now rewrite Z_mod_plus_full).
  replace ((y + q * 400) mod 100) with (y mod 100)
    by (replace (q * 400) with (q * 4 * 100) by lia; now rewrite Z_mod_plus_full).
  now rewrite Z_mod_plus_full.
Qed.

Lemma days_in_month_period (y q m : Z) :
  days_in_month (y + q * 400) m = days_in_month y m.
Proof. unfold days_in_month. now rewrite is_leap_period. Qed.

Lemma days_before_year_period (y q : Z) :
  days_before_year (y + q * 400) = days_before_year y + q * 146097.
Proof. unfold days_before_year. Z.div_mod_to_equations. lia. Qed.

Lemma days_before_month_period (y q m : Z) :
  days_before_month (y + q * 400) m = days_before_month y m.
Proof.
  unfold days_before_month. f_equal. apply map_ext.
  intros a. apply days_in_month_period.
Qed.

Lemma ordinal_of_ymd_period (y q m d : Z) :
  ordinal_of_ymd (y + q * 400) m d = ordinal_of_ymd y m d + q * 146097.
Proof.
  unfold ordinal_of_ymd.
  rewrite days_before_year_period, days_before_month_period. lia.
Qed.

Lemma month_day_from_period (fuel : nat) (y q : Z) :
  forall m n, month_day_from fuel (y + q * 400) m n = month_day_from fuel y m n.
Proof.
  induction fuel as [|fuel IH]; intros m n; simpl; [reflexivity|].
  rewrite days_in_month_period, IH. reflexivity.
Qed.

(** The calendar repeats every 400 years, that is every 146097 days. *)
Lemma ymd_of_period (d : date) :
  ymd_of d =
  let '(y, m, dd) := ymd_of ((d - 1) mod 146097 + 1) in
  (y + (d - 1) / 146097 * 400, m, dd).
Proof.
  unfold ymd_of. cbv zeta.
  replace ((d - 1) mod 146097 + 1 - 1) with ((d - 1) mod 146097) by lia.
  rewrite Z.mod_mod by lia.
  rewrite (Z.div_small ((d - 1) mod 146097) 146097)
    by (apply Z.mod_pos_bound; lia).
  set (n1 := (d - 1) mod 146097).
  set (c := Z.min 3 (n1 / 36524)).
  set (n2 := n1 - c * 36524).
  set (a := Z.min 3 (n2 mod 1461 / 365)).
  set (y := 0 * 400 + c * 100 + n2 / 1461 * 4 + a + 1).
  replace ((d - 1) / 146097 * 400 + c * 100 + n2 / 1461 * 4 + a + 1)
    with (y + (d - 1) / 146097 * 400) by (unfold y; lia).
  rewrite month_day_from_period.
  destruct (month_day_from 11 y 1 _) as [m dd]. reflexivity.
Qed.

(** The calendar fields of a date are those of a date, and give back its
    ordinal. *)
Lemma ymd_of_spec (d : date) :
  valid_date d ->
  exists y m dd,
    ymd_of d = (y, m, dd) /\ ordinal_of_ymd y m dd = d /\
    1 <= y <= 9999 /\ 1 <= m <= 12 /\ 1 <= dd <= days_in_month y m.
Proof.
  unfold valid_date, MINORDINAL, MAXORDINAL. intros Hd.
  rewrite ymd_of_period.
  pose proof (Z.mod_pos_bound (d - 1) 146097 ltac:(lia)) as Hm.
  pose proof (Z.div_mod (d - 1) 146097 ltac:(lia)) as Hdm.
  set (q := (d - 1) / 146097) in *.
  set (d' := (d - 1) mod 146097 + 1) in *.
  assert (0 <= q <= 24) as Hq by (unfold q; Z.div_mod_to_equations; lia).
  pose proof (range_all_spec 18 cycle_ok 1 cycle_checked d' ltac:(simpl; lia)) as Hc.
  unfold cycle_ok in Hc.
  destruct (146097 <? d') eqn:E; [lia|]. simpl in Hc.
  destruct (ymd_of d') as [[y m] dd].
  repeat (apply andb_true_iff in Hc as (Hc & ?)).
  exists (y + q * 400), m, dd. split; [reflexivity|].
  rewrite ordinal_of_ymd_period, days_in_month_period.
  repeat match goal with
    | H : (_ <=? _) = true |- _ => apply Z.leb_le in H
    | H : (_ =? _) = true |- _ => apply Z.eqb_eq in H
    end.
  apply Z.ltb_ge in E.
  assert (d = d' + q * 146097) as Hd' by (unfold d'; lia).
  clearbody q d'.
  match goal with
  | H : _ || _ = true |- _ =>
      apply orb_true_iff in H as [H|H];
      [apply Z.ltb_lt in H | apply Z.leb_le in H]
  end; lia.
Qed.

Lemma is_digit_not_dash (c : ascii) : is_digit c = true -> Ascii.eqb c "-" = false.
Proof.
  destruct c as [[] [] [] [] [] [] [] []]; intros H; try reflexivity; discriminate H.
Qed.

Lemma split_on_digits (a rest : string) :
  all_digits a = true ->
  split_on "-" (a ++ "-" ++ rest) = a :: split_on "-" rest.
Proof.
  induction a as [|c a IH]; intros H.
  - reflexivity.
  - simpl in H. apply andb_true_iff in H as (Hc & Ha).
    change (String c a ++ "-" ++ rest) with (String c (a ++ "-" ++ rest)).
    cbn [split_on]. rewrite (is_digit_not_dash c Hc), (IH Ha). reflexivity.
Qed.

Lemma split_on_digits_end (a : string) :
  all_digits a = true -> split_on "-" a = [a].
Proof.
  induction a as [|c a IH]; intros H.
  - reflexivity.
  - simpl in H. apply andb_true_iff in H as (Hc & Ha).
    cbn [split_on]. rewrite (is_digit_not_dash c Hc), (IH Ha). reflexivity.
Qed.

(** [strptime] reads the fields that [isoformat] wrote. *)
Lemma strptime_ymd_isoformat (d : date) :
  valid_date d -> strptime_ymd (isoformat d) = Ok (ymd_of d).
Proof.
  intros Hd. unfold isoformat.
  destruct (ymd_of_spec d Hd) as (y & m & dd & -> & _ & Hy & Hm & Hdd).
  assert (dd <= 31) as Hdd'.
  { unfold days_in_month in Hdd.
    destruct (m =? 2); [destruct (is_leap y)|destruct (_ || _)]; lia. }
  pose proof (range_all_spec 14 year_text_ok 1 year_text_checked y ltac:(simpl; lia)) as Ey.
  pose proof (range_all_spec 4 _ 1 month_text_checked m ltac:(simpl; lia)) as Em.
  pose proof (range_all_spec 5 _ 1 day_text_checked dd ltac:(simpl; lia)) as Ed.
  unfold year_text_ok in Ey. unfold field_text_ok in Em, Ed.
  destruct (9999 <? y) eqn:E1; [lia|].
  destruct (12 <? m) eqn:E2; [lia|].
  destruct (31 <? dd) eqn:E3; [lia|].
  cbn [orb] in Ey, Em, Ed.
  apply andb_true_iff in Ey as (Ey & Ev). apply andb_true_iff in Ey as (El & Ea).
  apply andb_true_iff in Em as (Ema & Em). apply andb_true_iff in Ed as (Eda & Ed).
  unfold strptime_ymd.
  rewrite (split_on_digits _ _ Ea), (split_on_digits _ _ Ema), (split_on_digits_end _ Eda).
  rewrite El, Ea. cbn [andb].
  destruct (field_upto 12 (zero_pad 2 m)) as [m'|]; [|discriminate Em].
  destruct (day_field (zero_pad 2 dd)) as [dd'|]; [|discriminate Ed].
  apply Z.eqb_eq in Ev, Em, Ed. subst m' dd'. rewrite Ev.
  destruct (1 <=? y) eqn:E4; [|lia].
  destruct (dd <=? days_in_month y m) eqn:E5; [|lia].
  reflexivity.
Qed.

Lemma parse_ymd_isoformat (d : date) :
  valid_date d -> parse_ymd (ymd d) = Ok d.
Proof.
  intros Hd. unfold parse_ymd, ymd.
  rewrite (strptime_ymd_isoformat d Hd).
  destruct (ymd_of_spec d Hd) as (y & m & dd & -> & Ho & _).
  simpl. now rewrite Ho.
Qed.

Lemma format_date_range_isoformat (s e : date) :
  valid_date s -> valid_date e ->
  format_date_range (ymd s) (ymd e) =
  Ok (str_nat (month s) ++ "/" ++ str_nat (day_of s) ++ "-" ++
      str_nat (month e) ++ "/" ++ str_nat (day_of e)).
Proof.
  intros Hs He. unfold format_date_range, ymd, month, day_of.
  rewrite (strptime_ymd_isoformat s Hs), (strptime_ymd_isoformat e He).
  destruct (ymd_of s) as [[y m] d], (ymd_of e) as [[y' m'] d']. reflexivity.
Qed.

(** ** What [strptime] accepts is a date *)

Lemma digit_value_bounds (c : ascii) : is_digit c = true -> 0 <= digit_value c <= 9.
Proof.
  destruct c as [[] [] [] [] [] [] [] []]; intros H; try discriminate H;
    vm_compute; split; discriminate.
Qed.

Lemma four_digits_bound (s : string) :
  String.length s = 4%nat -> all_digits s = true -> digits_value 0 s <= 9999.
Proof.
  destruct s as [|a [|b [|c [|d [|x s]]]]]; try discriminate.
  intros _ H. cbn [all_digits] in H.
  repeat (apply andb_true_iff in H as (? & H)).
  repeat match goal with
    | H : is_digit _ = true |- _ => apply digit_value_bounds in H
    end.
  cbn [digits_value]. lia.
Qed.

Lemma field_upto_bounds (hi : Z) (s : string) (v : Z) :
  field_upto hi s = Some v -> 1 <= v <= hi.
Proof.
  unfold field_upto. intros H.
  destruct (_ && all_digits s); [|discriminate H].
  destruct ((1 <=? digits_value 0 s) && (digits_value 0 s <=? hi)) eqn:E;
    [|discriminate H].
  inversion H; subst. apply andb_true_iff in E as (E1 & E2). lia.
Qed.

Lemma day_field_positive (s : string) (v : Z) : day_field s = Some v -> 1 <= v.
Proof.
  unfold day_field. intros H.
  assert (field_upto 31 s = Some v \/ exists r, field_upto 9 r = Some v) as [E|(r & E)].
  { destruct s as [|c s]; [left; exact H|].
    destruct c as [[] [] [] [] [] [] [] []]; try (left; exact H).
    destruct (String.length s =? 1)%nat; [right; eexists; exact H | discriminate H]. }
  - apply field_upto_bounds in E. lia.
  - apply field_upto_bounds in E. lia.
Qed.

Lemma strptime_ymd_fields (s : string) (y m d : Z) :
  strptime_ymd s = Ok (y, m, d) ->
  1 <= y <= 9999 /\ 1 <= m <= 12 /\ 1 <= d <= days_in_month y m.
Proof.
  unfold strptime_ymd. intros H.
  destruct (split_on "-" s) as [|ys [|ms [|ds [|x l]]]]; try discriminate H.
  destruct (String.length ys =? 4)%nat eqn:El; [|discriminate H].
  destruct (all_digits ys) eqn:Ea; [|discriminate H]. cbn [andb] in H.
  destruct (field_upto 12 ms) as [m0|] eqn:Em; [|discriminate H].
  destruct (day_field ds) as [d0|] eqn:Ed; [|discriminate H].
  destruct ((1 <=? digits_value 0 ys) && (d0 <=? days_in_month (digits_value 0 ys) m0))
    eqn:E; [|discriminate H].
  inversion H; subst. apply andb_true_iff in E as (E1 & E2).
  apply Nat.eqb_eq in El. pose proof (four_digits_bound ys El Ea).
  apply field_upto_bounds in Em. apply day_field_positive in Ed. lia.
Qed.

Lemma days_before_year_succ (y : Z) :
  days_before_year (y + 1) = days_before_year y + (if is_leap y then 366 else 365).
Proof.
  unfold days_before_year, is_leap.
  replace (y + 1 - 1) with y by lia.
  destruct (Z.eqb_spec (y mod 4) 0), (Z.eqb_spec (y mod 100) 0),
    (Z.eqb_spec (y mod 400) 0); cbn [andb orb negb];
    Z.div_mod_to_equations; lia.
Qed.

Lemma days_before_year_bounds (y : Z) :
  1 <= y <= 10000 -> 0 <= days_before_year y <= 3652059.
Proof.
  unfold days_before_year. intros H. Z.div_mod_to_equations. lia.
Qed.

Lemma day_of_year_bounds (y m d : Z) :
  1 <= m <= 12 -> 1 <= d <= days_in_month y m ->
  1 <= days_before_month y m + d <= (if is_leap y then 366 else 365).
Proof.
  intros Hm Hd.
  assert (m = 1 \/ m = 2 \/ m = 3 \/ m = 4 \/ m = 5 \/ m = 6 \/ m = 7 \/ m = 8 \/
          m = 9 \/ m = 10 \/ m = 11 \/ m = 12) as Hcase by lia.
  unfold days_before_month, days_in_month in *.
  destruct (is_leap y);
    repeat (destruct Hcase as [-> | Hcase]); try subst m;
    cbn in Hd;
    match goal with
    | |- context [fold_right Z.add 0 ?l] =>
        let v := eval vm_compute in (fold_right Z.add 0 l) in
        change (fold_right Z.add 0 l) with v
    end; lia.
Qed.

Lemma ordinal_of_ymd_valid (y m d : Z) :
  1 <= y <= 9999 -> 1 <= m <= 12 -> 1 <= d <= days_in_month y m ->
  valid_date (ordinal_of_ymd y m d).
Proof.
  intros Hy Hm Hd. unfold valid_date, ordinal_of_ymd, MINORDINAL, MAXORDINAL.
  pose proof (day_of_year_bounds y m d Hm Hd).
  pose proof (days_before_year_succ y).
  pose proof (days_before_year_bounds y ltac:(lia)).
  pose proof (days_before_year_bounds (y + 1) ltac:(lia)).
  destruct (is_leap y); lia.
Qed.

Lemma parse_ymd_valid_date (s : string) (d : date) :
  parse_ymd s = Ok d -> valid_date d.
Proof.
  unfold parse_ymd. intros H.
  destruct (strptime_ymd s) as [[[y m] dd]|e] eqn:E; simpl in H; [|discriminate H].
  inversion H; subst.
  apply strptime_ymd_fields in E as (Hy & Hm & Hd).
  now apply ordinal_of_ymd_valid.
Qed.

(** X1.  For every date [d] between 0001-01-01 and 9999-12-31, [parse_ymd]
    reads back the text that [ymd] writes: [parse_ymd(ymd(d)) == d]. *)
Theorem parse_ymd_inverts_ymd (d : date) :
  valid_date d -> parse_ymd (ymd d) = Ok d.
Proof.
  intros Hd. unfold parse_ymd, ymd.
  rewrite (strptime_ymd_isoformat d Hd).
  destruct (ymd_of_spec d Hd) as (y & m & dd & -> & Ho & _).
  cbn [exc_bind]. rewrite Ho. reflexivity.
Qed.

Lemma parse_ymd_inverts_ymd_witness :
  parse_ymd (ymd 739495) = Ok 739495.
Proof.
  apply (parse_ymd_inverts_ymd 739495).
  unfold valid_date, MINORDINAL, MAXORDINAL. lia.
Defined.



(** X3.  On the ISO texts of two dates, [format_date_range] never raises
    and returns "M/D-M/D": the month and the day of each date written as
    plain integers, without padding. *)
Theorem format_date_range_of_dates (s e : date) :
  valid_date s -> valid_date e ->
  format_date_range (ymd s) (ymd e) =
  Ok (str_nat (month s) ++ "/" ++ str_nat (day_of s) ++ "-" ++
      str_nat (month e) ++ "/" ++ str_nat (day_of e)).
Proof.
  intros Hs He. unfold format_date_range, ymd, month, day_of.
  rewrite (strptime_ymd_isoformat s Hs), (strptime_ymd_isoformat e He).
  destruct (ymd_of s) as [[y m] d], (ymd_of e) as [[y' m'] d'].
  cbn [exc_bind fst snd]. reflexivity.
Qed.

Lemma format_date_range_of_dates_witness :
  format_date_range (ymd 739495) (ymd 739501) =
  Ok (str_nat (month 739495) ++ "/" ++ str_nat (day_of 739495) ++ "-" ++
      str_nat (month 739501) ++ "/" ++ str_nat (day_of 739501)).
Proof.
  apply (format_date_range_of_dates 739495 739501);
    unfold valid_date, MINORDINAL, MAXORDINAL; lia.
Defined.

(** The first week of September 2025, and a non-canonical spelling. *)
Example format_date_range_example :
  format_date_range "2025-09-01" "2025-09-07" = Ok "9/1-9/7" /\
  parse_ymd "2025-9-1" = Ok 739495 /\ ymd 739495 = "2025-09-01" /\
  (exists msg, parse_ymd "2025-02-30" = Raise (ValueError msg)) /\
  (exists msg, parse_ymd "25-09-01" = Raise (ValueError msg)).
Proof. vm_compute. repeat split; eexists; reflexivity. Qed.

(* ================================================================== *)
(** * More on the weekly partitioner *)
(* ================================================================== *)

Lemma weekday_anchor_of (d ws : Z) : weekday (anchor_of d ws) = ws mod 7.
Proof.
  rewrite anchor_of_div. unfold weekday.
  replace (7 * ((d + 6 - ws) / 7) + ws - 6 + 6) with (ws + (d + 6 - ws) / 7 * 7) by lia.
  apply Z_mod_plus_full.
Qed.

Lemma weekday_next_week (d : Z) : weekday (d + 7) = weekday d.
Proof.
  unfold weekday. replace (d + 7 + 6) with (d + 6 + 1 * 7) by lia.
  apply Z_mod_plus_full.
Qed.

Lemma iter_weeks_from_clipped (fuel : nat) :
  forall cur until_ ws ranges fin,
    iter_weeks_from fuel cur until_ ws = (ranges, fin) ->
    Forall (clipped_week cur until_ ws) ranges /\
    contiguous ranges /\
    (forall r, hd_error ranges = Some r -> fst r = cur) /\
    (forall e, fin = Raised e -> e = OverflowError "date value out of range").
Proof.
  induction fuel as [|fuel IH]; intros cur until_ ws ranges fin H.
  - simpl in H. inversion H; subst. repeat split; auto; try discriminate.
    intros e. destruct (cur <=? until_); discriminate.
  - simpl in H.
    destruct (cur <=? until_) eqn:E.
    2: { inversion H; subst. repeat split; auto; discriminate. }
    apply Z.leb_le in E.
    assert (forall d n e, add_days d n = Raise e ->
              e = OverflowError "date value out of range") as Hov.
    { unfold add_days. intros d n e. destruct (valid_dateb _); intros X; inversion X.
      reflexivity. }
    destruct (week_start_for cur ws) as [a|e] eqn:Ea.
    2: { inversion H; subst. repeat split; auto; try discriminate.
         intros e' X. inversion X; subst. eapply Hov, Ea. }
    destruct (add_days a 6) as [we|e] eqn:Ew.
    2: { inversion H; subst. repeat split; auto; try discriminate.
         intros e' X. inversion X; subst. eapply Hov, Ew. }
    apply week_start_for_anchor in Ea as (Ha & Hmin).
    apply add_days_inv in Ew as (Hwe & _).
    pose proof (anchor_of_bounds cur ws) as Hb.
    pose proof (weekday_anchor_of cur ws) as Hwd.
    assert (clipped_week cur until_ ws (cur, Z.min we until_)) as Hfirst.
    { unfold clipped_week, week_range. cbn [fst snd].
      repeat split; try lia.
      intros Hlt. replace (Z.min we until_ + 1) with (anchor_of cur ws + 7) by lia.
      rewrite weekday_next_week. exact Hwd. }
    destruct (add_days (Z.min we until_) 1) as [cur'|e] eqn:En.
    2: { inversion H; subst. repeat split; auto; try discriminate.
         - intros r X. inversion X. reflexivity.
         - intros e' X. inversion X; subst. eapply Hov, En. }
    apply add_days_inv in En as (Hn & _).
    destruct (iter_weeks_from fuel cur' until_ ws) as [rest fin'] eqn:Er.
    inversion H; subst ranges fin. clear H.
    destruct (IH _ _ _ _ _ Er) as (Hall & Hcont & Hhd & Hfin).
    split; [|split; [|split]].
    + constructor; [exact Hfirst|].
      rewrite Forall_forall in Hall |- *. intros r Hr.
      destruct (Hall r Hr) as (H1 & H2 & H3 & H4 & H5).
      unfold clipped_week, date in *.
      split; [lia|]. split; [exact H2|]. split; [exact H3|]. split; [|exact H5].
      intros _. destruct (Z.eq_dec (fst r) cur') as [Heq|Hne]; [|apply H4; lia].
      destruct H3 as (H3 & _). unfold date in *.
      rewrite Heq. replace cur' with (anchor_of cur ws + 7) by lia.
      rewrite weekday_next_week. exact Hwd.
    + simpl. destruct rest as [|[s' e'] rest']; [exact I|].
      split; [|exact Hcont].
      specialize (Hhd _ eq_refl). simpl in Hhd. lia.
    + intros r X. inversion X. reflexivity.
    + exact Hfin.
Qed.

(** The anchor of a date whose week begins in year 1 or later. *)
Lemma anchor_of_first_week (d ws : Z) :
  0 <= ws <= 6 -> 1 <= d -> (anchor_of d ws < 1 <-> d <= ws).
Proof.
  intros Hws Hd. rewrite anchor_of_div.
  pose proof (Z.div_mod (d + 6 - ws) 7 ltac:(lia)).
  pose proof (Z.mod_pos_bound (d + 6 - ws) 7 ltac:(lia)).
  split; intros; nia.
Qed.

(** X4.  For a date [d] and a week start day between 0 and 6,
    [week_start_for] raises [OverflowError] when the week of [d] begins
    before 0001-01-01, which is when the ordinal of [d] is at most the week
    start day; otherwise it returns a date of that weekday, on or before
    [d] and less than seven days before it. *)
Theorem week_start_for_last_week_start (d ws : Z) :
  valid_date d -> 0 <= ws <= 6 ->
  if d <=? ws
  then week_start_for d ws = Raise (OverflowError "date value out of range")
  else exists a, week_start_for d ws = Ok a /\
                 weekday a = ws /\ a <= d < a + 7 /\ valid_date a.
Proof.
  unfold valid_date, MINORDINAL, MAXORDINAL. intros Hd Hws.
  pose proof (anchor_of_first_week d ws Hws ltac:(lia)) as Hfirst.
  pose proof (anchor_of_bounds d ws) as Hb.
  destruct (d <=? ws) eqn:E.
  - apply Z.leb_le in E. unfold week_start_for, add_days, valid_dateb, MINORDINAL.
    fold (anchor_of d ws) in Hb.
    replace (d + - ((weekday d - ws) mod 7)) with (anchor_of d ws)
      by (unfold anchor_of; lia).
    destruct (1 <=? anchor_of d ws) eqn:E'; [|reflexivity].
    apply Z.leb_le in E'. lia.
  - apply Z.leb_gt in E. exists (anchor_of d ws).
    split; [apply week_start_for_ok; unfold MINORDINAL, MAXORDINAL; lia|].
    split; [rewrite weekday_anchor_of; apply Z.mod_small; lia|].
    split; lia.
Qed.

Lemma week_start_for_last_week_start_witness :
  exists a, week_start_for 739500 0 = Ok a /\
            weekday a = 0 /\ a <= 739500 < a + 7 /\ valid_date a.
Proof.
  apply (week_start_for_last_week_start 739500 0);
    unfold valid_date, MINORDINAL, MAXORDINAL; lia.
Defined.

(** X5.  Whatever its arguments and however it ends, [iter_weeks] yields
    ranges that lie between [since] and [until], hold one to seven days,
    follow one another without gap or overlap and start at [since]; a
    range starts after [since] only on the week start day, and ends before
    [until] only on the eve of a week start day.  The generator ends on
    [StopIteration] or on an [OverflowError], never otherwise. *)
Theorem iter_weeks_yields_clipped_weeks (since until_ week_start : Z) :
  let '(ranges, fin) := iter_weeks since until_ week_start in
  Forall (clipped_week since until_ week_start) ranges /\
  contiguous ranges /\
  (forall r, hd_error ranges = Some r -> fst r = since) /\
  (fin = Stop \/ fin = Raised (OverflowError "date value out of range")).
Proof.
  destruct (iter_weeks since until_ week_start) as [ranges fin] eqn:E.
  pose proof (iter_weeks_finishes since until_ week_start) as Hfin.
  rewrite E in Hfin. simpl in Hfin.
  unfold iter_weeks in E. apply iter_weeks_from_clipped in E.
  destruct E as (H1 & H2 & H3 & H4).
  repeat split; auto.
  destruct fin as [|e|]; [left; reflexivity | right; f_equal; auto | contradiction].
Qed.

(* ================================================================== *)
(** * More on the aggregator *)
(* ================================================================== *)

Lemma dict_find_dict_of_keys (f : string -> string) (items : list string) (k : string) :
  match dict_find (dict_of_keys f items) k with
  | Some c => In c items /\ f c = k
  | None => existsb (fun c => String.eqb (f c) k) items = false
  end.
Proof.
  unfold dict_find, dict_of_keys.
  destruct (find _ _) as [[k' c]|] eqn:E; simpl.
  - apply find_some in E as (Hin & Hk). simpl in Hk.
    apply in_rev in Hin. apply in_map_iff in Hin as (c' & Hc & Hin). inversion Hc; subst.
    split; [exact Hin | now apply String.eqb_eq].
  - destruct (existsb _ items) eqn:Ex; [|reflexivity].
    apply existsb_exists in Ex as (c & Hin & Hc).
    assert (In (f c, c) (rev (map (fun c => (f c, c)) items))) as Hin'
      by (apply in_rev; rewrite rev_involutive;
          exact (in_map (fun c => (f c, c)) items c Hin)).
    pose proof (find_none _ _ E _ Hin') as X. simpl in X. congruence.
Qed.

Lemma dict_find_has_column (df : DataFrame) (k : string) :
  has_column df k =
  match dict_find (dict_of_keys (fun c => strip (lower c)) (columns df)) k with
  | Some _ => true
  | None => false
  end.
Proof.
  unfold has_column.
  pose proof (dict_find_dict_of_keys (fun c => strip (lower c)) (columns df) k) as H.
  destruct (dict_find _ k) as [c|]; [|exact H].
  destruct H as (Hin & Hk). apply existsb_exists. exists c.
  split; [exact Hin | now apply String.eqb_eq].
Qed.

(** [prepare] succeeds exactly when the four required columns exist. *)
Lemma prepare_required_columns (df : DataFrame) :
  if forallb (has_column df) required_columns
  then exists p, prepare df = Ok p
  else prepare df = Raise (MissingColumns (columns df)).
Proof.
  unfold required_columns. cbn [forallb].
  rewrite !dict_find_has_column. unfold prepare.
  destruct (dict_find _ "referring platform"); [|reflexivity].
  destruct (dict_find _ "channel"); [|reflexivity].
  destruct (dict_find _ "type"); [|reflexivity].
  destruct (dict_find _ "sales") as [sales_col|]; [|reflexivity].
  cbn [andb].
  destruct (apply_to_number_never_raises
              (map (fun r => cell (columns df) r sales_col)
                   (drop_blank (dropna_all (rows df))))) as (vs & ->).
  cbn [exc_bind].
  destruct (dict_find _ "cost") as [cost_col|].
  - destruct (apply_to_number_never_raises
                (map (fun r => cell (columns df) r cost_col)
                     (drop_blank (dropna_all (rows df))))) as (cs & ->).
    eexists. reflexivity.
  - eexists. reflexivity.
Qed.

(** X6.  For a week between two dates, the aggregator succeeds exactly
    when the frame has the four columns "referring platform", "channel",
    "type" and "sales" (names compared in lower case, trimmed); whatever
    the cells hold.  It then returns a row whose [Month], [Dates/ Week],
    [Range_Start], [Range_End], [Upload_Date] and [Country] are those of
    the week, of the day and of the setting.  Without one of the columns it
    raises the [ValueError] whose message lists the columns found. *)
Theorem summarize_succeeds_iff_required_columns
    (today : date) (COUNTRY : string) (df : DataFrame) (start end_ : date) :
  valid_date start -> valid_date end_ ->
  if forallb (has_column df) required_columns
  then exists row,
         summarize_channel_csv_to_weekly_row today COUNTRY df start end_ = Ok row /\
         Month row = strftime_B start /\
         Dates_Week row = str_nat (month start) ++ "/" ++ str_nat (day_of start) ++ "-" ++
                          str_nat (month end_) ++ "/" ++ str_nat (day_of end_) /\
         Range_Start row = ymd start /\ Range_End row = ymd end_ /\
         Upload_Date row = ymd today /\ Country row = COUNTRY
  else summarize_channel_csv_to_weekly_row today COUNTRY df start end_
       = Raise (MissingColumns (columns df)).
Proof.
  intros Hs He.
  pose proof (prepare_required_columns df) as Hp.
  unfold summarize_channel_csv_to_weekly_row.
  destruct (forallb (has_column df) required_columns).
  - destruct Hp as ([[rs ch_col] ty_col] & ->). cbn [exc_bind].
    rewrite gpm_of_guarded. cbn [exc_bind].
    pose proof (format_date_range_isoformat start end_ Hs He) as Hf.
    unfold ymd in Hf. rewrite Hf. cbn [exc_bind].
    eexists. split; [reflexivity|]. cbn. repeat split.
  - rewrite Hp. reflexivity.
Qed.

Lemma summarize_succeeds_iff_required_columns_witness :
  exists row,
    summarize_channel_csv_to_weekly_row 739516 "US" example_frame 739495 739501 = Ok row /\
    Month row = strftime_B 739495 /\
    Dates_Week row = str_nat (month 739495) ++ "/" ++ str_nat (day_of 739495) ++ "-" ++
                     str_nat (month 739501) ++ "/" ++ str_nat (day_of 739501) /\
    Range_Start row = ymd 739495 /\ Range_End row = ymd 739501 /\
    Upload_Date row = ymd 739516 /\ Country row = "US".
Proof.
  apply (summarize_succeeds_iff_required_columns 739516 "US" example_frame 739495 739501);
    unfold valid_date, MINORDINAL, MAXORDINAL; lia.
Defined.

(** The names of the columns are compared in lower case and without the
    whitespace around them, a no-break space included; without the column
    of the sales the error lists the columns found. *)
Example summarize_reads_padded_headers :
  exc_map Tot_Sales
    (summarize_channel_csv_to_weekly_row 739516 "US"
       {| columns := [NBSP ++ "Referring Platform"; " CHANNEL "; "Type" ++ IDEOGRAPHIC_SPACE;
                      "sales" ++ TAB];
          rows := [[PStr "x"; PStr "google"; PStr "paid"; PStr "3"]] |}
       739495 739501)
  = Ok 3%float /\
  summarize_channel_csv_to_weekly_row 739516 "US"
    {| columns := ["Referring Platform"; "Channel"; "Type"; "Sale s"];
       rows := [[PStr "x"; PStr "google"; PStr "paid"; PStr "3"]] |}
    739495 739501
  = Raise (MissingColumns ["Referring Platform"; "Channel"; "Type"; "Sale s"]).
Proof. vm_compute. split; reflexivity. Qed.

Lemma kept_rows_blank (l1 l2 : list (list pyval)) (r : list pyval) :
  blank_row r = true ->
  drop_blank (dropna_all (l1 ++ r :: l2)) = drop_blank (dropna_all (l1 ++ l2)).
Proof.
  intros H. unfold drop_blank, dropna_all.
  rewrite !filter_app. f_equal. cbn [filter].
  destruct (forallb isna r) eqn:En; cbn [negb]; [reflexivity|].
  cbn [filter].
  replace (existsb (fun x => negb (String.eqb (strip (py_str x)) "")) r) with false;
    [reflexivity|].
  unfold blank_row in H. rewrite En in H. cbn [orb] in H.
  symmetry. clear En. induction r as [|x r IH]; [reflexivity|].
  cbn [forallb] in H. apply andb_true_iff in H as (Hx & Hr).
  cbn [existsb]. rewrite Hx, (IH Hr). reflexivity.
Qed.

(** X7.  A row whose cells are all null, or all blank strings, changes
    nothing to the summary, wherever it stands in the frame. *)
Theorem summarize_ignores_blank_rows
    (today : date) (COUNTRY : string) (cols : list string)
    (l1 l2 : list (list pyval)) (r : list pyval) (start end_ : date) :
  blank_row r = true ->
  summarize_channel_csv_to_weekly_row today COUNTRY
    {| columns := cols; rows := (l1 ++ r :: l2)%list |} start end_ =
  summarize_channel_csv_to_weekly_row today COUNTRY
    {| columns := cols; rows := (l1 ++ l2)%list |} start end_.
Proof.
  intros H. unfold summarize_channel_csv_to_weekly_row, prepare.
  cbn [columns rows]. rewrite (kept_rows_blank l1 l2 r H). reflexivity.
Qed.

Lemma summarize_ignores_blank_rows_witness :
  summarize_channel_csv_to_weekly_row 739516 "US"
    {| columns := columns example_frame;
       rows := (firstn 1 (rows example_frame) ++
                [PStr " "; PStr ""; PStr ""; PStr "  "] :: skipn 1 (rows example_frame))%list |}
    739495 739501 =
  summarize_channel_csv_to_weekly_row 739516 "US"
    {| columns := columns example_frame;
       rows := (firstn 1 (rows example_frame) ++ skipn 1 (rows example_frame))%list |}
    739495 739501.
Proof.
  apply (summarize_ignores_blank_rows 739516 "US" (columns example_frame)
           (firstn 1 (rows example_frame)) (skipn 1 (rows example_frame))
           [PStr " "; PStr ""; PStr ""; PStr "  "] 739495 739501).
  vm_compute. reflexivity.
Defined.

(** A row that mixes null cells and blank strings is not removed. *)
Example mixed_blank_row_is_kept :
  blank_row [PNaN; PStr ""] = false /\
  drop_blank (dropna_all [[PNaN; PStr ""]]) = [[PNaN; PStr ""]].
Proof. vm_compute. split; reflexivity. Qed.

(** ** A frame without a cost column *)

Lemma nansum_zeros (l : list float) :
  Forall (fun x => x = 0%float) l -> nansum l = 0%float.
Proof.
  unfold nansum. induction 1 as [|x l Hx _ IH]; [reflexivity|].
  subst x. exact IH.
Qed.

Lemma combine_zero_costs {A B} (rs : list A) :
  forall (sales : list B) (costs : list float),
    Forall (fun x => x = 0%float) costs ->
    Forall (fun p => snd (snd p) = 0%float) (combine rs (combine sales costs)).
Proof.
  induction rs as [|r rs IH]; intros sales costs H; [constructor|].
  destruct sales as [|s sales]; [constructor|].
  destruct H as [|c costs Hc H]; [constructor|].
  cbn [combine]. constructor; [exact Hc | apply IH, H].
Qed.

Lemma prepare_without_cost (df : DataFrame) (rs : list srow) (ch ty : string) :
  has_column df "cost" = false ->
  prepare df = Ok (rs, ch, ty) ->
  Forall (fun r => r_cost r = 0%float) rs.
Proof.
  rewrite dict_find_has_column. unfold prepare. intros Hc H.
  destruct (dict_find _ "referring platform"); [|discriminate H].
  destruct (dict_find _ "channel"); [|discriminate H].
  destruct (dict_find _ "type"); [|discriminate H].
  destruct (dict_find _ "sales"); [|discriminate H].
  destruct (dict_find _ "cost"); [discriminate Hc|].
  destruct (apply_to_number _) as [sales|e]; [|discriminate H].
  cbn [exc_bind] in H. inversion H; subst. clear H.
  apply Forall_map.
  eapply Forall_impl; [|apply combine_zero_costs].
  - intros [r0 [s0 c0]] Hz. exact Hz.
  - apply Forall_map, Forall_forall. reflexivity.
Qed.

Lemma dict_get_zero (d : list (string * float)) (k : string) :
  Forall (fun g => snd g = 0%float) d -> dict_get d k 0%float = 0%float.
Proof.
  induction 1 as [|[k' v] d Hv _ IH]; [reflexivity|].
  simpl in *. destruct (String.eqb k' k); [exact Hv | exact IH].
Qed.

Lemma groupby_sum_zero {A} (key : A -> string) (val : A -> float) (l : list A) :
  Forall (fun r => val r = 0%float) l ->
  Forall (fun g => snd g = 0%float) (groupby_sum key val l).
Proof.
  intros H. unfold groupby_sum. apply Forall_map, Forall_forall. intros k _.
  cbn [snd]. apply nansum_zeros, Forall_map, Forall_filter, H.
Qed.

(** X8.  When the frame has no cost column, the three cost figures and
    the total cost of the summary row are 0. *)
Theorem summarize_without_cost_column
    (today : date) (COUNTRY : string) (df : DataFrame) (start end_ : date)
    (row : SummaryRow) :
  has_column df "cost" = false ->
  summarize_channel_csv_to_weekly_row today COUNTRY df start end_ = Ok row ->
  Google_ads_Cost row = 0%float /\ Privey_Email_Cost row = 0%float /\
  Attentive_SMS_Cost row = 0%float /\ Total_Cost row = 0%float.
Proof.
  intros Hc H. unfold summarize_channel_csv_to_weekly_row in H.
  destruct (prepare df) as [[[rs ch] ty]|e] eqn:Ep; [|discriminate H].
  cbn [exc_bind] in H.
  pose proof (prepare_without_cost df rs ch ty Hc Ep) as Hz.
  destruct (gpm_of _ _) as [g|e]; [|discriminate H]. cbn [exc_bind] in H.
  destruct (format_date_range _ _) as [dw|e]; [|discriminate H]. cbn [exc_bind] in H.
  inversion H; subst. clear H. cbn.
  unfold get_rounded, tot_cost_of.
  rewrite !dict_get_zero by (apply groupby_sum_zero, Hz).
  rewrite nansum_zeros by (apply Forall_map, Hz).
  repeat split; vm_compute; reflexivity.
Qed.

Lemma summarize_without_cost_column_witness :
  exists row,
    summarize_channel_csv_to_weekly_row 739516 "US" example_frame 739495 739501 = Ok row /\
    Google_ads_Cost row = 0%float /\ Privey_Email_Cost row = 0%float /\
    Attentive_SMS_Cost row = 0%float /\ Total_Cost row = 0%float.
Proof.
  eexists. split; [vm_compute; reflexivity|].
  eapply (summarize_without_cost_column 739516 "US" example_frame 739495 739501);
    vm_compute; reflexivity.
Defined.

(* ================================================================== *)
(** * More on the note builder *)
(* ================================================================== *)

Lemma key_lt_trans (a : string) :
  forall b c, key_lt a b -> key_lt b c -> key_lt a c.
Proof.
  unfold key_lt.
  induction a as [|x a IH]; intros [|y b] [|z c]; simpl; try discriminate; auto.
  unfold Ascii.compare.
  destruct (N.compare_spec (N_of_ascii x) (N_of_ascii y)) as [Exy|Exy|Exy];
    destruct (N.compare_spec (N_of_ascii y) (N_of_ascii z)) as [Eyz|Eyz|Eyz];
    destruct (N.compare_spec (N_of_ascii x) (N_of_ascii z)) as [Exz|Exz|Exz];
    try discriminate; try lia; auto.
  apply IH.
Qed.

Lemma key_lt_irrefl (a : string) : ~ key_lt a a.
Proof.
  unfold key_lt. intros H. pose proof (String.compare_antisym a a) as E.
  rewrite H in E. discriminate E.
Qed.

Lemma insert_key_spec (k n : string) (ks : list string) :
  In k (insert_key n ks) <-> k = n \/ In k ks.
Proof.
  split; [apply insert_key_In|].
  induction ks as [|k' ks IH]; simpl.
  - intros [->|[]]; auto.
  - destruct (String.eqb n k') eqn:E.
    + apply String.eqb_eq in E. subst k'. simpl. intuition auto.
    + destruct (String.leb n k'); simpl; intuition auto.
Qed.

Lemma insert_key_sorted (n : string) (ks : list string) :
  StronglySorted key_lt ks -> StronglySorted key_lt (insert_key n ks).
Proof.
  induction 1 as [|k' ks Hs IH Hk]; simpl.
  - constructor; constructor.
  - destruct (String.eqb n k') eqn:E; [constructor; assumption|].
    apply String.eqb_neq in E.
    unfold String.leb. destruct (String.compare n k') eqn:Ec.
    + apply String.compare_eq_iff in Ec. contradiction.
    + constructor; [constructor; assumption|].
      constructor; [exact Ec|].
      eapply Forall_impl; [|exact Hk]. intros u. now apply key_lt_trans.
    + constructor; [exact IH|].
      apply Forall_forall. intros u Hu. apply insert_key_spec in Hu as [->|Hu].
      * unfold key_lt. rewrite String.compare_antisym, Ec. reflexivity.
      * rewrite Forall_forall in Hk. now apply Hk.
Qed.

Lemma group_keys_sorted (ks : list string) : StronglySorted key_lt (group_keys ks).
Proof.
  unfold group_keys. induction ks as [|n ks IH]; simpl; [constructor|].
  now apply insert_key_sorted.
Qed.

(** The keys of a grouping are those of the rows, each of them once. *)
Lemma group_keys_spec (k : string) (ks : list string) :
  In k (group_keys ks) <-> In k ks.
Proof.
  split; [apply group_keys_In|].
  unfold group_keys. induction ks as [|n ks IH]; simpl; [tauto|].
  intros H. apply insert_key_spec.
  destruct H as [->|H]; [left; reflexivity | right; auto].
Qed.

Lemma group_keys_NoDup (ks : list string) : NoDup (group_keys ks).
Proof.
  pose proof (group_keys_sorted ks) as H.
  induction H as [|k l Hs IH Hk]; constructor; [|exact IH].
  intros Hin. rewrite Forall_forall in Hk.
  exact (key_lt_irrefl k (Hk k Hin)).
Qed.

Lemma groupby_sum_keys {A} (key : A -> string) (val : A -> float) (l : list A) :
  map fst (groupby_sum key val l) = group_keys (map key l).
Proof. unfold groupby_sum. rewrite map_map. simpl. apply map_id. Qed.

Section NoDupKeys.

Context {A B : Type} (f : A -> B).

Lemma NoDup_map_insert_desc (val : A -> float) (x : A) (l : list A) :
  NoDup (map f (x :: l)) -> NoDup (map f (insert_desc val x l)).
Proof.
  induction l as [|y l IH]; simpl; [auto|].
  destruct (desc_le (val x) (val y)); [auto|].
  intros H. inversion H as [|? ? Hx Hyl]; subst.
  inversion Hyl as [|? ? Hy Hl]; subst.
  simpl. constructor.
  - intros Hin. apply in_map_iff in Hin as (u & Hu & Hin).
    apply insert_desc_In in Hin as [->|Hin].
    + apply Hx. rewrite <- Hu. now left.
    + apply Hy. rewrite <- Hu. now apply in_map.
  - apply IH. simpl. constructor; [|exact Hl].
    intros Hin. apply Hx. now right.
Qed.

Lemma NoDup_map_sort_values_desc (val : A -> float) (l : list A) :
  NoDup (map f l) -> NoDup (map f (sort_values_desc val l)).
Proof.
  induction l as [|x l IH]; simpl; [auto|].
  intros H. apply NoDup_map_insert_desc. simpl.
  inversion H as [|? ? Hx Hl]; subst. constructor; [|auto].
  intros Hin. apply Hx. apply in_map_iff in Hin as (u & Hu & Hin).
  apply sort_values_desc_In in Hin. rewrite <- Hu. now apply in_map.
Qed.

Lemma NoDup_map_firstn (n : nat) (l : list A) :
  NoDup (map f l) -> NoDup (map f (firstn n l)).
Proof.
  intros H. rewrite <- (firstn_skipn n l), map_app in H.
  now apply NoDup_app_remove_r in H.
Qed.

Lemma NoDup_map_filter (p : A -> bool) (l : list A) :
  NoDup (map f l) -> NoDup (map f (filter p l)).
Proof.
  induction l as [|x l IH]; simpl; [auto|].
  intros H. inversion H as [|? ? Hx Hl]; subst.
  destruct (p x); simpl; [|auto].
  constructor; [|auto].
  intros Hin. apply Hx. apply in_map_iff in Hin as (u & Hu & Hin).
  apply filter_In in Hin as (Hin & _). rewrite <- Hu. now apply in_map.
Qed.

Lemma filter_all (p : A -> bool) (l : list A) :
  Forall (fun x => p x = true) l -> filter p l = l.
Proof.
  induction 1 as [|x l Hx _ IH]; simpl; [reflexivity|].
  now rewrite Hx, IH.
Qed.

Lemma StronglySorted_app_inv (R : A -> A -> Prop) (l1 l2 : list A) :
  StronglySorted R (l1 ++ l2)%list ->
  forall x y, In x l1 -> In y l2 -> R x y.
Proof.
  induction l1 as [|a l1 IH]; simpl; intros H x y Hx Hy; [contradiction|].
  apply StronglySorted_inv in H as (Hs & Hall).
  destruct Hx as [->|Hx].
  - rewrite Forall_forall in Hall. apply Hall, in_or_app. now right.
  - now apply IH.
Qed.

End NoDupKeys.

(** X9.  No sub-group is listed twice in [MISC.]: the names of the
    entries are pairwise distinct. *)
Theorem build_misc_notes_names_distinct
    (cols : list string) (df_other : list srow) (ch_col ty_col : string) :
  NoDup (map fst (misc_parts (misc_name cols ch_col ty_col) df_other)).
Proof.
  unfold misc_parts, misc_groups.
  apply NoDup_map_filter, NoDup_map_firstn, NoDup_map_sort_values_desc.
  rewrite groupby_sum_keys. apply group_keys_NoDup.
Qed.

Module FloatOrderMore.
Import FloatKey.

Lemma SFltb_rank (x y : spec_float) :
  SFltb x y = true <->
  sf_is_nan x = false /\ sf_is_nan y = false /\ ~ lex_le (rank y) (rank x).
Proof.
  destruct x as [sx|sx| |sx mx ex], y as [sy|sy| |sy my ey];
    unfold SFltb, SFcompare, rank, lex_le, sf_is_nan;
    try destruct sx; try destruct sy; split_compare; simpl;
    (split; [intros Hle; try discriminate Hle; repeat split; lia
            |intros (Hx & Hy & Hle); try discriminate; try reflexivity; lia]).
Qed.

Lemma ltb_rank (a b : float) :
  PrimFloat.ltb a b = true <->
  is_nan a = false /\ is_nan b = false /\
  ~ lex_le (rank (Prim2SF b)) (rank (Prim2SF a)).
Proof. rewrite ltb_spec, !FloatOrder.is_nan_spec. apply SFltb_rank. Qed.

(** A value that stands before a positive one is positive, and no less. *)
Lemma before_positive (x g : float) :
  is_positive g = true -> desc_le x g = true ->
  is_positive x = true /\ PrimFloat.leb g x = true.
Proof.
  intros Hg Hx.
  pose proof (FloatOrder.is_positive_not_nan g Hg) as Hn.
  unfold desc_le in Hx. rewrite Hn in Hx. cbn [orb] in Hx.
  apply andb_true_iff in Hx as (Hxn & Hle). split; [|exact Hle].
  unfold is_positive in *. apply ltb_rank in Hg as (H0 & _ & Hg).
  apply FloatOrder.leb_rank in Hle as (_ & Hxn' & Hle).
  apply ltb_rank. repeat split; auto.
  intros Hc. apply Hg. eapply FloatOrder.lex_le_trans; eauto.
Qed.

End FloatOrderMore.

Lemma misc_groups_complete (name_of : srow -> string) (df_other : list srow) (r : srow) :
  In r df_other ->
  In (name_of r, group_sales name_of df_other (name_of r)) (misc_groups name_of df_other).
Proof.
  intros H. unfold misc_groups. apply sort_values_desc_In.
  unfold groupby_sum, group_sales.
  apply (in_map (fun k => (k, nansum (map r_sales
                   (filter (fun r0 => String.eqb (name_of r0) k) df_other))))).
  apply group_keys_spec. now apply in_map.
Qed.

(** X10.  [MISC.] keeps the best sub-groups: a sub-group of the OtherMisc
    rows with positive sales is listed, unless twelve sub-groups are listed
    whose sales are all at least as large. *)
Theorem build_misc_notes_keeps_the_best
    (cols : list string) (df_other : list srow) (ch_col ty_col : string) (r : srow) :
  let name_of := misc_name cols ch_col ty_col in
  let parts := misc_parts name_of df_other in
  let sales := group_sales name_of df_other (name_of r) in
  In r df_other ->
  is_positive sales = true ->
  In (name_of r, sales) parts \/
  (List.length parts = 12%nat /\
   Forall (fun p => PrimFloat.leb sales (snd p) = true) parts).
Proof.
  intros name_of parts sales Hr Hpos.
  pose proof (misc_groups_complete name_of df_other r Hr) as Hin.
  fold sales in Hin.
  pose proof (sort_values_desc_sorted snd (groupby_sum name_of r_sales df_other)) as Hs.
  fold (misc_groups name_of df_other) in Hs.
  unfold parts, misc_parts.
  set (groups := misc_groups name_of df_other) in *.
  rewrite <- (firstn_skipn 12 groups) in Hin, Hs.
  apply in_app_or in Hin as [Hin|Hin].
  - left. apply filter_In. split; [exact Hin | exact Hpos].
  - right.
    assert (Forall (fun p => is_positive (snd p) = true /\
                             PrimFloat.leb sales (snd p) = true) (firstn 12 groups)) as Hall.
    { apply Forall_forall. intros p Hp.
      apply (FloatOrderMore.before_positive (snd p) sales Hpos).
      exact (StronglySorted_app_inv _ _ _ Hs p _ Hp Hin). }
    rewrite filter_all by (eapply Forall_impl; [|exact Hall]; simpl; tauto).
    split.
    + apply firstn_length_le.
      destruct (Nat.le_gt_cases 12 (List.length groups)) as [Hl|Hl]; [exact Hl|].
      rewrite skipn_all2 in Hin by lia. contradiction.
    + eapply Forall_impl; [|exact Hall]. simpl. tauto.
Qed.

Lemma build_misc_notes_keeps_the_best_witness :
  let r := other_row (PStr "c1") (PStr "t") (float_of_decimal false 1 0) in
  let name_of := misc_name ["Channel"; "Type"] "Channel" "Type" in
  let parts := misc_parts name_of thirteen_groups in
  let sales := group_sales name_of thirteen_groups (name_of r) in
  In (name_of r, sales) parts \/
  (List.length parts = 12%nat /\
   Forall (fun p => PrimFloat.leb sales (snd p) = true) parts).
Proof.
  apply (build_misc_notes_keeps_the_best ["Channel"; "Type"] thirteen_groups
           "Channel" "Type" (other_row (PStr "c1") (PStr "t") (float_of_decimal false 1 0))).
  - left. reflexivity.
  - vm_compute. reflexivity.
Defined.

(* ================================================================== *)
(** * More on the uploads *)
(* ================================================================== *)





(** In append mode a tab whose cell A1 is blank is written over from its
    first row on, whatever its other cells hold. *)
Example upload_append_over_blank_a1 :
  let w := initial_world (Some [[VStr ""; VStr "note"]; [VStr "second"]; [VStr "third"]]) in
  upload_df_to_sheet sample_row (Some "sheet-1") (fun _ => None) "append" w =
  (Ok tt,
   {| sheet := Some [header_row; row_values sample_row; [VStr "third"]];
      log := [EvSheetUpdate [header_row; row_values sample_row]] |}).
Proof. vm_compute. reflexivity. Qed.

(** An overwrite whose update fails leaves the tab empty. *)
Example upload_overwrite_interrupted :
  let fault := fun c => match c with
                        | UpdateAll => Some (HttpError "quota exceeded")
                        | _ => None
                        end in
  upload_df_to_sheet sample_row (Some "sheet-1") fault "overwrite"
    (initial_world (Some [header_row; [VStr "old row"]])) =
  (Raise (HttpError "quota exceeded"), {| sheet := Some []; log := [EvSheetClear] |}).
Proof. vm_compute. reflexivity. Qed.

(* ================================================================== *)
(** * The events of a run *)
(* ================================================================== *)

Lemma report_pages_app (l l' : list event) :
  report_pages (l ++ l') = (report_pages l ++ report_pages l')%list.
Proof. apply flat_map_app. Qed.

Lemma saved_summaries_app (l l' : list event) :
  saved_summaries (l ++ l') = (saved_summaries l ++ saved_summaries l')%list.
Proof. apply flat_map_app. Qed.

Lemma combined_summaries_app (l l' : list event) :
  combined_summaries (l ++ l') = (combined_summaries l ++ combined_summaries l')%list.
Proof. apply flat_map_app. Qed.

Lemma week_events_combined (l : list event) :
  Forall (fun ev => is_week_event ev = true) l -> combined_summaries l = [].
Proof.
  induction 1 as [|ev l Hev _ IH]; [reflexivity|].
  destruct ev; try discriminate Hev; exact IH.
Qed.

(** What an upload adds to the log: calls to the service, oldest first. *)
Lemma upload_df_to_sheet_trace (df : SummaryRow) (spreadsheet_id : option string)
    (fault : api_call -> option exn) (mode : string) (w w' : world) (r : exc unit) :
  upload_df_to_sheet df spreadsheet_id fault mode w = (r, w') ->
  exists new, log w' = (rev new ++ log w)%list /\
              Forall (fun ev => is_week_event ev = true) new /\
              report_pages new = [] /\ saved_summaries new = [].
Proof.
  unfold upload_df_to_sheet, ensure_tab, raise_if, bind, ret, raise, emit,
    get_sheet, set_sheet.
  destruct (falsy spreadsheet_id); [trace_leaf|].
  destruct (fault GetService); [trace_leaf|].
  destruct (fault GetMeta); [trace_leaf|].
  cbn [sheet log].
  destruct (String.eqb mode "overwrite").
  - destruct (sheet w) as [t|].
    + destruct (fault ClearAll); [trace_leaf|]. cbn [sheet log].
      destruct (fault UpdateAll); trace_leaf.
    + destruct (fault AddSheet); [trace_leaf|]. cbn [sheet log].
      destruct (fault ClearAll); [trace_leaf|]. cbn [sheet log].
      destruct (fault UpdateAll); trace_leaf.
  - destruct (sheet w) as [t|] eqn:Et.
    + destruct (fault GetA1); [trace_leaf|]. cbn [sheet log]. rewrite Et.
      destruct (a1_empty t).
      * destruct (fault UpdateNew); trace_leaf.
      * destruct (fault AppendRows); trace_leaf.
    + destruct (fault AddSheet); [trace_leaf|]. cbn [sheet log].
      destruct (fault GetA1); [trace_leaf|]. cbn [sheet log a1_empty].
      destruct (fault UpdateNew); trace_leaf.
Qed.

(** One turn of the loop: the report page is opened, unless the turn fails
    at its first print, and then the week either fails or saves its summary
    row. *)
Lemma week_body_trace (env : Env) (wk : date * date) (v : loop_vars)
    (w w' : world) (r : exc loop_vars) :
  week_body env (fst wk) (snd wk) v w = (r, w') ->
  exists new, log w' = (rev new ++ log w)%list /\
              Forall (fun ev => is_week_event ev = true) new /\
              match r with
              | Ok v' => exists row,
                  report_pages new = [report_url env wk] /\
                  week_row env wk = Ok row /\ saved_summaries new = [row] /\
                  all_summary_rows v' = (all_summary_rows v ++ [row])%list
              | Raise _ =>
                  (report_pages new = [] \/ report_pages new = [report_url env wk]) /\
                  (saved_summaries new = [] \/
                   exists row, week_row env wk = Ok row /\ saved_summaries new = [row])
              end.
Proof.
  unfold week_body, week_row, report_url, local, raise_if, try_except, bind, ret,
    emit, lift, raise.
  cbn [sheet log]. intros H.
  destruct (local_error env (PrintWeek (fst wk))).
  { inversion H; subst. cbn [log]. log_delta. split; [constructor|]. auto. }
  cbn [sheet log] in H.
  destruct (acquire env (fst wk) (snd wk)) as [df|e1].
  2: { inversion H; subst. cbn [log]. log_delta. split; [repeat constructor|]. auto. }
  cbn [exc_bind].
  destruct (summarize_channel_csv_to_weekly_row _ _ df _ _) as [row|e2].
  2: { inversion H; subst. cbn [log]. log_delta. split; [repeat constructor|]. auto. }
  cbn [sheet log] in H.
  destruct (local_error env (PrintPreview (fst wk))).
  { inversion H; subst. cbn [log]. log_delta. split; [repeat constructor|]. auto. }
  destruct (local_error env (SummaryToCsv (fst wk))).
  { inversion H; subst. cbn [log]. log_delta. split; [repeat constructor|]. auto. }
  cbn [sheet log] in H.
  destruct (local_error env (PrintSummarySaved (fst wk))).
  { inversion H; subst. cbn [log]. log_delta. split; [repeat constructor|].
    split; [auto|]. right. exists row. split; reflexivity. }
  cbn [sheet log] in H.
  destruct (UPLOAD_TO_SHEET env).
  2: { inversion H; subst. cbn [log]. log_delta.
       split; [repeat constructor|]. exists row. repeat split. }
  match type of H with
  | context [upload_df_to_sheet ?a ?b ?c ?d ?e] =>
      destruct (upload_df_to_sheet a b c d e) as [ru wu] eqn:Eu
  end.
  apply upload_df_to_sheet_trace in Eu as (newu & Hlog & Hall & Hp & Hs).
  cbn [log] in Hlog.
  destruct ru as [[]|e3].
  - cbn [sheet log] in H.
    destruct (local_error env (PrintUploaded (fst wk)));
      inversion H; subst; cbn [log]; rewrite Hlog;
      (eexists ([_; _; _] ++ newu ++ [_])%list; split;
       [ rewrite !rev_app_distr; cbn [rev app]; rewrite <- !app_assoc; reflexivity |]);
      (split; [repeat (apply Forall_app; split); auto; repeat constructor|]);
      rewrite !report_pages_app, !saved_summaries_app, Hp, Hs.
    + split; [auto|]. right. exists row. split; reflexivity.
    + exists row. repeat split.
  - inversion H; subst. cbn [log]. rewrite Hlog.
    eexists ([_; _; _] ++ newu)%list. split.
    { rewrite !rev_app_distr. cbn [rev app]. rewrite <- !app_assoc. reflexivity. }
    split.
    { repeat (apply Forall_app; split); auto; repeat constructor. }
    rewrite !report_pages_app, !saved_summaries_app, Hp, Hs.
    split; [auto|]. right. exists row. split; reflexivity.
Qed.

(** The loop: the report pages of the first [k] weeks are opened, in order;
    when the loop ends normally every week has saved its row. *)
Lemma for_weeks_trace (env : Env) (weeks : list (date * date)) :
  forall (v : loop_vars) (w w' : world) (r : exc loop_vars),
    for_weeks env weeks v w = (r, w') ->
    exists new k,
      log w' = (rev new ++ log w)%list /\
      Forall (fun ev => is_week_event ev = true) new /\
      (k <= List.length weeks)%nat /\
      report_pages new = map (report_url env) (firstn k weeks) /\
      match r with
      | Ok v' => exists rows,
          k = List.length weeks /\
          Forall2 (fun wk row => week_row env wk = Ok row) weeks rows /\
          saved_summaries new = rows /\
          all_summary_rows v' = (all_summary_rows v ++ rows)%list
      | Raise _ => True
      end.
Proof.
  induction weeks as [|[start end_] weeks IH]; intros v w w' r H.
  - inversion H; subst. exists [], O. repeat split; auto.
    exists []. rewrite app_nil_r. repeat split. constructor.
  - cbn [for_weeks] in H. unfold bind in H.
    destruct (week_body env start end_ v w) as [r1 w1] eqn:E1.
    apply (week_body_trace env (start, end_)) in E1
      as (new1 & Hlog1 & Hall1 & Hr1).
    destruct r1 as [v1|e1].
    + destruct Hr1 as (row & Hp1 & Hrow & Hs1 & Hv1).
      destruct (IH _ _ _ _ H) as (new2 & k & Hlog2 & Hall2 & Hk & Hp2 & Hr2).
      exists (new1 ++ new2)%list, (S k).
      split; [rewrite Hlog2, Hlog1, rev_app_distr, app_assoc; reflexivity|].
      split; [apply Forall_app; auto|].
      split; [simpl; lia|].
      split; [rewrite report_pages_app, Hp1, Hp2; reflexivity|].
      destruct r as [v'|e]; [|exact I].
      destruct Hr2 as (rows & -> & Hrows & Hs2 & Hv').
      exists (row :: rows). split; [reflexivity|].
      split; [constructor; assumption|].
      split; [rewrite saved_summaries_app, Hs1, Hs2; reflexivity|].
      rewrite Hv', Hv1, <- app_assoc. reflexivity.
    + inversion H; subst. destruct Hr1 as ([Hp1|Hp1] & _).
      * exists new1, 0%nat.
        split; [exact Hlog1|]. split; [exact Hall1|].
        split; [simpl; lia|]. split; [exact Hp1 | exact I].
      * exists new1, 1%nat.
        split; [exact Hlog1|]. split; [exact Hall1|].
        split; [simpl; lia|]. split; [exact Hp1 | exact I].
Qed.

(** The shape of every run. *)
Lemma run_trace_shape (env : Env) (tab : option grid) :
  (run_trace env tab = [] /\ (exists e, run_outcome env tab = Raise e) /\
   forall s u, ~ enters_try_block env s u)
  \/
  ((run_trace env tab = [EvLaunchBrowser] \/
    run_trace env tab = [EvLaunchBrowser; EvNewContext (state_file_exists env)]) /\
   (exists e, run_outcome env tab = Raise e) /\
   forall s u, ~ enters_try_block env s u)
  \/
  exists since_d until_d,
    enters_try_block env since_d until_d /\
    match session_error env with
    | Some e =>
        run_outcome env tab = finished env (Raise e) /\
        run_trace env tab = (session_events env ++ close_events env)%list
    | None =>
        exists new k,
          let weeks := fst (iter_weeks since_d until_d (WEEK_START env)) in
          Forall (fun ev => is_week_event ev = true) new /\
          (k <= List.length weeks)%nat /\
          report_pages new = map (report_url env) (firstn k weeks) /\
          (((exists e, run_outcome env tab = finished env (Raise e)) /\
            run_trace env tab = (session_events env ++ new ++ close_events env)%list)
           \/
           (exists rows,
              snd (iter_weeks since_d until_d (WEEK_START env)) = Stop /\
              k = List.length weeks /\
              Forall2 (fun wk row => week_row env wk = Ok row) weeks rows /\
              saved_summaries new = rows /\
              run_outcome env tab =
                finished env match combined_error env rows with
                             | Some e => Raise e
                             | None => Ok tt
                             end /\
              run_trace env tab =
                (session_events env ++ new ++ combined_event env rows ++
                 close_events env)%list))
    end.
Proof.
  unfold run_trace, run_outcome.
  destruct (run env (initial_world tab)) as [res w1] eqn:H. cbn [fst snd].
  apply run_parts in H
    as [(-> & Hr & Hn) | [(Hl & Hr & Hn) | (s & u & r & wb & Hin & Hb & -> & ->)]].
  { left. auto. }
  { right. left. split; [|auto]. destruct Hl as [-> | ->]; [left | right]; reflexivity. }
  right. right. exists s, u. split; [exact Hin|].
  apply try_block_parts in Hb. cbv zeta in Hb. cbn [sheet log] in Hb.
  unfold session_events.
  assert (forall l : list event,
            rev (rev (close_events env) ++ l) = (rev l ++ close_events env)%list) as Hrev.
  { intros l. rewrite rev_app_distr, rev_involutive. reflexivity. }
  assert (rev (rev (EvGoto (store_url env) :: login_events env) ++
               [EvNewContext (state_file_exists env); EvLaunchBrowser])
          = ([EvLaunchBrowser; EvNewContext (state_file_exists env);
              EvGoto (store_url env)] ++ login_events env)%list) as Hhead.
  { rewrite rev_app_distr, rev_involutive. reflexivity. }
  destruct (session_error env) as [e|].
  - destruct Hb as (-> & _ & Hlog). split; [reflexivity|].
    rewrite Hrev, Hlog, Hhead. reflexivity.
  - destruct Hb as (rl & wl & Hfor & _ & Hr).
    pose proof (iter_weeks_finishes s u (WEEK_START env)) as Hfin.
    apply for_weeks_trace in Hfor as (new & k & Hlog & Hall & Hk & Hp & Hrl).
    cbn [log] in Hlog.
    exists new, k.
    split; [exact Hall|]. split; [exact Hk|]. split; [exact Hp|].
    destruct rl as [v'|e].
    2: { destruct Hr as (-> & Hwb). left. split; [eexists; reflexivity|].
         rewrite Hrev, Hwb, Hlog, rev_app_distr, rev_involutive, Hhead, <- !app_assoc.
         reflexivity. }
    destruct Hrl as (rows & -> & Hrows & Hs & Hv).
    cbn [all_summary_rows app] in Hv. rewrite Hv in Hr.
    destruct (snd (iter_weeks s u (WEEK_START env))) as [|e|] eqn:Efin;
      [|destruct Hr as (-> & Hwb)|contradiction].
    + destruct Hr as (-> & Hwb). right. exists rows.
      repeat (split; [assumption || reflexivity|]).
      rewrite Hrev, Hwb, Hlog, !rev_app_distr, !rev_involutive.
      cbn [rev app]. rewrite <- ?app_assoc. reflexivity.
    + left. split; [eexists; reflexivity|].
      rewrite Hrev, Hwb, Hlog, rev_app_distr, rev_involutive, Hhead, <- !app_assoc.
      reflexivity.
Qed.

Lemma week_events_In (l : list event) (ev : event) :
  Forall (fun ev => is_week_event ev = true) l -> In ev l -> is_week_event ev = true.
Proof. intros H. rewrite Forall_forall in H. apply H. Qed.

Lemma session_events_pages (env : Env) :
  report_pages (session_events env) = [store_url env] /\
  saved_summaries (session_events env) = [] /\
  combined_summaries (session_events env) = [].
Proof.
  unfold session_events, login_events.
  destruct (goto_store_error env), (state_file_exists env), (login_error env),
    (local_error env StorageState); repeat split.
Qed.

Lemma combined_event_pages (env : Env) (rows : list SummaryRow) :
  report_pages (combined_event env rows) = [] /\
  saved_summaries (combined_event env rows) = [] /\
  combined_summaries (combined_event env rows) =
    match rows, local_error env CombinedToCsv with
    | _ :: _, None => [rows]
    | _, _ => []
    end.
Proof.
  unfold combined_event. destruct rows, (local_error env CombinedToCsv); repeat split.
Qed.

Lemma close_events_pages (env : Env) :
  report_pages (close_events env) = [] /\
  saved_summaries (close_events env) = [] /\
  combined_summaries (close_events env) = [].
Proof. unfold close_events. destruct (close_error env); repeat split. Qed.

Lemma week_events_summaries (l : list event) :
  Forall (fun ev => is_week_event ev = true) l ->
  forall ev, In ev l ->
    ev <> EvClose /\ ev <> EvLaunchBrowser /\ ev <> EvSaveState /\
    (forall a, ev <> EvLogin a) /\ (forall b, ev <> EvNewContext b) /\
    (forall s e x, ev <> EvWeekFailed s e x).
Proof.
  intros H ev Hin. pose proof (week_events_In l ev H Hin) as Hev.
  destruct ev; try discriminate Hev; repeat split; try discriminate; intros; discriminate.
Qed.

(** How a run ends, from how its [try] block ended. *)
Lemma finished_ok (env : Env) (r : exc unit) :
  finished env r = Ok tt ->
  r = Ok tt /\ close_error env = None /\ local_error env StopPlaywright = None.
Proof.
  unfold finished.
  destruct (local_error env StopPlaywright); [discriminate|].
  destruct (close_error env); [discriminate|]. auto.
Qed.

Lemma finished_raise (env : Env) (r : exc unit) (e : exn) :
  finished env r = Raise e ->
  r = Raise e \/ close_error env = Some e \/ local_error env StopPlaywright = Some e.
Proof.
  unfold finished.
  destruct (local_error env StopPlaywright); [intros H; inversion H; auto|].
  destruct (close_error env); [intros H; inversion H; auto|]. auto.
Qed.

Lemma finished_quiet (env : Env) (r : exc unit) :
  machine_never_fails env -> finished env r = r /\ close_events env = [EvClose].
Proof.
  intros Hq. unfold finished, close_events, close_error. rewrite !Hq. auto.
Qed.

Lemma last_occurrence {A} (x : A) (body pre post : list A) :
  ~ In x body -> (body ++ [x])%list = (pre ++ x :: post)%list -> post = [] /\ pre = body.
Proof.
  intros Hn E. destruct post as [|z post].
  - split; [reflexivity|]. apply app_inj_tail in E. symmetry. tauto.
  - exfalso. apply Hn.
    assert (x :: z :: post = (x :: removelast (z :: post)) ++ [last (z :: post) x])%list as El.
    { change (x :: z :: post) with ([x] ++ z :: post)%list.
      rewrite (app_removelast_last x (l := z :: post)) at 1 by discriminate.
      reflexivity. }
    rewrite El, app_assoc in E. apply app_inj_tail in E as (-> & _).
    apply in_or_app. right. left. reflexivity.
Qed.

(** The events of a run, apart from the close: the close is not among
    them, and they begin with the launch, the context and the page of the
    store once the [try] block is entered. *)
Lemma run_trace_body (env : Env) (tab : option grid) :
  exists body,
    ~ In EvClose body /\
    ((run_trace env tab = body /\ (forall s u, ~ enters_try_block env s u) /\
      exists e, run_outcome env tab = Raise e)
     \/
     ((exists s u, enters_try_block env s u) /\
      run_trace env tab = (body ++ close_events env)%list /\
      exists middle,
        body = EvLaunchBrowser :: EvNewContext (state_file_exists env) ::
               EvGoto (store_url env) :: middle /\
        ~ In EvLaunchBrowser middle)).
Proof.
  assert (forall ev, In ev (login_events env) -> ev <> EvClose /\ ev <> EvLaunchBrowser)
    as Hlogin.
  { unfold login_events. intros ev Hin.
    destruct (goto_store_error env), (state_file_exists env), (login_error env),
      (local_error env StorageState);
      simpl in Hin; intuition (subst; discriminate). }
  assert (forall rows ev, In ev (combined_event env rows) ->
                          ev <> EvClose /\ ev <> EvLaunchBrowser) as Hcomb.
  { unfold combined_event. intros rows ev Hin.
    destruct rows, (local_error env CombinedToCsv);
      simpl in Hin; intuition (subst; discriminate). }
  destruct (run_trace_shape env tab)
    as [(-> & Hr & Hn) | [(Hl & Hr & Hn) | (s & u & Hin & H)]].
  - exists []. split; [intros []|]. left. auto.
  - destruct Hl as [-> | ->]; eexists; (split; [|left; split; [reflexivity | auto]]);
      simpl; intuition discriminate.
  - unfold session_events in H.
    destruct (session_error env) as [e|].
    + destruct H as (_ & ->). eexists. split; [|right; split; [eauto|]].
      2: { split; [reflexivity|]. eexists. split; [reflexivity|].
           intros Hi. apply Hlogin in Hi. tauto. }
      simpl. intros [Hi|[Hi|[Hi|Hi]]]; try discriminate Hi. apply Hlogin in Hi. tauto.
    + destruct H as (new & k & Hall & _ & _ & [(_ & ->) | (rows & _ & _ & _ & _ & _ & ->)]).
      * exists ([EvLaunchBrowser; EvNewContext (state_file_exists env);
                 EvGoto (store_url env)] ++ login_events env ++ new)%list.
        split; [|right; split; [eauto|]].
        2: { split; [rewrite <- !app_assoc; reflexivity|].
             eexists. split; [reflexivity|].
             intros Hi. apply in_app_or in Hi as [Hi|Hi];
               [apply Hlogin in Hi | apply (week_events_summaries new Hall) in Hi]; tauto. }
        simpl. intros [Hi|[Hi|[Hi|Hi]]]; try discriminate Hi.
        apply in_app_or in Hi as [Hi|Hi];
          [apply Hlogin in Hi | apply (week_events_summaries new Hall) in Hi]; tauto.
      * exists ([EvLaunchBrowser; EvNewContext (state_file_exists env);
                 EvGoto (store_url env)] ++ login_events env ++ new ++
                combined_event env rows)%list.
        split; [|right; split; [eauto|]].
        2: { split; [rewrite <- !app_assoc; reflexivity|].
             eexists. split; [reflexivity|].
             intros Hi. apply in_app_or in Hi as [Hi|Hi]; [apply Hlogin in Hi; tauto|].
             apply in_app_or in Hi as [Hi|Hi];
               [apply (week_events_summaries new Hall) in Hi | apply Hcomb in Hi]; tauto. }
        simpl. intros [Hi|[Hi|[Hi|Hi]]]; try discriminate Hi.
        apply in_app_or in Hi as [Hi|Hi]; [apply Hlogin in Hi; tauto|].
        apply in_app_or in Hi as [Hi|Hi];
          [apply (week_events_summaries new Hall) in Hi | apply Hcomb in Hi]; tauto.
Qed.

(** X13.  [run] closes its browser in the [finally] clause of its [try]
    block, so what it closes depends on how far it got.  The close happens
    at most once and nothing follows it; it happens only in a run that
    entered the [try] block and whose two [close] calls raised nothing.
    A run that enters the [try] block, and whose [close] calls raise
    nothing, launches the browser, opens the context and the page of the
    store and ends with the close, however the block ended.  A run that
    launches the browser and cannot open the context or the page raises
    and closes nothing. *)
Theorem run_closes_the_browser (env : Env) (tab : option grid) :
  let trace := run_trace env tab in
  (forall pre post,
      trace = (pre ++ EvClose :: post)%list -> post = [] /\ ~ In EvClose pre) /\
  (In EvClose trace ->
   close_error env = None /\ exists s u, enters_try_block env s u) /\
  (forall s u,
      enters_try_block env s u -> close_error env = None ->
      exists middle,
        trace = (EvLaunchBrowser :: EvNewContext (state_file_exists env) ::
                 EvGoto (store_url env) :: middle ++ [EvClose])%list /\
        ~ In EvClose middle /\ ~ In EvLaunchBrowser middle) /\
  (In EvLaunchBrowser trace ->
   (forall s u, ~ enters_try_block env s u) ->
   ~ In EvClose trace /\ exists e, run_outcome env tab = Raise e).
Proof.
  cbv zeta.
  destruct (run_trace_body env tab)
    as (body & Hbody & [(-> & Hn & Hr) | (Hin & -> & middle & -> & Hm)]).
  - split; [|split; [|split]].
    + intros pre post E. exfalso. apply Hbody. rewrite E.
      apply in_or_app. right. left. reflexivity.
    + intros Hi. contradiction.
    + intros s u Hs. elim (Hn s u Hs).
    + intros _ _. auto.
  - unfold close_events. destruct (close_error env) as [e|] eqn:Ec.
    + rewrite app_nil_r. split; [|split; [|split]].
      * intros pre post E. exfalso. apply Hbody. rewrite E.
        apply in_or_app. right. left. reflexivity.
      * intros Hi. contradiction.
      * intros s u _ Hc. discriminate Hc.
      * intros _ Hn. destruct Hin as (s & u & Hs). elim (Hn s u Hs).
    + split; [|split; [|split]].
      * intros pre post E. apply last_occurrence in E as (-> & ->); auto.
      * intros _. auto.
      * intros s u _ _. exists middle. split; [reflexivity|]. split; [|exact Hm].
        intros Hi. apply Hbody. right. right. right. exact Hi.
      * intros _ Hn. destruct Hin as (s & u & Hs). elim (Hn s u Hs).
Qed.

(** When the page cannot be opened the browser stays open; when the close
    of the context raises, the run raises after its combined summary was
    written. *)
Example run_leaves_the_browser_open :
  let env := on_machine
               (two_week_env "2025-09-01" "2025-09-14" "append" false
                  (fun _ _ => Ok example_frame) (fun _ _ => None))
               (fun step => match step with
                            | NewPage => Some (TimeoutError "Timeout 30000ms exceeded")
                            | _ => None
                            end) in
  run_outcome env None = Raise (TimeoutError "Timeout 30000ms exceeded") /\
  run_trace env None = [EvLaunchBrowser; EvNewContext true].
Proof. vm_compute. split; reflexivity. Qed.

Example run_raises_while_closing :
  let env := on_machine
               (two_week_env "2025-09-01" "2025-09-14" "append" false
                  (fun _ _ => Ok example_frame) (fun _ _ => None))
               (fun step => match step with
                            | CloseContext => Some (TimeoutError "Target closed")
                            | _ => None
                            end) in
  run_outcome env None = Raise (TimeoutError "Target closed") /\
  List.length (saved_summaries (run_trace env None)) = 2%nat /\
  combined_summaries (run_trace env None) = [saved_summaries (run_trace env None)] /\
  ~ In EvClose (run_trace env None).
Proof.
  vm_compute. repeat split.
  intros H. repeat (destruct H as [H|H]; [discriminate H|]). exact H.
Qed.

(** X14.  The combined summary is written at most once, after a loop that
    ended normally, and it holds the rows of the weekly summaries saved
    during the run, in their order.  A run that ends normally has written
    it, unless no row was saved.  A run that raises has written it only
    when what it raises comes from the print that follows the writing,
    from the [finally] clause or from leaving the [async with] block. *)
Theorem run_writes_combined_summary_on_success (env : Env) (tab : option grid) :
  let trace := run_trace env tab in
  (combined_summaries trace = [] \/
   (combined_summaries trace = [saved_summaries trace] /\ saved_summaries trace <> [])) /\
  (run_outcome env tab = Ok tt ->
   combined_summaries trace =
     match saved_summaries trace with
     | [] => []
     | rows => [rows]
     end) /\
  (forall e,
      run_outcome env tab = Raise e -> combined_summaries trace <> [] ->
      local_error env PrintCombinedSaved = Some e \/
      close_error env = Some e \/
      local_error env StopPlaywright = Some e).
Proof.
  cbv zeta.
  destruct (session_events_pages env) as (_ & Hs & Hc).
  destruct (close_events_pages env) as (_ & Hs' & Hc').
  destruct (run_trace_shape env tab)
    as [(-> & (e0 & ->) & _) | [(Hl & (e0 & ->) & _) | (s & u & _ & H)]].
  - split; [left; reflexivity|]. split; [discriminate|]. intros e _ Hn. elim Hn. reflexivity.
  - destruct Hl as [-> | ->];
      (split; [left; reflexivity|]); (split; [discriminate|]);
      intros e _ Hn; elim Hn; reflexivity.
  - destruct (session_error env) as [e0|].
    + destruct H as (-> & ->).
      rewrite combined_summaries_app, Hc, Hc'.
      split; [left; reflexivity|]. split.
      * intros Hok. apply finished_ok in Hok as (Hok & _). discriminate Hok.
      * intros e _ Hn. elim Hn. reflexivity.
    + destruct H as (new & k & Hall & _ & _ &
                     [((e0 & ->) & ->) | (rows & _ & _ & _ & Hrows & -> & ->)]).
      * rewrite !combined_summaries_app, Hc, Hc', (week_events_combined new Hall).
        split; [left; reflexivity|]. split.
        -- intros Hok. apply finished_ok in Hok as (Hok & _). discriminate Hok.
        -- intros e _ Hn. elim Hn. reflexivity.
      * destruct (combined_event_pages env rows) as (_ & Hs1 & Hc1).
        rewrite !combined_summaries_app, !saved_summaries_app, Hc, Hs, Hs', Hc', Hs1, Hc1,
          (week_events_combined new Hall), Hrows.
        cbn [app]. rewrite ?app_nil_r.
        unfold combined_error.
        destruct rows as [|row rows].
        { split; [left; reflexivity|]. split; [reflexivity|].
          intros e _ Hn. elim Hn. reflexivity. }
        destruct (local_error env CombinedToCsv) as [e1|].
        { split; [left; reflexivity|]. split.
          - intros Hok. apply finished_ok in Hok as (Hok & _). discriminate Hok.
          - intros e _ Hn. elim Hn. reflexivity. }
        split; [right; split; [reflexivity | discriminate]|].
        split; [reflexivity|].
        intros e He _. apply finished_raise in He as [He|He]; [|auto].
        destruct (local_error env PrintCombinedSaved); inversion He. auto.
Qed.

(** X15.  A run that opens a page opens the page of the store first and
    then the report pages of the first [k] ranges of [iter_weeks], in
    their order and once each, for some [k]; all of them when the run ends
    normally.  A run that opens no page raises. *)
Theorem run_opens_report_pages_in_order (env : Env) (tab : option grid) :
  let trace := run_trace env tab in
  (report_pages trace = [] /\ exists e, run_outcome env tab = Raise e) \/
  exists since_d until_d k,
    parse_ymd (SINCE env) = Ok since_d /\ parse_ymd (UNTIL env) = Ok until_d /\
    let weeks := fst (iter_weeks since_d until_d (WEEK_START env)) in
    (k <= List.length weeks)%nat /\
    report_pages trace = store_url env :: map (report_url env) (firstn k weeks) /\
    (run_outcome env tab = Ok tt -> k = List.length weeks).
Proof.
  cbv zeta.
  destruct (session_events_pages env) as (Hp & _ & _).
  destruct (close_events_pages env) as (Hp' & _ & _).
  destruct (run_trace_shape env tab)
    as [(-> & Hr & _) | [(Hl & Hr & _) | (since_d & until_d & (_ & Es & Eu & _) & H)]].
  - left. auto.
  - left. destruct Hl as [-> | ->]; auto.
  - right. exists since_d, until_d.
    destruct (session_error env) as [e|].
    + destruct H as (-> & ->). exists O.
      split; [exact Es|]. split; [exact Eu|]. split; [lia|].
      rewrite report_pages_app, Hp, Hp'. split; [reflexivity|].
      intros Hok. apply finished_ok in Hok as (Hok & _). discriminate Hok.
    + destruct H as (new & k & Hall & Hk & Hpn &
                     [((e & ->) & ->) | (rows & _ & -> & _ & _ & -> & ->)]).
      * exists k. split; [exact Es|]. split; [exact Eu|]. split; [exact Hk|].
        rewrite !report_pages_app, Hp, Hpn, Hp'. cbn [app].
        rewrite app_nil_r. split; [reflexivity|].
        intros Hok. apply finished_ok in Hok as (Hok & _). discriminate Hok.
      * exists (List.length (fst (iter_weeks since_d until_d (WEEK_START env)))).
        split; [exact Es|]. split; [exact Eu|]. split; [lia|].
        destruct (combined_event_pages env rows) as (Hp1 & _ & _).
        rewrite !report_pages_app, Hp, Hpn, Hp', Hp1. cbn [app].
        rewrite app_nil_r. split; reflexivity.
Qed.

(** X16.  [run] logs in only when there is no saved session and the page
    of the store could be opened, in the way [AUTO_LOGIN] tells; it saves
    the session only after a login that raised nothing; and the context it
    opens loads the saved session exactly when there is one. *)
Theorem run_logs_in_only_without_session (env : Env) (tab : option grid) :
  let trace := run_trace env tab in
  (forall a, In (EvLogin a) trace ->
     a = AUTO_LOGIN env /\ state_file_exists env = false /\ goto_store_error env = None) /\
  (In EvSaveState trace ->
     In (EvLogin (AUTO_LOGIN env)) trace /\ login_error env = None) /\
  (forall b, In (EvNewContext b) trace -> b = state_file_exists env).
Proof.
  cbv zeta.
  assert (exists head rest,
            run_trace env tab = (head ++ rest)%list /\
            (head = [] \/ head = [EvLaunchBrowser] \/
             head = [EvLaunchBrowser; EvNewContext (state_file_exists env)] \/
             head = session_events env) /\
            forall ev, In ev rest ->
              ev <> EvSaveState /\ (forall a, ev <> EvLogin a) /\
              (forall b, ev <> EvNewContext b)) as (head & rest & -> & Hhead & Hrest).
  { assert (forall ev, In ev (close_events env) ->
              ev <> EvSaveState /\ (forall a, ev <> EvLogin a) /\
              (forall b, ev <> EvNewContext b)) as Hclose.
    { unfold close_events. intros ev Hin. destruct (close_error env); [contradiction|].
      destruct Hin as [<-|[]]. repeat split; intros; discriminate. }
    assert (forall rows ev, In ev (combined_event env rows) ->
              ev <> EvSaveState /\ (forall a, ev <> EvLogin a) /\
              (forall b, ev <> EvNewContext b)) as Hcomb.
    { unfold combined_event. intros rows ev Hin.
      destruct rows, (local_error env CombinedToCsv); try contradiction.
      destruct Hin as [<-|[]]. repeat split; intros; discriminate. }
    destruct (run_trace_shape env tab)
      as [(-> & _) | [(Hl & _) | (since_d & until_d & _ & H)]].
    - exists [], []. split; [reflexivity|]. split; [auto|]. intros ev [].
    - destruct Hl as [-> | ->]; eexists _, []; rewrite app_nil_r;
        (split; [reflexivity|]); (split; [auto|]); intros ev [].
    - destruct (session_error env) as [e|].
      + destruct H as (_ & ->). exists (session_events env), (close_events env).
        split; [reflexivity|]. split; [auto 6|]. exact Hclose.
      + destruct H as (new & k & Hall & _ & _ &
                       [(_ & ->) | (rows & _ & _ & _ & _ & _ & ->)]).
        * exists (session_events env), (new ++ close_events env)%list.
          split; [reflexivity|]. split; [auto 6|].
          intros ev Hin. apply in_app_or in Hin as [Hin|Hin]; [|auto].
          apply (week_events_summaries new Hall) in Hin. tauto.
        * exists (session_events env), (new ++ combined_event env rows ++ close_events env)%list.
          split; [reflexivity|]. split; [auto 6|].
          intros ev Hin. apply in_app_or in Hin as [Hin|Hin].
          -- apply (week_events_summaries new Hall) in Hin. tauto.
          -- apply in_app_or in Hin as [Hin|Hin]; eauto. }
  unfold session_events, login_events in Hhead.
  split; [|split].
  - intros a H.
    apply in_app_or in H as [H|H];
      [|apply Hrest in H; destruct H as (_ & H & _); now elim (H a)].
    destruct Hhead as [-> | [-> | [-> | ->]]];
      try (simpl in H; intuition discriminate).
    destruct (goto_store_error env), (state_file_exists env), (login_error env),
      (local_error env StorageState);
      simpl in H; intuition (try discriminate; congruence).
  - intros H.
    apply in_app_or in H as [H|H]; [|apply Hrest in H; tauto].
    destruct Hhead as [-> | [-> | [-> | ->]]];
      try (simpl in H; intuition discriminate).
    split; [apply in_or_app; left|];
      destruct (goto_store_error env), (state_file_exists env), (login_error env),
        (local_error env StorageState);
      simpl in H |- *; intuition (try discriminate; congruence).
  - intros b H.
    apply in_app_or in H as [H|H];
      [|apply Hrest in H; destruct H as (_ & _ & H); now elim (H b)].
    destruct Hhead as [-> | [-> | [-> | ->]]];
      try (simpl in H; intuition (try discriminate; congruence)).
    destruct (goto_store_error env), (state_file_exists env), (login_error env),
      (local_error env StorageState);
      simpl in H; intuition (try discriminate; congruence).
Qed.

Lemma upload_df_to_sheet_succeeds (df : SummaryRow) (spreadsheet_id : option string)
    (fault : api_call -> option exn) (mode : string) (w : world) :
  falsy spreadsheet_id = false -> (forall c, fault c = None) ->
  fst (upload_df_to_sheet df spreadsheet_id fault mode w) = Ok tt.
Proof.
  intros Hid Hf.
  unfold upload_df_to_sheet, ensure_tab, raise_if, bind, ret, raise, emit,
    get_sheet, set_sheet.
  rewrite Hid, !Hf. cbn [sheet log].
  destruct (String.eqb mode "overwrite"), (sheet w) as [t|] eqn:Et;
    cbn [sheet log fst]; rewrite ?Et; try reflexivity.
  - destruct (a1_empty t); reflexivity.
Qed.

(** A turn of the loop on a machine that never fails, with uploads that
    cannot fail: the report page is opened, and the turn ends as the row of
    the week does. *)
Lemma week_body_quiet (env : Env) (wk : date * date) (v : loop_vars) (w : world) :
  machine_never_fails env -> uploads_cannot_fail env ->
  exists r w' new,
    week_body env (fst wk) (snd wk) v w = (r, w') /\
    log w' = (rev new ++ log w)%list /\
    Forall (fun ev => is_week_event ev = true) new /\
    report_pages new = [report_url env wk] /\
    match week_row env wk with
    | Ok row => (exists v', r = Ok v') /\ saved_summaries new = [row]
    | Raise e => r = Raise e /\ saved_summaries new = []
    end.
Proof.
  intros Hq Hup.
  destruct (week_body env (fst wk) (snd wk) v w) as [r w'] eqn:H.
  exists r, w'.
  pose proof (week_body_trace env wk v w w' r H) as (new & Hlog & Hall & Hr).
  exists new. split; [reflexivity|]. split; [exact Hlog|]. split; [exact Hall|].
  revert H Hr.
  unfold week_body, week_row, report_url, local, raise_if, try_except, bind, ret,
    emit, lift, raise.
  rewrite !Hq. cbn [sheet log].
  destruct (acquire env (fst wk) (snd wk)) as [df|e1].
  2: { intros H Hr. inversion H; subst. cbn [log] in Hlog.
       apply (app_inv_tail (log w) [_] (rev new)) in Hlog.
       apply (f_equal (@rev event)) in Hlog. rewrite rev_involutive in Hlog.
       subst new. repeat split. }
  cbn [exc_bind].
  destruct (summarize_channel_csv_to_weekly_row _ _ df _ _) as [row|e2].
  2: { intros H Hr. inversion H; subst. cbn [log] in Hlog.
       apply (app_inv_tail (log w) [_; _] (rev new)) in Hlog.
       apply (f_equal (@rev event)) in Hlog. rewrite rev_involutive in Hlog.
       subst new. repeat split. }
  cbn [sheet log].
  assert (forall x : exc loop_vars,
            match x with
            | Ok v' => exists row0,
                report_pages new = [build_report_url (slug_text env) (ymd (fst wk))
                                      (ymd (snd wk)) (COUNTRY env)] /\
                Ok row = Ok row0 /\ saved_summaries new = [row0] /\
                all_summary_rows v' = (all_summary_rows v ++ [row0])%list
            | Raise _ =>
                (report_pages new = [] \/
                 report_pages new = [build_report_url (slug_text env) (ymd (fst wk))
                                       (ymd (snd wk)) (COUNTRY env)]) /\
                (saved_summaries new = [] \/
                 exists row0, Ok row = Ok row0 /\ saved_summaries new = [row0])
            end ->
            (exists v', x = Ok v') ->
            report_pages new = [build_report_url (slug_text env) (ymd (fst wk))
                                  (ymd (snd wk)) (COUNTRY env)] /\
            (exists v', x = Ok v') /\ saved_summaries new = [row]) as Hok.
  { intros x Hx (v' & ->). destruct Hx as (row0 & Hp & E & Hs & _).
    inversion E; subst. repeat split; eauto. }
  destruct Hup as [-> | (Hid & Hf)].
  { intros H Hr. inversion H; subst. apply Hok; [exact Hr | eauto]. }
  destruct (UPLOAD_TO_SHEET env).
  2: { intros H Hr. inversion H; subst. apply Hok; [exact Hr | eauto]. }
  match goal with
  | |- context [upload_df_to_sheet ?a ?b ?c ?d ?e] =>
      pose proof (upload_df_to_sheet_succeeds a b c d e Hid (Hf _)) as Hu;
      destruct (upload_df_to_sheet a b c d e) as [ru wu]
  end.
  cbn [fst] in Hu. subst ru. cbn [sheet log].
  intros H Hr. inversion H; subst. apply Hok; [exact Hr | eauto].
Qed.

Lemma for_weeks_succeeds (env : Env) (weeks : list (date * date)) :
  machine_never_fails env -> uploads_cannot_fail env ->
  Forall (fun wk => exists row, week_row env wk = Ok row) weeks ->
  forall v w, exists v', fst (for_weeks env weeks v w) = Ok v'.
Proof.
  intros Hq Hup. induction 1 as [|[start end_] weeks (row & Hrow) _ IH]; intros v w.
  - eexists; reflexivity.
  - cbn [for_weeks]. unfold bind.
    destruct (week_body_quiet env (start, end_) v w Hq Hup)
      as (r1 & w1 & new & Hb & _ & _ & _ & Hr).
    cbn [fst snd] in Hb. rewrite Hb. rewrite Hrow in Hr.
    destruct Hr as ((v1 & ->) & _). apply IH.
Qed.

(** X17.  On a machine where no step on the console, the files or the
    browser process fails, with a store, a range [since <= until] that
    parses, and uploads that cannot fail, [run] ends normally exactly when
    the page of the store and the login raise nothing, [iter_weeks] ends
    on [StopIteration], and the acquisition and the aggregation of every
    week succeed. *)
Theorem run_succeeds_iff_every_week_does
    (env : Env) (tab : option grid) (since_d until_d : date) :
  machine_never_fails env ->
  falsy (STORE_SLUG env) = false ->
  parse_ymd (SINCE env) = Ok since_d -> parse_ymd (UNTIL env) = Ok until_d ->
  since_d <= until_d ->
  uploads_cannot_fail env ->
  run_outcome env tab = Ok tt <->
  session_error env = None /\
  snd (iter_weeks since_d until_d (WEEK_START env)) = Stop /\
  Forall (fun wk => exists row, week_row env wk = Ok row)
         (fst (iter_weeks since_d until_d (WEEK_START env))).
Proof.
  intros Hq Hslug Es Eu Hle Hup. split.
  - intros Hok.
    destruct (run_trace_shape env tab)
      as [(_ & (e & H) & _) | [(_ & (e & H) & _) | (s & u & (_ & Es' & Eu' & _) & H)]];
      try congruence.
    rewrite Es in Es'. rewrite Eu in Eu'. inversion Es'; inversion Eu'; subst s u.
    destruct (session_error env) as [e|].
    { destruct H as (H & _). rewrite H in Hok.
      apply finished_ok in Hok as (Hok & _). discriminate Hok. }
    destruct H as (new & k & _ & _ & _ &
                   [((e & He) & _) | (rows & Hfin & _ & Hrows & _)]).
    { rewrite He in Hok. apply finished_ok in Hok as (Hok & _). discriminate Hok. }
    split; [reflexivity|]. split; [exact Hfin|].
    clear - Hrows. induction Hrows; constructor; eauto.
  - intros (Hsession & Hfin & Hweeks).
    assert (enters_try_block env since_d until_d) as Hin.
    { repeat (split; [assumption|]). intros step _. apply Hq. }
    destruct (run_enters_try_block env tab since_d until_d Hin) as (r & wb & Hb & -> & _).
    destruct (finished_quiet env r Hq) as (-> & _).
    apply try_block_parts in Hb. cbv zeta in Hb. rewrite Hsession in Hb.
    destruct Hb as (rl & wl & Hfor & _ & Hr).
    match type of Hfor with
    | for_weeks _ _ ?v ?w = _ =>
        destruct (for_weeks_succeeds env _ Hq Hup Hweeks v w) as (v' & Hv)
    end.
    rewrite Hfor in Hv. cbn [fst] in Hv. subst rl. rewrite Hfin in Hr.
    destruct Hr as (-> & _). unfold combined_error. rewrite !Hq.
    destruct (all_summary_rows v'); reflexivity.
Qed.

Lemma run_succeeds_iff_every_week_does_witness :
  let env := two_week_env "2025-09-01" "2025-09-14" "append" false
               (fun _ _ => Ok example_frame) (fun _ _ => None) in
  run_outcome env None = Ok tt <->
  session_error env = None /\
  snd (iter_weeks 739495 739508 (WEEK_START env)) = Stop /\
  Forall (fun wk => exists row, week_row env wk = Ok row)
         (fst (iter_weeks 739495 739508 (WEEK_START env))).
Proof.
  intros env.
  apply (run_succeeds_iff_every_week_does env None 739495 739508).
  - intros step. reflexivity.
  - reflexivity.
  - vm_compute. reflexivity.
  - vm_compute. reflexivity.
  - lia.
  - left. reflexivity.
Defined.

(** X18.  A run that ends normally has saved one summary row per range
    of [iter_weeks], in the order of the ranges; each row is the summary of
    the frame acquired for its range, and carries the bounds of the range
    in [Range_Start] and [Range_End]. *)
Theorem run_success_saves_one_row_per_week (env : Env) (tab : option grid) :
  run_outcome env tab = Ok tt ->
  exists since_d until_d rows,
    parse_ymd (SINCE env) = Ok since_d /\ parse_ymd (UNTIL env) = Ok until_d /\
    since_d <= until_d /\
    Forall2 (fun wk row => week_row env wk = Ok row)
            (fst (iter_weeks since_d until_d (WEEK_START env))) rows /\
    saved_summaries (run_trace env tab) = rows /\
    map Range_Start rows =
      map (fun wk => ymd (fst wk)) (fst (iter_weeks since_d until_d (WEEK_START env))) /\
    map Range_End rows =
      map (fun wk => ymd (snd wk)) (fst (iter_weeks since_d until_d (WEEK_START env))).
Proof.
  intros Hok.
  destruct (run_trace_shape env tab)
    as [(_ & (e & H) & _) | [(_ & (e & H) & _) | (s & u & (_ & Es & Eu & Hle & _) & H)]];
    try congruence.
  exists s, u.
  destruct (session_error env) as [e|].
  { destruct H as (H & _). rewrite H in Hok.
    apply finished_ok in Hok as (Hok & _). discriminate Hok. }
  destruct H as (new & k & Hall & _ & _ &
                 [((e & He) & _) | (rows & _ & _ & Hrows & Hs & _ & ->)]).
  { rewrite He in Hok. apply finished_ok in Hok as (Hok & _). discriminate Hok. }
  exists rows. repeat (split; [assumption|]).
  destruct (session_events_pages env) as (_ & Hs0 & _).
  destruct (combined_event_pages env rows) as (_ & Hs1 & _).
  destruct (close_events_pages env) as (_ & Hs2 & _).
  split.
  { rewrite !saved_summaries_app, Hs0, Hs, Hs1, Hs2.
    cbn [app]. now rewrite app_nil_r. }
  clear - Hrows. induction Hrows as [|[start end_] row weeks rows Hrow _ IH]; [split; reflexivity|].
  destruct IH as (IH1 & IH2). cbn [map fst snd].
  rewrite IH1, IH2.
  unfold week_row in Hrow. cbn [fst snd] in Hrow.
  destruct (acquire env start end_) as [df|e]; [|discriminate Hrow].
  cbn [exc_bind] in Hrow.
  unfold summarize_channel_csv_to_weekly_row in Hrow.
  destruct (prepare df) as [[[rs ch] ty]|e]; [|discriminate Hrow].
  cbn [exc_bind] in Hrow.
  destruct (gpm_of _ _) as [g|e]; [|discriminate Hrow]. cbn [exc_bind] in Hrow.
  destruct (format_date_range _ _) as [dw|e]; [|discriminate Hrow].
  cbn [exc_bind] in Hrow. inversion Hrow. split; reflexivity.
Qed.

Lemma run_success_saves_one_row_per_week_witness :
  let env := two_week_env "2025-09-01" "2025-09-14" "append" false
               (fun _ _ => Ok example_frame) (fun _ _ => None) in
  exists since_d until_d rows,
    parse_ymd (SINCE env) = Ok since_d /\ parse_ymd (UNTIL env) = Ok until_d /\
    since_d <= until_d /\
    Forall2 (fun wk row => week_row env wk = Ok row)
            (fst (iter_weeks since_d until_d (WEEK_START env))) rows /\
    saved_summaries (run_trace env None) = rows /\
    map Range_Start rows =
      map (fun wk => ymd (fst wk)) (fst (iter_weeks since_d until_d (WEEK_START env))) /\
    map Range_End rows =
      map (fun wk => ymd (snd wk)) (fst (iter_weeks since_d until_d (WEEK_START env))).
Proof.
  intros env.
  apply (run_success_saves_one_row_per_week env None).
  vm_compute. reflexivity.
Defined.

(** The loop stops at the first week whose row cannot be made. *)
Lemma for_weeks_fails_at (env : Env) (wk : date * date) (post : list (date * date))
    (e : exn) :
  machine_never_fails env -> uploads_cannot_fail env ->
  week_row env wk = Raise e ->
  forall pre,
    Forall (fun wk => exists row, week_row env wk = Ok row) pre ->
    forall v w, exists new wl,
      for_weeks env (pre ++ wk :: post) v w = (Raise e, wl) /\
      log wl = (rev new ++ log w)%list /\
      Forall (fun ev => is_week_event ev = true) new /\
      report_pages new = map (report_url env) (pre ++ [wk]) /\
      List.length (saved_summaries new) = List.length pre.
Proof.
  intros Hq Hup Hwk. induction 1 as [|[start end_] pre (row & Hrow) _ IH]; intros v w.
  - cbn [app for_weeks]. unfold bind. destruct wk as [start end_].
    destruct (week_body_quiet env (start, end_) v w Hq Hup)
      as (r1 & w1 & new1 & Hb & Hlog & Hall & Hp & Hr).
    cbn [fst snd] in Hb. rewrite Hb. rewrite Hwk in Hr. destruct Hr as (-> & Hs).
    exists new1, w1. rewrite Hs. repeat split; auto.
  - cbn [app for_weeks]. unfold bind.
    destruct (week_body_quiet env (start, end_) v w Hq Hup)
      as (r1 & w1 & new1 & Hb & Hlog1 & Hall1 & Hp1 & Hr).
    cbn [fst snd] in Hb. rewrite Hb. rewrite Hrow in Hr.
    destruct Hr as ((v1 & ->) & Hs1).
    destruct (IH v1 w1) as (new2 & wl & -> & Hlog2 & Hall2 & Hp2 & Hs2).
    exists (new1 ++ new2)%list, wl. split; [reflexivity|].
    split; [rewrite Hlog2, Hlog1, rev_app_distr, app_assoc; reflexivity|].
    split; [apply Forall_app; auto|].
    split; [rewrite report_pages_app, Hp1, Hp2; reflexivity|].
    rewrite saved_summaries_app, length_app, Hs1, Hs2. reflexivity.
Qed.



(** X20.  The [except] clause of the loop of [run] is never entered: no
    run prints that a week failed. *)
Theorem run_never_reports_a_failed_week
    (env : Env) (tab : option grid) (start end_ : date) (e : exn) :
  ~ In (EvWeekFailed start end_ e) (run_trace env tab).
Proof.
  assert (~ In (EvWeekFailed start end_ e) (close_events env)) as Hclose.
  { unfold close_events. destruct (close_error env); simpl; intuition discriminate. }
  assert (~ In (EvWeekFailed start end_ e) (session_events env)) as Hsession.
  { unfold session_events, login_events.
    destruct (goto_store_error env), (state_file_exists env), (login_error env),
      (local_error env StorageState); simpl; intuition discriminate. }
  assert (forall rows, ~ In (EvWeekFailed start end_ e) (combined_event env rows))
    as Hcomb.
  { intros rows. unfold combined_event.
    destruct rows, (local_error env CombinedToCsv); simpl; intuition discriminate. }
  destruct (run_trace_shape env tab)
    as [(-> & _) | [(Hl & _) | (since_d & until_d & _ & H)]].
  - intros [].
  - destruct Hl as [-> | ->]; simpl; intuition discriminate.
  - destruct (session_error env) as [e0|].
    { destruct H as (_ & ->). intros Hin. apply in_app_or in Hin as [Hin|Hin]; tauto. }
    destruct H as (new & k & Hall & _ & _ &
                   [(_ & ->) | (rows & _ & _ & _ & _ & _ & ->)]);
      intros Hin;
      apply in_app_or in Hin as [Hin|Hin]; try tauto;
      apply in_app_or in Hin as [Hin|Hin];
      try (apply (week_events_summaries new Hall) in Hin;
           destruct Hin as (_ & _ & _ & _ & _ & Hin); now elim (Hin start end_ e));
      try tauto.
    apply in_app_or in Hin as [Hin|Hin]; [elim (Hcomb rows Hin) | tauto].
Qed.

(* ================================================================== *)
(** * The export dialog and the login *)
(* ================================================================== *)

Section ExportAndLogin.

Import Page.

(** Splits on the answer of the page to the next call of [H]. *)
Ltac next_call H :=
  match type of H with
  | context [?page ?h ?c] =>
      match type of page with
      | oracle =>
          let E := fresh "E" in
          destruct (page h c) eqn:E; cbn [fst snd] in H
      end
  end.

(** Closes a branch that ends at a call which raised. *)
Ltac raised_at H :=
  inversion H; subst;
  do 2 eexists; split; [reflexivity|]; split; [eassumption|]; simpl; tauto.

(** Finds the recorded answer of the page to the call in the goal. *)
Ltac recorded_answer :=
  match goal with
  | X : ?page ?b ?c = ?v |- _ = match ?page ?b' ?c' with _ => _ end =>
      change (page b' c') with (page b c); rewrite X; reflexivity
  end.


Lemma click_first_never_raises (timeout : Z) (sels : list string) (page : oracle) :
  forall h e, fst (click_first timeout sels page h) <> Raise e.
Proof.
  induction sels as [|sel sels IH]; intros h e; [discriminate|].
  cbn [click_first]. unfold perform.
  destruct (page h (Click sel timeout)); [apply IH | discriminate].
Qed.

(** X21.  A chain of candidates of [click_export_flow] clicks the
    candidates in order and stops at the first click that succeeds: the
    clicks made are a prefix of the chain, all but the last failed, and the
    chain is used up only when every click failed.  The loop never
    raises. *)
Theorem click_first_stops_at_first_success
    (timeout : Z) (sels : list string) (page : oracle) (h : list call) :
  exists tried rest,
    sels = (tried ++ rest)%list /\
    snd (click_first timeout sels page h) =
      (rev (map (fun s => Click s timeout) tried) ++ h)%list /\
    ((fst (click_first timeout sels page h) = Ok false /\ rest = [] /\
      forall pre s post, tried = (pre ++ s :: post)%list ->
        page (rev (map (fun s => Click s timeout) pre) ++ h)%list (Click s timeout) <> None)
     \/
     (fst (click_first timeout sels page h) = Ok true /\
      exists pre s, tried = (pre ++ [s])%list /\
        page (rev (map (fun s => Click s timeout) pre) ++ h)%list (Click s timeout) = None /\
        forall pre' s' post', pre = (pre' ++ s' :: post')%list ->
          page (rev (map (fun s => Click s timeout) pre') ++ h)%list (Click s' timeout)
            <> None)).
Proof.
  revert h. induction sels as [|sel sels IH]; intros h.
  - exists [], []. split; [reflexivity|]. split; [reflexivity|]. left.
    repeat split. intros [|x pre] s post Hx; discriminate Hx.
  - cbn [click_first]. unfold perform.
    destruct (page h (Click sel timeout)) as [e|] eqn:E.
    + destruct (IH (Click sel timeout :: h)) as (tried & rest & -> & Hlog & Hres).
      exists (sel :: tried), rest. split; [reflexivity|].
      split.
      { rewrite Hlog. cbn [map rev]. rewrite <- app_assoc. reflexivity. }
      assert (forall pre : list string,
                (rev (map (fun s => Click s timeout) (sel :: pre)) ++ h =
                 rev (map (fun s => Click s timeout) pre) ++ Click sel timeout :: h)%list)
        as Hshift.
      { intros pre. cbn [map rev]. rewrite <- app_assoc. reflexivity. }
      destruct Hres as [(Hr & -> & Hall) | (Hr & pre & s & -> & Hok & Hall)].
      * left. split; [exact Hr|]. split; [reflexivity|].
        intros [|x pre] s post Hx; inversion Hx; subst.
        -- cbn [map rev app]. congruence.
        -- rewrite Hshift. eapply Hall. reflexivity.
      * right. split; [exact Hr|]. exists (sel :: pre), s.
        split; [reflexivity|]. split; [rewrite Hshift; exact Hok|].
        intros [|x pre'] s' post' Hx; inversion Hx; subst.
        -- cbn [map rev app]. congruence.
        -- rewrite Hshift. eapply Hall. reflexivity.
    + exists [sel], sels. split; [reflexivity|]. split; [reflexivity|].
      right. split; [reflexivity|]. exists [], sel.
      split; [reflexivity|]. split; [exact E|].
      intros [|x pre'] s' post' Hx; discriminate Hx.
Qed.

Lemma click_first_static (timeout : Z) (sels : list string) (p : call -> option exn) :
  forall h,
    fst (click_first timeout sels (static p) h) =
    Ok (existsb (fun s => succeeds p (Click s timeout)) sels).
Proof.
  induction sels as [|sel sels IH]; intros h; [reflexivity|].
  cbn [click_first existsb]. unfold perform, static at 1, succeeds at 1.
  destruct (p (Click sel timeout)); [apply IH | reflexivity].
Qed.

(** Steps over a chain of candidates, which cannot raise. *)
Ltac next_chain H :=
  match type of H with
  | context [click_first ?t ?s ?p ?h] =>
      let E := fresh "E" in
      let b := fresh "b" in
      let e := fresh "e" in
      pose proof (click_first_never_raises t s p h) as E;
      destruct (click_first t s p h) as [[b|e] ?g];
      [clear E | exfalso; eapply E; reflexivity];
      cbn [fst snd] in H
  end.

(** X22.  [click_export_flow] raises only what one of five calls raised:
    the wait for the load state, the two pauses, the wait for a button, and
    the click on "text=Export" that follows the overflow menu.  The call
    that raised is the last one made.  No failure of a candidate of the
    four chains, of the CSV choice or of the confirmation leaves the
    function. *)
Theorem click_export_flow_raises_only_at_required_calls
    (page : oracle) (h : list call) :
  let '(r, h') := click_export_flow page h in
  match r with
  | Ok _ => True
  | Raise e =>
      exists c before,
        h' = c :: before /\ page before c = Some e /\ In c export_required_calls
  end.
Proof.
  destruct (click_export_flow page h) as [r h'] eqn:H.
  unfold click_export_flow, bind, ret, perform in H.
  next_call H; [raised_at H|].
  next_call H; [raised_at H|].
  next_call H; [raised_at H|].
  next_chain H.
  destruct b.
  - next_call H; [raised_at H|].
    next_chain H. next_chain H. inversion H; subst. exact I.
  - next_chain H.
    next_call H; [raised_at H|].
    next_call H; [raised_at H|].
    next_chain H. next_chain H. inversion H; subst. exact I.
Qed.

(** X23.  On a page whose answers do not depend on what was done before,
    [click_export_flow] returns normally exactly when the three waits at
    its head and the pause after the menu raise nothing and one of the
    three direct Export buttons, or else "text=Export", can be clicked;
    whether the CSV choice and the confirmation could be clicked has no
    influence. *)
Theorem click_export_flow_on_static_page (p : call -> option exn) (h : list call) :
  fst (click_export_flow (static p) h) = Ok tt <->
  p (WaitForLoadState "domcontentloaded") = None /\
  p (WaitForTimeout 2000) = None /\
  p (WaitForSelector "button" 60000) = None /\
  (p (Click "button:has-text('Export')" 8000) = None \/
   p (Click "button[aria-label='Export']" 8000) = None \/
   p (Click "[role='button']:has-text('Export')" 8000) = None \/
   p (Click "text=Export" 15000) = None) /\
  p (WaitForTimeout 800) = None.
Proof.
  destruct (click_export_flow (static p) h) as [r h'] eqn:H. cbn [fst].
  unfold click_export_flow, bind, ret, perform in H.
  match type of H with
  | context [click_first ?t ?s ?q ?g] =>
      pose proof (click_first_static t s p g) as Hdirect
  end.
  cbn [existsb] in Hdirect. unfold succeeds in Hdirect.
  unfold static at 1 2 3 in H.
  destruct (p (WaitForLoadState "domcontentloaded")) eqn:E1; cbn [fst snd] in H;
    [inversion H; subst; intuition congruence|].
  destruct (p (WaitForTimeout 2000)) eqn:E2; cbn [fst snd] in H;
    [inversion H; subst; intuition congruence|].
  destruct (p (WaitForSelector "button" 60000)) eqn:E3; cbn [fst snd] in H;
    [inversion H; subst; intuition congruence|].
  destruct (click_first 8000 _ (static p) _) as [r1 g1].
  cbn [fst] in Hdirect. subst r1.
  match type of H with
  | context [if ?b then _ else _] => destruct b eqn:Hd
  end.
  - assert (p (Click "button:has-text('Export')" 8000) = None \/
            p (Click "button[aria-label='Export']" 8000) = None \/
            p (Click "[role='button']:has-text('Export')" 8000) = None) as Hsome.
    { destruct (p (Click "button:has-text('Export')" 8000)); [|auto].
      destruct (p (Click "button[aria-label='Export']" 8000)); [|auto].
      destruct (p (Click "[role='button']:has-text('Export')" 8000)); [|auto].
      discriminate Hd. }
    unfold static at 1 in H.
    destruct (p (WaitForTimeout 800)) eqn:E5; cbn [fst snd] in H;
      [inversion H; subst; intuition congruence|].
    next_chain H. next_chain H. inversion H; subst. intuition auto.
  - assert (p (Click "button:has-text('Export')" 8000) <> None /\
            p (Click "button[aria-label='Export']" 8000) <> None /\
            p (Click "[role='button']:has-text('Export')" 8000) <> None) as Hnone.
    { destruct (p (Click "button:has-text('Export')" 8000)); [|discriminate Hd].
      destruct (p (Click "button[aria-label='Export']" 8000)); [|discriminate Hd].
      destruct (p (Click "[role='button']:has-text('Export')" 8000)); [|discriminate Hd].
      repeat split; discriminate. }
    next_chain H. unfold static at 1 in H.
    destruct (p (Click "text=Export" 15000)) eqn:E4; cbn [fst snd] in H;
      [inversion H; subst; intuition congruence|].
    unfold static at 1 in H.
    destruct (p (WaitForTimeout 800)) eqn:E5; cbn [fst snd] in H;
      [inversion H; subst; intuition congruence|].
    next_chain H. next_chain H. inversion H; subst. intuition auto.
Qed.

(** The ways [auto_login_shopify] can end, and what it has asked by then. *)
Lemma auto_login_shopify_cases
    (STORE_SLUG SHOPIFY_EMAIL SHOPIFY_PASSWORD SHOPIFY_OTP : option string)
    (typed : string) (page : oracle) (h h' : list call) (r : exc unit) :
  auto_login_shopify STORE_SLUG SHOPIFY_EMAIL SHOPIFY_PASSWORD SHOPIFY_OTP typed page h
    = (r, h') ->
  (falsy SHOPIFY_EMAIL || falsy SHOPIFY_PASSWORD = true /\ h' = h /\
   r = Raise (ValueError "AUTO_LOGIN=1 but SHOPIFY_EMAIL/SHOPIFY_PASSWORD missing in .env"))
  \/
  (falsy SHOPIFY_EMAIL || falsy SHOPIFY_PASSWORD = false /\
   exists c before,
     h' = c :: before /\ In c (login_required_calls STORE_SLUG) /\
     r = match page before c with Some e => Raise e | None => Ok tt end /\
     (r = Ok tt -> c = WaitForSelector "nav[aria-label='Primary'], #AppFrameMain" 60000) /\
     (forall prompt, In (Input prompt) h' -> In (Input prompt) h \/
        (strip (match SHOPIFY_OTP with Some s => s | None => "" end) = "" /\
         exists earlier,
           page earlier
             (WaitForSelector "input[name='two_factor_code'], input[name='otp']" 8000)
           = None))).
Proof.
  unfold auto_login_shopify. intros H.
  destruct (falsy SHOPIFY_EMAIL || falsy SHOPIFY_PASSWORD) eqn:Ecred.
  { inversion H; subst. left. auto. }
  right. split; [reflexivity|].
  unfold bind, ret, attempt, perform, login_required_calls in *.
  next_call H.
  { inversion H; subst. do 2 eexists. split; [reflexivity|].
    split; [simpl; tauto|]. split; [recorded_answer|].
    split; [discriminate|]. simpl. intros prompt [X|X]; [discriminate X | auto]. }
  next_call H.
  { inversion H; subst. do 2 eexists. split; [reflexivity|].
    split; [simpl; tauto|]. split; [recorded_answer|].
    split; [discriminate|]. simpl. intros prompt [X|[X|X]]; try discriminate X; auto. }
  destruct (String.eqb (strip match SHOPIFY_OTP with Some s => s | None => "" end) "")
    eqn:Eotp;
    [apply String.eqb_eq in Eotp|];
    repeat next_call H;
    inversion H; subst;
    (do 2 eexists; split; [reflexivity|]; split; [simpl; tauto|];
     split; [recorded_answer|];
     split; [reflexivity|];
     simpl; intros prompt Hin;
     repeat match goal with
       | X : _ \/ _ |- _ => destruct X as [X|X]; try discriminate X
       end;
     first [left; assumption
           | right; split; [assumption|]; eexists; eassumption
           | inversion Hin; subst; right; split; [assumption|]; eexists; eassumption]).
Qed.

(** X24.  [auto_login_shopify] raises a [ValueError] before touching the
    page when the e-mail or the password is missing.  Otherwise it raises
    only what the opening of the store page, the wait for the load state or
    the final wait for the admin frame raised, and it returns normally
    exactly when that final wait succeeded: what happens while the e-mail,
    the password and the 2FA code are entered has no influence. *)
Theorem auto_login_shopify_outcome
    (STORE_SLUG SHOPIFY_EMAIL SHOPIFY_PASSWORD SHOPIFY_OTP : option string)
    (typed : string) (page : oracle) (h : list call) :
  let landing := WaitForSelector "nav[aria-label='Primary'], #AppFrameMain" 60000 in
  let '(r, h') :=
    auto_login_shopify STORE_SLUG SHOPIFY_EMAIL SHOPIFY_PASSWORD SHOPIFY_OTP typed page h in
  match r with
  | Ok _ => exists before, h' = landing :: before /\ page before landing = None
  | Raise e =>
      (falsy SHOPIFY_EMAIL || falsy SHOPIFY_PASSWORD = true /\ h' = h /\
       e = ValueError "AUTO_LOGIN=1 but SHOPIFY_EMAIL/SHOPIFY_PASSWORD missing in .env")
      \/
      (falsy SHOPIFY_EMAIL || falsy SHOPIFY_PASSWORD = false /\
       exists c before,
         h' = c :: before /\ page before c = Some e /\
         In c (login_required_calls STORE_SLUG))
  end.
Proof.
  cbv zeta.
  destruct (auto_login_shopify _ _ _ _ _ page h) as [r h'] eqn:H.
  apply auto_login_shopify_cases in H
    as [(Hc & -> & ->) | (Hc & c & before & -> & Hin & Hr & Hok & _)].
  - left. auto.
  - destruct r as [[]|e].
    + rewrite (Hok eq_refl) in *. exists before. split; [reflexivity|].
      destruct (page before _); [discriminate Hr | reflexivity].
    + right. split; [exact Hc|]. exists c, before. split; [reflexivity|].
      split; [|exact Hin].
      destruct (page before c); [congruence | discriminate Hr].
Qed.

(** X25.  [auto_login_shopify] asks for the 2FA code on the terminal only
    when [SHOPIFY_OTP] is missing or holds nothing but whitespace, and the
    field for the code was found on the page. *)
Theorem auto_login_shopify_prompts_only_for_a_missing_code
    (STORE_SLUG SHOPIFY_EMAIL SHOPIFY_PASSWORD SHOPIFY_OTP : option string)
    (typed prompt : string) (page : oracle) :
  In (Input prompt)
     (snd (auto_login_shopify STORE_SLUG SHOPIFY_EMAIL SHOPIFY_PASSWORD SHOPIFY_OTP
             typed page [])) ->
  blank (match SHOPIFY_OTP with Some s => s | None => "" end) /\
  exists earlier,
    page earlier (WaitForSelector "input[name='two_factor_code'], input[name='otp']" 8000)
    = None.
Proof.
  destruct (auto_login_shopify _ _ _ _ _ page []) as [r h'] eqn:H. cbn [snd].
  apply auto_login_shopify_cases in H
    as [(_ & -> & _) | (_ & c & before & -> & _ & _ & _ & Hin)].
  - contradiction.
  - intros X. apply Hin in X as [[]|(X & Y)]. split; [|exact Y].
    destruct (strip_split (match SHOPIFY_OTP with Some s => s | None => "" end))
      as (pre & post & Hpre & Hpost & E).
    rewrite X in E. rewrite E. apply blank_app; assumption.
Qed.

Lemma auto_login_shopify_prompts_only_for_a_missing_code_witness :
  let page : oracle := fun _ _ => None in
  blank (match @None string with Some s => s | None => "" end) /\
  exists earlier,
    page earlier
      (WaitForSelector "input[name='two_factor_code'], input[name='otp']" 8000)
    = None.
Proof.
  intros page.
  apply (auto_login_shopify_prompts_only_for_a_missing_code
           (Some "demo-store") (Some "me@example.com") (Some "secret") None
           "123456" "Enter Shopify 2FA code: " page).
  vm_compute. tauto.
Defined.

(** A code made of a no-break space is no code: the prompt is shown, and a
    code that is there is typed without the whitespace around it. *)
Example auto_login_shopify_blank_code :
  let page : oracle := fun _ _ => None in
  let calls otp :=
    snd (auto_login_shopify (Some "demo-store") (Some "me@example.com") (Some "secret")
           otp "123456" page []) in
  existsb (fun c => match c with Input _ => true | _ => false end)
          (calls (Some NBSP)) = true /\
  existsb (fun c => match c with Input _ => true | _ => false end)
          (calls (Some (NBSP ++ "654321 "))) = false /\
  existsb (fun c => match c with
                    | Fill _ text _ => String.eqb text "654321"
                    | _ => false
                    end)
          (calls (Some (NBSP ++ "654321 "))) = true.
Proof. vm_compute. repeat split. Qed.

End ExportAndLogin.

(* ================================================================== *)
(** * The default range of a run *)
(* ================================================================== *)

(** X26.  Without [--since], [--until], [SINCE] and [UNTIL] (missing or
    empty), the range of the run goes from 2025-09-01 to the current day,
    and both ends parse. *)
Theorem get_date_range_defaults
    (args_since args_until env_since env_until : option string) (today : date) :
  valid_date today ->
  falsy args_since = true -> falsy env_since = true ->
  falsy args_until = true -> falsy env_until = true ->
  let '(since, until_) :=
    get_date_range_from_args_or_env args_since args_until env_since env_until today in
  since = "2025-09-01" /\ parse_ymd since = Ok 739495 /\
  until_ = ymd today /\ parse_ymd until_ = Ok today.
Proof.
  intros Ht H1 H2 H3 H4. unfold get_date_range_from_args_or_env, or_else.
  assert (forall x y, falsy x = true ->
            match x with
            | Some s => if String.eqb s "" then y else s
            | None => y
            end = y) as Hor.
  { intros [s|] y Hx; [|reflexivity]. simpl in Hx. now rewrite Hx. }
  rewrite !Hor by assumption.
  split; [reflexivity|]. split; [vm_compute; reflexivity|].
  split; [reflexivity|]. now apply parse_ymd_isoformat.
Qed.

Lemma get_date_range_defaults_witness :
  let '(since, until_) :=
    get_date_range_from_args_or_env None (Some "") None None 739516 in
  since = "2025-09-01" /\ parse_ymd since = Ok 739495 /\
  until_ = ymd 739516 /\ parse_ymd until_ = Ok 739516.
Proof.
  apply (get_date_range_defaults None (Some "") None None 739516);
    try reflexivity.
  unfold valid_date, MINORDINAL, MAXORDINAL. lia.
Defined.
